(** * Design-system analyzers: a shallow embedding of the three analyzer modules

    The development follows the JavaScript sources:
    - [src/utils/colorAnalyzer.js]  (object [ColorAnalyzer]),
    - the typography module         (object [TypographyAnalyzer]),
    - the image module              (object [ImageAnalyzer]).

    JavaScript strings are modelled by [string]; every character is one code
    unit below 256 and case conversion acts on the ASCII letters only.
    JavaScript numbers are IEEE-754 binary64 values, modelled by the
    executable specification [spec_float] with [prec = 53], [emax = 1024]. *)

From Stdlib Require Import List String Ascii Bool ZArith QArith Lia.
From Stdlib Require Import Permutation Sorted SpecFloat.
From Stdlib Require Floats Uint63.
Import ListNotations.

Set Warnings "-register-all".

Open Scope string_scope.
Open Scope Z_scope.

(** ** The fragment of the JavaScript string library used by the analyzers *)

Module JS.

Definition code (c : ascii) : Z := Z.of_N (N_of_ascii c).

Definition isUpperAZ (c : ascii) : bool := (65 <=? code c) && (code c <=? 90).
Definition isLowerAZ (c : ascii) : bool := (97 <=? code c) && (code c <=? 122).

Definition lowerChar (c : ascii) : ascii :=
  if isUpperAZ c then ascii_of_N (Z.to_N (code c + 32)) else c.
Definition upperChar (c : ascii) : ascii :=
  if isLowerAZ c then ascii_of_N (Z.to_N (code c - 32)) else c.

Fixpoint mapString (f : ascii -> ascii) (s : string) : string :=
  match s with
  | EmptyString => EmptyString
  | String c r => String (f c) (mapString f r)
  end.

(** [String.prototype.toLowerCase] and [toUpperCase]. *)
Definition toLowerCase : string -> string := mapString lowerChar.
Definition toUpperCase : string -> string := mapString upperChar.

(** [s.startsWith(p)]. *)
Fixpoint startsWith (s p : string) {struct p} : bool :=
  match p with
  | EmptyString => true
  | String c p' =>
      match s with
      | EmptyString => false
      | String d s' => Ascii.eqb d c && startsWith s' p'
      end
  end.

(** [s.includes(p)]: [p] occurs at some position of [s]. *)
Fixpoint includes (s p : string) : bool :=
  startsWith s p ||
  match s with
  | EmptyString => false
  | String _ s' => includes s' p
  end.

(** [s.endsWith(p)]. *)
Definition endsWith (s p : string) : bool :=
  let n := String.length s in
  let k := String.length p in
  (k <=? n)%nat && String.eqb (substring (n - k) k s) p.

(** [s.slice(a, b)] and [s.substring(a, b)] for [0 <= a <= b]. *)
Definition slice (s : string) (a b : nat) : string := substring a (b - a) s.

(** The truthiness of a string: only the empty string is falsy. *)
Definition truthy (s : string) : bool :=
  match s with EmptyString => false | _ => true end.

(** *** Scanning *)

(** The class [\s] (also [StrWhiteSpaceChar], used by [trim], [parseInt]
    and [parseFloat]) on code units below 256: TAB, LF, VT, FF, CR, SP and
    NBSP. *)
Definition isSpace (c : ascii) : bool :=
  let n := code c in
  ((9 <=? n) && (n <=? 13)) || (n =? 32) || (n =? 160).

(** The class [\d]. *)
Definition isDigit (c : ascii) : bool := (48 <=? code c) && (code c <=? 57).

(** The class [[\d.]]. *)
Definition isDigitOrDot (c : ascii) : bool := isDigit c || (code c =? 46).

Fixpoint takeWhile (p : ascii -> bool) (s : string) : string :=
  match s with
  | EmptyString => EmptyString
  | String c r => if p c then String c (takeWhile p r) else EmptyString
  end.

Fixpoint dropWhile (p : ascii -> bool) (s : string) : string :=
  match s with
  | EmptyString => EmptyString
  | String c r => if p c then dropWhile p r else s
  end.

(** [expect p s] consumes the literal [p] at the start of [s]. *)
Fixpoint expect (p s : string) : option string :=
  match p with
  | EmptyString => Some s
  | String c p' =>
      match s with
      | EmptyString => None
      | String d s' => if Ascii.eqb d c then expect p' s' else None
      end
  end.

(** A greedy, non-empty run of class [p] (the regex [p+] followed by
    something outside [p]): the run and the rest. *)
Definition many1 (p : ascii -> bool) (s : string) : option (string * string) :=
  match takeWhile p s with
  | EmptyString => None
  | run => Some (run, dropWhile p s)
  end.

Fixpoint reverseOnto (s acc : string) : string :=
  match s with
  | EmptyString => acc
  | String c r => reverseOnto r (String c acc)
  end.
Definition reverse (s : string) : string := reverseOnto s EmptyString.

(** [String.prototype.trim]. *)
Definition trimStart (s : string) : string := dropWhile isSpace s.
Definition trimEnd (s : string) : string := reverse (dropWhile isSpace (reverse s)).
Definition trim (s : string) : string := trimEnd (trimStart s).

(** [Array.prototype.join]. *)
Fixpoint join (sep : string) (l : list string) : string :=
  match l with
  | [] => EmptyString
  | [x] => x
  | x :: r => x ++ sep ++ join sep r
  end.

(** *** Numbers *)

(** binary64 *)
Definition prec : Z := 53.
Definition emax : Z := 1024.
Definition number := spec_float.

Definition fadd : number -> number -> number := SFadd prec emax.
Definition fsub : number -> number -> number := SFsub prec emax.
Definition fmul : number -> number -> number := SFmul prec emax.
Definition fdiv : number -> number -> number := SFdiv prec emax.
Definition flt : number -> number -> bool := SFltb.
Definition feq : number -> number -> bool := SFeqb.

(** The Number value of the integer [z]. *)
Definition ofZ (z : Z) : number := binary_normalize prec emax z 0 false.

(** The Number value of the rational [n / d] with sign [neg]
    ([0 <= n], [0 < d]), rounded to nearest, ties to even. *)
Definition ofRatio (neg : bool) (n d : Z) : number :=
  match n with
  | Z0 => S754_zero neg
  | _ =>
      let '(q, e, l) := SFdiv_core_binary prec emax n 0 d 0 in
      binary_round_aux prec emax neg q e l
  end.

(** The Number value of [n * 10^k] with sign [neg], for [0 <= n]. *)
Definition ofDecimal (neg : bool) (n k : Z) : number :=
  if 0 <=? k then ofRatio neg (n * 10 ^ k) 1 else ofRatio neg n (10 ^ (- k)).

(** Integral Numbers, as returned by [parseInt] and [Math.round]:
    [JInt z] is the Number whose value is exactly [z]. *)
Inductive integral := JNaN | JInf (neg : bool) | JInt (z : Z).

Definition toNumber (i : integral) : number :=
  match i with
  | JNaN => S754_nan
  | JInf s => S754_infinity s
  | JInt z => ofZ z
  end.

(** The integral Number nearest to the integer [z] (identity below 2^53). *)
Definition roundZ (z : Z) : integral :=
  match ofZ z with
  | S754_zero _ => JInt 0
  | S754_infinity s => JInf s
  | S754_nan => JNaN
  | S754_finite s m e =>
      let a := if 0 <=? e then Z.pos m * 2 ^ e else Z.pos m / 2 ^ (- e) in
      JInt (if s then - a else a)
  end.

(** [Math.round]: the nearest integer, ties towards plus infinity. *)
Definition Math_round (x : number) : integral :=
  match x with
  | S754_nan => JNaN
  | S754_infinity s => JInf s
  | S754_zero _ => JInt 0
  | S754_finite s m e =>
      let v := if s then Z.neg m else Z.pos m in
      if 0 <=? e then JInt (v * 2 ^ e)
      else JInt ((2 * v + 2 ^ (- e)) / 2 ^ (1 - e))
  end.

(** Digits. *)
Definition digitValue (c : ascii) : option Z :=
  let n := code c in
  if (48 <=? n) && (n <=? 57) then Some (n - 48)
  else if (97 <=? n) && (n <=? 122) then Some (n - 87)
  else if (65 <=? n) && (n <=? 90) then Some (n - 55)
  else None.

Definition isRadixDigit (radix : Z) (c : ascii) : bool :=
  match digitValue c with
  | Some v => v <? radix
  | None => false
  end.

Fixpoint digitsValue (radix : Z) (s : string) (acc : Z) : Z :=
  match s with
  | EmptyString => acc
  | String c r =>
      match digitValue c with
      | Some v => digitsValue radix r (acc * radix + v)
      | None => acc
      end
  end.

(** An optional sign: [true] for a minus. *)
Definition scanSign (s : string) : bool * string :=
  match s with
  | String c r =>
      if Ascii.eqb c "-" then (true, r)
      else if Ascii.eqb c "+" then (false, r)
      else (false, s)
  | EmptyString => (false, s)
  end.

(** [parseInt(s, radix)]; [radix = 0] stands for an absent radix.  Used
    with no radix and with radix 16. *)
Definition parseInt (s : string) (radix : Z) : integral :=
  let '(neg, t) := scanSign (trimStart s) in
  let stripPrefix := (radix =? 0) || (radix =? 16) in
  let R := if radix =? 0 then 10 else radix in
  let '(R, t) :=
    if stripPrefix && (startsWith t "0x" || startsWith t "0X")
    then (16, substring 2 (String.length t - 2) t)
    else (R, t) in
  match takeWhile (isRadixDigit R) t with
  | EmptyString => JNaN
  | ds =>
      match roundZ (digitsValue R ds 0) with
      | JInt z => JInt (if neg then - z else z)
      | JInf _ => JInf neg
      | JNaN => JNaN
      end
  end.

(** [parseFloat(s)]: the longest prefix that is a [StrDecimalLiteral]. *)
Definition scanExponent (s : string) : Z :=
  match s with
  | String c r =>
      if Ascii.eqb c "e" || Ascii.eqb c "E" then
        let '(neg, t) := scanSign r in
        match takeWhile isDigit t with
        | EmptyString => 0
        | ds => let v := digitsValue 10 ds 0 in if neg then - v else v
        end
      else 0
  | EmptyString => 0
  end.

Definition parseFloat (s : string) : number :=
  let '(neg, t) := scanSign (trimStart s) in
  if startsWith t "Infinity" then S754_infinity neg
  else
    let ip := takeWhile isDigit t in
    let t2 := dropWhile isDigit t in
    let '(fp, t3) :=
      match t2 with
      | String c r =>
          if Ascii.eqb c "." then (takeWhile isDigit r, dropWhile isDigit r)
          else (EmptyString, t2)
      | EmptyString => (EmptyString, t2)
      end in
    match ip ++ fp with
    | EmptyString => S754_nan
    | ds =>
        ofDecimal neg (digitsValue 10 ds 0)
                  (scanExponent t3 - Z.of_nat (String.length fp))
    end.

(** Digits of a non-negative integer in a radix (lower case), most
    significant first; [fuel] bounds the number of digits. *)
Definition digitChar (v : Z) : ascii :=
  ascii_of_N (Z.to_N (if v <? 10 then 48 + v else 87 + v)).

Fixpoint digitsOf (fuel : nat) (radix z : Z) (acc : string) : string :=
  match fuel with
  | O => acc
  | S f =>
      let acc' := String (digitChar (z mod radix)) acc in
      if z <? radix then acc' else digitsOf f radix (z / radix) acc'
  end.

Definition natString (radix z : Z) : string :=
  digitsOf (S (Z.to_nat (Z.log2 z))) radix z EmptyString.

(** [x.toString(radix)] for an integral Number. *)
Definition toStringRadix (x : integral) (radix : Z) : string :=
  match x with
  | JNaN => "NaN"
  | JInf true => "-Infinity"
  | JInf false => "Infinity"
  | JInt z => if z <? 0 then "-" ++ natString radix (- z) else natString radix z
  end.

(** [Math.max] and [Math.min] of three Numbers. *)
Definition isNaN (x : number) : bool :=
  match x with S754_nan => true | _ => false end.

Definition max2 (a b : number) : number :=
  if isNaN a || isNaN b then S754_nan else if flt a b then b else a.
Definition min2 (a b : number) : number :=
  if isNaN a || isNaN b then S754_nan else if flt b a then b else a.
Definition Math_max (a b c : number) : number := max2 (max2 a b) c.
Definition Math_min (a b c : number) : number := min2 (min2 a b) c.

(** *** Regular-expression search

    [search f s] is the first position of [s], from the left, at which the
    anchored matcher [f] succeeds, as [String.prototype.match] does for a
    pattern without flags. *)
Fixpoint search {A : Type} (f : string -> option A) (s : string) : option A :=
  match f s with
  | Some r => Some r
  | None =>
      match s with
      | EmptyString => None
      | String _ r => search f r
      end
  end.

Definition optional (p s : string) : string :=
  match expect p s with Some r => r | None => s end.

(** [s.split(sep)] for a one-character separator. *)
Fixpoint splitOn (sep : ascii) (s : string) (cur : string) : list string :=
  match s with
  | EmptyString => [reverse cur]
  | String c r =>
      if Ascii.eqb c sep then reverse cur :: splitOn sep r EmptyString
      else splitOn sep r (String c cur)
  end.
Definition split (s : string) (sep : ascii) : list string := splitOn sep s EmptyString.

(** [s.replace(/[...]/g, '')]: the characters of class [p] removed. *)
Fixpoint removeAll (p : ascii -> bool) (s : string) : string :=
  match s with
  | EmptyString => EmptyString
  | String c r => if p c then removeAll p r else String c (removeAll p r)
  end.

(** The sign of [b - a] for integral Numbers, as a sort comparator sees
    it: a [NaN] difference counts as [0]. *)
Definition compareDiff (b a : integral) : Z :=
  match b, a with
  | JInt x, JInt y => Z.sgn (x - y)
  | JInf sb, JInf sa => if Bool.eqb sb sa then 0 else if sb then -1 else 1
  | JInf sb, JInt _ => if sb then -1 else 1
  | JInt _, JInf sa => if sa then 1 else -1
  | _, _ => 0
  end.

(** [x >= k] for an integral Number and an integer [k]. *)
Definition geZ (x : integral) (k : Z) : bool :=
  match x with
  | JInt z => k <=? z
  | JInf s => negb s
  | JNaN => false
  end.

(** The decimal digits of [n >= 0], at least [width] of them. *)
Fixpoint padLeft (fuel : nat) (s : string) (width : nat) : string :=
  match fuel with
  | O => s
  | S f => if (String.length s <? width)%nat then padLeft f (String "0" s) width else s
  end.

(** [x.toFixed(2)]: for [0 <= x < 10^21] the digits are those of the
    integer [n] for which [n / 100 - x] is closest to zero, the larger one
    on a tie; [scaled2 m e] is that [n] for [x = m * 2^e]. *)
Definition scaled2 (m : positive) (e : Z) : Z :=
  if 0 <=? e then Z.pos m * 2 ^ e * 100
  else (200 * Z.pos m + 2 ^ (- e)) / 2 ^ (1 - e).

(** The digits of [n], at least three, with a point before the last two. *)
Definition insertPoint2 (n : Z) : string :=
  let digits := padLeft 3 (natString 10 n) 3 in
  let k := (String.length digits - 2)%nat in
  substring 0 k digits ++ "." ++ substring k 2 digits.

(** [large] stands for [Number::toString] on a finite [x >= 10^21]. *)
Definition toFixed2 (large : number -> string) (x : number) : string :=
  match x with
  | S754_nan => "NaN"
  | S754_infinity s => if s then "-Infinity" else "Infinity"
  | S754_zero _ => "0.00"
  | S754_finite s m e =>
      let sign := if s then "-" else EmptyString in
      let a := S754_finite false m e in
      if negb (flt a (ofZ (10 ^ 21))) then sign ++ large a
      else sign ++ insertPoint2 (scaled2 m e)
  end.

(** [s] between two double-quote characters. *)
Definition doubleQuote : ascii := ascii_of_N 34.
Definition quoted (s : string) : string :=
  String doubleQuote (s ++ String doubleQuote EmptyString).

End JS.

Notation "'let?' x ':=' e 'in' k" :=
  (match e with Some x => k | None => None end)
  (at level 10, x pattern, e at level 100, k at level 200, only parsing).

(** ** The document, as the analyzers see it *)

Module Dom.

(** The resolved values read through [window.getComputedStyle]. *)
Record computedStyle := {
  backgroundColor : string;
  color : string;
  borderTopColor : string;
  borderTopWidth : string;
  fontFamily : string;
  fontSize : string;
  fontWeight : string;
  lineHeight : string
}.

(** What the analyzers read of an element besides its children. *)
Record elemData := {
  tagName : string;
  style : computedStyle;
  attributes : list (string * string);
  rectWidth : JS.number;    (** [getBoundingClientRect().width] *)
  rectHeight : JS.number
}.

Inductive node :=
| Text (data : string)
| Comment (data : string)
| Elem (e : elemData) (childNodes : list node).

(** [node.textContent]: the text of all descendants, comments left out. *)
Fixpoint textContent (n : node) : string :=
  match n with
  | Text d => d
  | Comment d => d
  | Elem _ ch =>
      (fix go (l : list node) : string :=
         match l with
         | [] => EmptyString
         | Comment _ :: r => go r
         | c :: r => textContent c ++ go r
         end) ch
  end.

(** [n.nodeType === Node.TEXT_NODE] *)
Definition isTextNode (n : node) : bool :=
  match n with Text _ => true | _ => false end.

(** An element: what is read of it, and its child nodes. *)
Definition element : Type := elemData * list node.

Definition asNode (el : element) : node := Elem (fst el) (snd el).
Definition children (el : element) : list node := snd el.

(** A style rule of the CSSOM, with the four declarations that are read. *)
Record ruleStyle := {
  rs_backgroundColor : string;
  rs_color : string;
  rs_borderColor : string;
  rs_borderTopColor : string
}.

Inductive cssRule :=
| CSSStyleRule (selectorText : string) (st : ruleStyle)
| OtherRule.

(** A style sheet: [None] when [cssRules] is [null] or reading it throws
    (a cross-origin sheet). *)
Definition styleSheet := option (list cssRule).

(** The document: its style sheets, [document.body],
    [document.documentElement], and the selector engine of the browser. *)
Record document := {
  styleSheets : list styleSheet;
  body : option element;
  documentElement : option element;
  querySelector : string -> option element;
  querySelectorAll : string -> list element
}.

(** [getComputedStyle(el)] *)
Definition getComputedStyle (el : element) : computedStyle := style (fst el).

Definition tagNameOf (el : element) : string := tagName (fst el).

End Dom.

(** ** ColorAnalyzer *)

Module ColorAnalyzer.

(** The keys of the [colors] object built by [analyze]. *)
Inductive category := primary | accent | background | foreground | border.

Definition category_eqb (a b : category) : bool :=
  match a, b with
  | primary, primary | accent, accent | background, background
  | foreground, foreground | border, border => true
  | _, _ => false
  end.

(** [isValidColor(color)]. *)
Definition isValidColor (color : string) : bool :=
  if negb (JS.truthy color) then false
  else if String.eqb color "transparent" then false
  else if String.eqb color "rgba(0, 0, 0, 0)" then false
  else if String.eqb color "initial" || String.eqb color "inherit" then false
  else true.

(** [categorizeBySelector(selector, type)]. *)
Definition categorizeBySelector (selector type : string) : category :=
  let sel := JS.toLowerCase selector in
  if String.eqb type "background" then
    if JS.includes sel "btn" || JS.includes sel "button" || JS.includes sel "primary"
    then primary
    else background
  else if String.eqb type "text" then
    if JS.includes sel "btn" || JS.includes sel "button" || JS.includes sel "link"
       || JS.includes sel "primary" || JS.includes sel "accent"
    then accent
    else foreground
  else border.


(** *** The weighted maps

    A [Map] keeps its entries in insertion order; [map.set] on a new key
    appends.  The [sources] of an entry are a [Set], also in insertion
    order.  Weights are integers; sums stay exact below 2^53. *)
Record item := { hex : string; weight : Z; sources : list string }.

Definition colorMap := list (string * item).

Fixpoint has (m : colorMap) (k : string) : bool :=
  match m with
  | [] => false
  | (k', _) :: r => String.eqb k' k || has r k
  end.

Definition values (m : colorMap) : list item := map snd m.

(** [set.add(x)] *)
Definition setAdd (l : list string) (x : string) : list string :=
  if existsb (String.eqb x) l then l else (l ++ [x])%list.

(** The in-place update of the entry under [k]. *)
Fixpoint update (m : colorMap) (k : string) (f : item -> item) : colorMap :=
  match m with
  | [] => []
  | (k', v) :: r => if String.eqb k' k then (k', f v) :: r else (k', v) :: update r k f
  end.

(** [addColor(map, hex, source, weight)] *)
Definition addColor (m : colorMap) (hex_ source : string) (weight_ : Z) : colorMap :=
  if negb (JS.truthy hex_) then m
  else if has m hex_ then
    update m hex_ (fun existing =>
      {| hex := hex existing;
         weight := weight existing + weight_;
         sources := setAdd (sources existing) source |})
  else (m ++ [(hex_, {| hex := hex_; weight := weight_; sources := [source] |})])%list.

(** The [colors] object of [analyze]. *)
Record colors := {
  c_background : colorMap;
  c_foreground : colorMap;
  c_primary : colorMap;
  c_accent : colorMap;
  c_border : colorMap
}.

Definition get (c : colors) (k : category) : colorMap :=
  match k with
  | background => c_background c
  | foreground => c_foreground c
  | primary => c_primary c
  | accent => c_accent c
  | border => c_border c
  end.

Definition put (c : colors) (k : category) (m : colorMap) : colors :=
  match k with
  | background => {| c_background := m; c_foreground := c_foreground c;
                     c_primary := c_primary c; c_accent := c_accent c; c_border := c_border c |}
  | foreground => {| c_background := c_background c; c_foreground := m;
                     c_primary := c_primary c; c_accent := c_accent c; c_border := c_border c |}
  | primary => {| c_background := c_background c; c_foreground := c_foreground c;
                  c_primary := m; c_accent := c_accent c; c_border := c_border c |}
  | accent => {| c_background := c_background c; c_foreground := c_foreground c;
                 c_primary := c_primary c; c_accent := m; c_border := c_border c |}
  | border => {| c_background := c_background c; c_foreground := c_foreground c;
                 c_primary := c_primary c; c_accent := c_accent c; c_border := m |}
  end.

(** [this.addColor(colors[k], hex, source, weight)] *)
Definition addTo (c : colors) (k : category) (hex_ source : string) (w : Z) : colors :=
  put c k (addColor (get c k) hex_ source w).

Definition emptyColors : colors :=
  {| c_background := []; c_foreground := []; c_primary := [];
     c_accent := []; c_border := [] |}.

(** *** buildColorPalette *)

(** [Array.prototype.sort(cmp)]: a stable sort; [a] goes before [b] when
    [cmp a b < 0], and elements that compare equal keep their order. *)
Fixpoint insertSorted {A : Type} (cmp : A -> A -> Z) (x : A) (l : list A) : list A :=
  match l with
  | [] => [x]
  | y :: r => if cmp x y <=? 0 then x :: l else y :: insertSorted cmp x r
  end.

Fixpoint sort {A : Type} (cmp : A -> A -> Z) (l : list A) : list A :=
  match l with
  | [] => []
  | x :: r => insertSorted cmp x (sort cmp r)
  end.

(** A record of the palette. *)
Record colorRecord := {
  r_hex : string;
  r_category : string;
  r_weight : Z;
  r_sources : string
}.

(** The category order and the labels. *)
Definition categories : list (category * string) :=
  [ (primary, "Primary"); (accent, "Accent"); (background, "Background");
    (foreground, "Foreground"); (border, "Border") ].

(** The body of [sorted.forEach]: the state is [result] and [seen]. *)
Definition emit (label : string) (st : list colorRecord * list string) (it : item)
  : list colorRecord * list string :=
  let '(result, seen) := st in
  if existsb (String.eqb (hex it)) seen then st
  else ((result ++ [ {| r_hex := hex it;
                        r_category := label;
                        r_weight := weight it;
                        r_sources := JS.join ", " (firstn 3 (sources it)) |} ])%list,
        setAdd seen (hex it)).

(** The body of [categories.forEach]. *)
Definition emitCategory (c : colors) (st : list colorRecord * list string)
           (kl : category * string) : list colorRecord * list string :=
  let '(key, label) := kl in
  let sorted := sort (fun a b => weight b - weight a) (values (get c key)) in
  fold_left (emit label) sorted st.

Definition buildColorPalette (c : colors) : list colorRecord :=
  let '(result, _) := fold_left (emitCategory c) categories ([], []) in
  firstn 20 result.

(** *** isNeutral *)

Definition isNeutral (hex_ : option string) : bool :=
  match hex_ with
  | None => true
  | Some h =>
      if negb (JS.truthy h) then true
      else
        let r := JS.toNumber (JS.parseInt (JS.slice h 1 3) 16) in
        let g := JS.toNumber (JS.parseInt (JS.slice h 3 5) 16) in
        let b := JS.toNumber (JS.parseInt (JS.slice h 5 7) 16) in
        let max := JS.Math_max r g b in
        let min := JS.Math_min r g b in
        let saturation :=
          if JS.feq max (JS.ofZ 0) then JS.ofZ 0
          else JS.fdiv (JS.fsub max min) max in
        JS.flt saturation (JS.ofDecimal false 1 (-1))
  end.

(** *** toHex *)

(** [hslToRgb(h, s, l)] *)
Definition hue2rgb (p q t : JS.number) : JS.number :=
  let one := JS.ofZ 1 in
  let t := if JS.flt t (JS.ofZ 0) then JS.fadd t one else t in
  let t := if JS.flt one t then JS.fsub t one else t in
  if JS.flt t (JS.fdiv one (JS.ofZ 6)) then
    JS.fadd p (JS.fmul (JS.fmul (JS.fsub q p) (JS.ofZ 6)) t)
  else if JS.flt t (JS.fdiv one (JS.ofZ 2)) then q
  else if JS.flt t (JS.fdiv (JS.ofZ 2) (JS.ofZ 3)) then
    JS.fadd p (JS.fmul (JS.fmul (JS.fsub q p)
                                (JS.fsub (JS.fdiv (JS.ofZ 2) (JS.ofZ 3)) t))
                       (JS.ofZ 6))
  else p.

Definition hslToRgb (h s l : JS.number) : list JS.number :=
  let one := JS.ofZ 1 in
  let third := JS.fdiv one (JS.ofZ 3) in
  let '(r, g, b) :=
    if JS.feq s (JS.ofZ 0) then (l, l, l)
    else
      let q := if JS.flt l (JS.ofDecimal false 5 (-1))
               then JS.fmul l (JS.fadd one s)
               else JS.fsub (JS.fadd l s) (JS.fmul l s) in
      let p := JS.fsub (JS.fmul (JS.ofZ 2) l) q in
      (hue2rgb p q (JS.fadd h third), hue2rgb p q h, hue2rgb p q (JS.fsub h third)) in
  [ JS.fmul r (JS.ofZ 255); JS.fmul g (JS.ofZ 255); JS.fmul b (JS.ofZ 255) ].

(** The pattern [rgba?\s*\(\s*(\d+)\s*,\s*(\d+)\s*,\s*(\d+)] at
    the start of [s].  Every repetition is followed by a character outside
    its class, and [a?] by one that is not [a], so the greedy choice is the
    only one that can succeed. *)
Definition rgbMatchHere (s : string) : option (string * string * string) :=
  let? s := JS.expect "rgb" s in
  let s := JS.optional "a" s in
  let? s := JS.expect "(" (JS.dropWhile JS.isSpace s) in
  let? (m1, s) := JS.many1 JS.isDigit (JS.dropWhile JS.isSpace s) in
  let? s := JS.expect "," (JS.dropWhile JS.isSpace s) in
  let? (m2, s) := JS.many1 JS.isDigit (JS.dropWhile JS.isSpace s) in
  let? s := JS.expect "," (JS.dropWhile JS.isSpace s) in
  let? (m3, _) := JS.many1 JS.isDigit (JS.dropWhile JS.isSpace s) in
  Some (m1, m2, m3).

(** The pattern
    [hsla?\s*\(\s*([\d.]+)\s*,\s*([\d.]+)%\s*,\s*([\d.]+)%]
    at the start of [s]. *)
Definition hslMatchHere (s : string) : option (string * string * string) :=
  let? s := JS.expect "hsl" s in
  let s := JS.optional "a" s in
  let? s := JS.expect "(" (JS.dropWhile JS.isSpace s) in
  let? (m1, s) := JS.many1 JS.isDigitOrDot (JS.dropWhile JS.isSpace s) in
  let? s := JS.expect "," (JS.dropWhile JS.isSpace s) in
  let? (m2, s) := JS.many1 JS.isDigitOrDot (JS.dropWhile JS.isSpace s) in
  let? s := JS.expect "%" s in
  let? s := JS.expect "," (JS.dropWhile JS.isSpace s) in
  let? (m3, s) := JS.many1 JS.isDigitOrDot (JS.dropWhile JS.isSpace s) in
  let? _ := JS.expect "%" s in
  Some (m1, m2, m3).

(** [x => { const hex = x.toString(16); return hex.length === 1 ? '0' + hex : hex; }] *)
Definition hexPair (x : JS.integral) : string :=
  let h := JS.toStringRadix x 16 in
  if (String.length h =? 1)%nat then "0" ++ h else h.

Definition rgbBranch (color_ : string) : option string :=
  if JS.startsWith color_ "rgb" then
    let? (m1, m2, m3) := JS.search rgbMatchHere color_ in
    let r := JS.parseInt m1 0 in
    let g := JS.parseInt m2 0 in
    let b := JS.parseInt m3 0 in
    Some ("#" ++ JS.toUpperCase (JS.join "" (map hexPair [r; g; b])))
  else None.

Definition hslBranch (color_ : string) : option string :=
  if JS.startsWith color_ "hsl" then
    let? (m1, m2, m3) := JS.search hslMatchHere color_ in
    let h := JS.fdiv (JS.parseFloat m1) (JS.ofZ 360) in
    let s := JS.fdiv (JS.parseFloat m2) (JS.ofZ 100) in
    let l := JS.fdiv (JS.parseFloat m3) (JS.ofZ 100) in
    let rgb := hslToRgb h s l in
    Some ("#" ++ JS.toUpperCase
                   (JS.join "" (map (fun x => hexPair (JS.Math_round x)) rgb)))
  else None.

Definition charAt (s : string) (i : nat) : string := substring i 1 s.

Definition hexBranch (color_ : string) : string :=
  let h := JS.toUpperCase color_ in
  let h := if (String.length h =? 4)%nat
           then "#" ++ charAt h 1 ++ charAt h 1 ++ charAt h 2 ++ charAt h 2
                    ++ charAt h 3 ++ charAt h 3
           else h in
  if (String.length h =? 9)%nat then substring 0 7 h else h.

Section Canvas.

(** The value read back from [ctx.fillStyle] after [ctx.fillStyle = color]
    on a fresh 2d context; [None] when the [try] block throws. *)
Variable canvasFillStyle : string -> option string.

(** The number of nested calls of [toHex] the stack allows: the call
    that exceeds it throws inside the [try] block of its caller, which
    then returns [null]. *)
Variable maxStack : nat.

Fixpoint toHexAt (depth : nat) (color_ : string) : option string :=
  if negb (JS.truthy color_) then None
  else
    match rgbBranch color_ with
    | Some h => Some h
    | None =>
    match hslBranch color_ with
    | Some h => Some h
    | None =>
    if JS.startsWith color_ "#" then Some (hexBranch color_)
    else
      match canvasFillStyle color_ with
      | Some computed =>
          if JS.startsWith computed "#" then Some (JS.toUpperCase computed)
          else if JS.startsWith computed "rgb" then
            match depth with
            | S d => toHexAt d computed
            | O => None
            end
          else None
      | None => None
      end
    end
    end.

Definition toHex (color_ : string) : option string := toHexAt maxStack color_.

(** The truthiness of a value that is a string or [null]. *)
Definition truthyOpt (h : option string) : bool :=
  match h with Some s => JS.truthy s | None => false end.

Definition orEmpty (h : option string) : string :=
  match h with Some s => s | None => EmptyString end.

(** *** analyzeStyleSheets *)

Definition analyzeRule (c : colors) (rule : Dom.cssRule) : colors :=
  match rule with
  | Dom.OtherRule => c
  | Dom.CSSStyleRule selector st =>
      let bgColor := Dom.rs_backgroundColor st in
      let c :=
        if JS.truthy bgColor && isValidColor bgColor then
          let h := toHex bgColor in
          if truthyOpt h
          then addTo c (categorizeBySelector selector "background") (orEmpty h) selector 1
          else c
        else c in
      let textColor := Dom.rs_color st in
      let c :=
        if JS.truthy textColor && isValidColor textColor then
          let h := toHex textColor in
          if truthyOpt h
          then addTo c (categorizeBySelector selector "text") (orEmpty h) selector 1
          else c
        else c in
      let borderColor :=
        if JS.truthy (Dom.rs_borderColor st) then Dom.rs_borderColor st
        else Dom.rs_borderTopColor st in
      if JS.truthy borderColor && isValidColor borderColor then
        let h := toHex borderColor in
        if truthyOpt h then addTo c border (orEmpty h) selector 1 else c
      else c
  end.

Definition analyzeSheet (c : colors) (sheet : Dom.styleSheet) : colors :=
  match sheet with
  | None => c
  | Some rules => fold_left analyzeRule rules c
  end.

Definition analyzeStyleSheets (doc : Dom.document) (c : colors) : colors :=
  fold_left analyzeSheet (Dom.styleSheets doc) c.

(** *** analyzeKeyElements *)

Definition keyBody (doc : Dom.document) (c : colors) : colors :=
  match Dom.body doc with
  | None => c
  | Some body =>
      let bodyStyles := Dom.getComputedStyle body in
      let bgHex := toHex (Dom.backgroundColor bodyStyles) in
      let textHex := toHex (Dom.color bodyStyles) in
      let c :=
        if truthyOpt bgHex && negb (String.eqb (orEmpty bgHex) "#FFFFFF")
           && negb (String.eqb (orEmpty bgHex) "#000000")
        then addTo c background (orEmpty bgHex) "body" 1000
        else if truthyOpt bgHex then addTo c background (orEmpty bgHex) "body" 500
        else c in
      if truthyOpt textHex then addTo c foreground (orEmpty textHex) "body" 1000 else c
  end.

Definition keyHtml (doc : Dom.document) (c : colors) : colors :=
  match Dom.documentElement doc with
  | None => c
  | Some html =>
      let htmlStyles := Dom.getComputedStyle html in
      let bgHex := toHex (Dom.backgroundColor htmlStyles) in
      if truthyOpt bgHex && isValidColor (Dom.backgroundColor htmlStyles)
      then addTo c background (orEmpty bgHex) "html" 800
      else c
  end.

Definition buttonSelector : string :=
  "button, [type=" ++ JS.quoted "submit" ++ "], [type=" ++ JS.quoted "button"
  ++ "], .btn, .button, [class*=" ++ JS.quoted "btn-" ++ "], [class*="
  ++ JS.quoted "button-" ++ "]".

Definition keyButton (c : colors) (btn : Dom.element) : colors :=
  let styles := Dom.getComputedStyle btn in
  let bgHex := toHex (Dom.backgroundColor styles) in
  let textHex := toHex (Dom.color styles) in
  let c :=
    if truthyOpt bgHex && isValidColor (Dom.backgroundColor styles)
       && negb (isNeutral bgHex)
    then addTo c primary (orEmpty bgHex) "button" 100
    else c in
  if truthyOpt textHex && negb (isNeutral textHex)
  then addTo c accent (orEmpty textHex) "button-text" 50
  else c.

Definition keyLink (linkColors : list string) (link : Dom.element) : list string :=
  let styles := Dom.getComputedStyle link in
  let h := toHex (Dom.color styles) in
  if truthyOpt h && negb (isNeutral h) then setAdd linkColors (orEmpty h)
  else linkColors.

Definition keyHeading (c : colors) (h : Dom.element) : colors :=
  let styles := Dom.getComputedStyle h in
  let hx := toHex (Dom.color styles) in
  if truthyOpt hx
  then addTo c foreground (orEmpty hx) (JS.toLowerCase (Dom.tagNameOf h)) 60
  else c.

Definition containerSelector : string :=
  "main, article, section, .container, .wrapper, .content, [class*="
  ++ JS.quoted "card" ++ "], [class*=" ++ JS.quoted "modal"
  ++ "], header, footer, nav".

Definition keyContainer (c : colors) (el : Dom.element) : colors :=
  let styles := Dom.getComputedStyle el in
  let bgHex := toHex (Dom.backgroundColor styles) in
  let c :=
    if truthyOpt bgHex && isValidColor (Dom.backgroundColor styles)
    then addTo c background (orEmpty bgHex) (JS.toLowerCase (Dom.tagNameOf el)) 40
    else c in
  let borderHex := toHex (Dom.borderTopColor styles) in
  if truthyOpt borderHex && isValidColor (Dom.borderTopColor styles)
     && JS.flt (JS.ofZ 0) (JS.parseFloat (Dom.borderTopWidth styles))
  then addTo c border (orEmpty borderHex) "container-border" 30
  else c.

Definition keyInput (c : colors) (input : Dom.element) : colors :=
  let styles := Dom.getComputedStyle input in
  let borderHex := toHex (Dom.borderTopColor styles) in
  if truthyOpt borderHex && isValidColor (Dom.borderTopColor styles)
  then addTo c border (orEmpty borderHex) "input" 20
  else c.

Definition analyzeKeyElements (doc : Dom.document) (c : colors) : colors :=
  let c := keyBody doc c in
  let c := keyHtml doc c in
  let c := fold_left keyButton (Dom.querySelectorAll doc buttonSelector) c in
  let linkColors := fold_left keyLink (Dom.querySelectorAll doc "a[href]") [] in
  let c := fold_left (fun c h => addTo c accent h "link" 80) linkColors c in
  let c := fold_left keyHeading (Dom.querySelectorAll doc "h1, h2, h3, h4, h5, h6") c in
  let c := fold_left keyContainer (Dom.querySelectorAll doc containerSelector) c in
  fold_left keyInput (Dom.querySelectorAll doc "input, textarea, select") c.

(** *** analyze *)

Definition analyze (doc : Dom.document) : list colorRecord :=
  buildColorPalette (analyzeKeyElements doc (analyzeStyleSheets doc emptyColors)).

End Canvas.

End ColorAnalyzer.

(** ** TypographyAnalyzer *)

Module TypographyAnalyzer.

Definition isQuote (c : ascii) : bool := (JS.code c =? 34) || (JS.code c =? 39).

Definition systemFonts : list string :=
  [ "system-ui"; "-apple-system"; "BlinkMacSystemFont"; "Segoe UI";
    "sans-serif"; "serif"; "monospace" ].

(** [cleanFontFamily(fontFamily)] *)
Definition cleanFontFamily (fontFamily : string) : option string :=
  if negb (JS.truthy fontFamily) then None
  else
    let fonts := JS.split fontFamily "," in
    let primaryFont := JS.removeAll isQuote (JS.trim (nth 0 fonts EmptyString)) in
    if existsb (String.eqb primaryFont) systemFonts && (1 <? List.length fonts)%nat
    then Some (JS.removeAll isQuote (JS.trim (nth 1 fonts EmptyString)))
    else Some primaryFont.

(** [hasTextContent(element)] *)
Definition hasTextContent (element : Dom.element) : bool :=
  JS.truthy (Dom.textContent (Dom.asNode element))
  && (0 <? String.length (JS.trim (Dom.textContent (Dom.asNode element))))%nat.

(** [hasDirectTextContent(element)] *)
Definition hasDirectTextContent (element : Dom.element) : bool :=
  existsb (fun n => Dom.isTextNode n
                    && (0 <? String.length (JS.trim (Dom.textContent n)))%nat)
          (Dom.children element).

(** *** analyzeFontFamilies

    [fontMap] is a [Map] from family to count, in insertion order; counts
    are integers and stay exact below 2^53. *)
Definition fontMap := list (string * Z).

Fixpoint bump (m : fontMap) (k : string) : fontMap :=
  match m with
  | [] => [(k, 1)]
  | (k', n) :: r => if String.eqb k' k then (k', n + 1) :: r else (k', n) :: bump r k
  end.

(** The body of [elements.forEach]: the state is [fontMap] and
    [totalElements]. *)
Definition countElement (st : fontMap * Z) (element : Dom.element) : fontMap * Z :=
  let '(m, totalElements) := st in
  if negb (hasTextContent element) then st
  else
    match cleanFontFamily (Dom.fontFamily (Dom.getComputedStyle element)) with
    | Some fontFamily =>
        if JS.truthy fontFamily then (bump m fontFamily, totalElements + 1) else st
    | None => st
    end.

Record fontUsage := { name : string; usage : JS.integral }.

(** [Math.round((count / totalElements) * 100)] *)
Definition usageOf (count totalElements : Z) : JS.integral :=
  JS.Math_round (JS.fmul (JS.fdiv (JS.ofZ count) (JS.ofZ totalElements)) (JS.ofZ 100)).

Definition analyzeFontFamilies (doc : Dom.document) : list fontUsage :=
  let elements := Dom.querySelectorAll doc "*" in
  let '(m, totalElements) := fold_left countElement elements ([], 0) in
  let fonts := map (fun '(name_, count) =>
                      {| name := name_; usage := usageOf count totalElements |}) m in
  let fonts := filter (fun font => JS.geZ (usage font) 1) fonts in
  let fonts := ColorAnalyzer.sort (fun a b => JS.compareDiff (usage b) (usage a)) fonts in
  firstn 10 fonts.

(** *** normalizeLineHeight *)

Section Numbers.

(** [Number::toString] on a finite Number at least 10^21. *)
Variable numberToString : JS.number -> string.

Definition normalizeLineHeight (lineHeight fontSize : string) : string :=
  if String.eqb lineHeight "normal" then "1.2"
  else
    if JS.endsWith lineHeight "px" then
      let lhPx := JS.parseFloat lineHeight in
      let fsPx := JS.parseFloat fontSize in
      if JS.flt (JS.ofZ 0) fsPx
      then JS.toFixed2 numberToString (JS.fdiv lhPx fsPx)
      else lineHeight
    else lineHeight.

(** *** toHex of the typography module *)

(** The pattern [rgba?\((\d+),\s*(\d+),\s*(\d+)] at the start of [s]. *)
Definition rgbMatchHere (s : string) : option (string * string * string) :=
  let? s := JS.expect "rgb" s in
  let s := JS.optional "a" s in
  let? s := JS.expect "(" s in
  let? (m1, s) := JS.many1 JS.isDigit s in
  let? s := JS.expect "," s in
  let? (m2, s) := JS.many1 JS.isDigit (JS.dropWhile JS.isSpace s) in
  let? s := JS.expect "," s in
  let? (m3, _) := JS.many1 JS.isDigit (JS.dropWhile JS.isSpace s) in
  Some (m1, m2, m3).

Definition toHex (color_ : string) : string :=
  let rgb :=
    if JS.startsWith color_ "rgb" then
      let? (m1, m2, m3) := JS.search rgbMatchHere color_ in
      Some ("#" ++ JS.toUpperCase
                     (JS.join "" (map (fun m => ColorAnalyzer.hexPair (JS.parseInt m 0))
                                      [m1; m2; m3])))
    else None in
  match rgb with
  | Some h => h
  | None => if JS.startsWith color_ "#" then JS.toUpperCase color_ else color_
  end.

(** *** analyzeBodyText *)

Definition selectors : list string := [ "p"; "body"; ".content"; "main"; "article" ].

(** The [for] loop over the selectors; [element] is the variable of
    that name, which every iteration assigns before the test. *)
Fixpoint probe (doc : Dom.document) (sels : list string) (element : option Dom.element)
  : option Dom.element :=
  match sels with
  | [] => element
  | selector :: rest =>
      let element := Dom.querySelector doc selector in
      match element with
      | Some el => if hasDirectTextContent el then element else probe doc rest element
      | None => probe doc rest element
      end
  end.

(** The element whose style is read: [None] when there is none, and
    [getComputedStyle] throws. *)
Definition bodyTextElement (doc : Dom.document) : option Dom.element :=
  match probe doc selectors None with
  | Some el => Some el
  | None => Dom.body doc
  end.

Record bodySnapshot := {
  b_fontFamily : option string;
  b_fontSize : string;
  b_fontWeight : string;
  b_lineHeight : string;
  b_color : string
}.

Definition snapshot (element : Dom.element) : bodySnapshot :=
  let styles := Dom.getComputedStyle element in
  {| b_fontFamily := cleanFontFamily (Dom.fontFamily styles);
     b_fontSize := Dom.fontSize styles;
     b_fontWeight := Dom.fontWeight styles;
     b_lineHeight := normalizeLineHeight (Dom.lineHeight styles) (Dom.fontSize styles);
     b_color := toHex (Dom.color styles) |}.

Definition analyzeBodyText (doc : Dom.document) : option bodySnapshot :=
  option_map snapshot (bodyTextElement doc).

End Numbers.

End TypographyAnalyzer.

(** ** ImageAnalyzer *)

Module ImageAnalyzer.

(** A value that is a Number, a string or [null]. *)
Inductive dimension := DNum (i : JS.integral) | DStr (s : string) | DNull.

Definition getAttribute (e : Dom.elemData) (k : string) : option string :=
  option_map snd (find (fun kv => String.eqb (fst kv) k) (Dom.attributes e)).

Fixpoint setAttr (l : list (string * string)) (k v : string) : list (string * string) :=
  match l with
  | [] => [(k, v)]
  | (k', v') :: r => if String.eqb k' k then (k, v) :: r else (k', v') :: setAttr r k v
  end.

Definition setAttribute (e : Dom.elemData) (k v : string) : Dom.elemData :=
  {| Dom.tagName := Dom.tagName e; Dom.style := Dom.style e;
     Dom.attributes := setAttr (Dom.attributes e) k v;
     Dom.rectWidth := Dom.rectWidth e; Dom.rectHeight := Dom.rectHeight e |}.

(** [Math.round(x) || attr || null] *)
Definition dimensionOf (x : JS.number) (attr : option string) : dimension :=
  match JS.Math_round x with
  | JS.JInt 0 | JS.JNaN =>
      match attr with
      | Some a => if JS.truthy a then DStr a else DNull
      | None => DNull
      end
  | i => DNum i
  end.

(** [if (d) clone.setAttribute(k, d)]; a Number is written in decimal
    (below 10^21). *)
Definition setDimension (e : Dom.elemData) (k : string) (d : dimension) : Dom.elemData :=
  match d with
  | DNum i => setAttribute e k (JS.toStringRadix i 10)
  | DStr a => setAttribute e k a
  | DNull => e
  end.

Record svgInfo := { width : dimension; height : dimension; content : string }.

Section Serializer.

(** [new XMLSerializer().serializeToString(node)] *)
Variable serializeToString : Dom.node -> string.

(** [getSvgInfo(svg, false)] for an element [svg]; the result is never
    [null]. *)
Definition getSvgInfo (svg : Dom.element) : svgInfo :=
  let w := dimensionOf (Dom.rectWidth (fst svg)) (getAttribute (fst svg) "width") in
  let h := dimensionOf (Dom.rectHeight (fst svg)) (getAttribute (fst svg) "height") in
  let clone := fst svg in
  let clone :=
    match getAttribute clone "xmlns" with
    | Some v => if JS.truthy v then clone
                else setAttribute clone "xmlns" "http://www.w3.org/2000/svg"
    | None => setAttribute clone "xmlns" "http://www.w3.org/2000/svg"
    end in
  let clone := setDimension clone "width" w in
  let clone := setDimension clone "height" h in
  {| width := w; height := h;
     content := serializeToString (Dom.Elem clone (snd svg)) |}.

(** The body of [svgElements.forEach]. *)
Definition visitSvg (svgs : list svgInfo) (svg : Dom.element) : list svgInfo :=
  let rectW := Dom.rectWidth (fst svg) in
  let rectH := Dom.rectHeight (fst svg) in
  if JS.flt rectW (JS.ofZ 5) && JS.flt rectH (JS.ofZ 5) then svgs
  else (svgs ++ [getSvgInfo svg])%list.

Definition getInlineSvgs (doc : Dom.document) : list svgInfo :=
  fold_left visitSvg (Dom.querySelectorAll doc "svg") [].

End Serializer.

End ImageAnalyzer.

(** ** Notions used to state the properties *)

Module Spec.

(** [tok] occurs in [sel] up to the case of the ASCII letters. *)
Definition occursCI (tok sel : string) : Prop :=
  exists pre mid post, sel = pre ++ mid ++ post /\ JS.toLowerCase mid = tok.

Definition anyOccursCI (toks : list string) (sel : string) : Prop :=
  exists tok, In tok toks /\ occursCI tok sel.

(** The strings [isValidColor] rejects. *)
Definition rejected : list string :=
  [ ""; "transparent"; "rgba(0, 0, 0, 0)"; "initial"; "inherit" ].

(** A box side of at least 5 px. *)
Definition atLeast5 (x : JS.number) : bool := negb (JS.flt x (JS.ofZ 5)).

(** A selector is accepted by [analyzeBodyText] when it finds an element
    with a text child. *)
Definition accepts (doc : Dom.document) (sel : string) : bool :=
  match Dom.querySelector doc sel with
  | Some el => TypographyAnalyzer.hasDirectTextContent el
  | None => false
  end.

(** [s] ends with [suffix]. *)
Definition endsIn (s suffix : string) : Prop := exists pre, s = pre ++ suffix.

(** [n] is the integer nearest to [100 * m * 2^e], the larger one on a tie. *)
Definition nearestHundredths (m : positive) (e n : Z) : Prop :=
  if 0 <=? e then n = 100 * (Z.pos m * 2 ^ e)
  else 2 ^ (- e) * (2 * n - 1) <= 200 * Z.pos m < 2 ^ (- e) * (2 * n + 1).

(** [n] is the integer nearest to the Number [x], the larger one on a
    tie: [n - 1/2 <= x < n + 1/2]; an infinity and [NaN] are kept. *)
Definition nearestInteger (x : JS.number) (n : JS.integral) : Prop :=
  match x with
  | S754_nan => n = JS.JNaN
  | S754_infinity s => n = JS.JInf s
  | S754_zero _ => n = JS.JInt 0
  | S754_finite s m e =>
      exists z,
        n = JS.JInt z
        /\ let v := if s then Z.neg m else Z.pos m in
           if 0 <=? e then z = v * 2 ^ e
           else 2 ^ (- e) * (2 * z - 1) <= 2 * v < 2 ^ (- e) * (2 * z + 1)
  end.

(** The family [analyzeFontFamilies] counts for an element: none when the
    element has no text or no usable family. *)
Definition familyOf (el : Dom.element) : option string :=
  if TypographyAnalyzer.hasTextContent el then
    match TypographyAnalyzer.cleanFontFamily (Dom.fontFamily (Dom.getComputedStyle el)) with
    | Some f => if JS.truthy f then Some f else None
    | None => None
    end
  else None.

(** The families of the qualifying elements, one per element. *)
Fixpoint familiesOf (els : list Dom.element) : list string :=
  match els with
  | [] => []
  | el :: r =>
      match familyOf el with
      | Some f => f :: familiesOf r
      | None => familiesOf r
      end
  end.

Definition occurrences (name : string) (l : list string) : Z :=
  Z.of_nat (count_occ string_dec l name).

(** The order of the integral Numbers; [NaN] is not comparable. *)
Definition integralLe (x y : JS.integral) : Prop :=
  match x, y with
  | JS.JInt a, JS.JInt b => a <= b
  | JS.JInt _, JS.JInf neg => neg = false
  | JS.JInf neg, JS.JInt _ => neg = true
  | JS.JInf a, JS.JInf b => a = true \/ b = false
  | _, _ => False
  end.

(** The count held by a font map for a family, 0 when it has none. *)
Fixpoint countIn (m : TypographyAnalyzer.fontMap) (k : string) : Z :=
  match m with
  | [] => 0
  | (k', n) :: r => if String.eqb k' k then n else countIn r k
  end.

(** Every character of [s] is in the class [p]. *)
Fixpoint allOf (p : ascii -> bool) (s : string) : bool :=
  match s with
  | EmptyString => true
  | String c r => p c && allOf p r
  end.

(** [s] is empty or starts with a character outside the class [p]. *)
Definition startsOutside (p : ascii -> bool) (s : string) : bool :=
  match s with
  | EmptyString => true
  | String c _ => negb (p c)
  end.

(** A non-empty run of decimal digits, and its value. *)
Definition digits (d : string) : bool := JS.truthy d && allOf JS.isDigit d.

Fixpoint decimalFrom (acc : Z) (d : string) : Z :=
  match d with
  | EmptyString => acc
  | String c r => decimalFrom (acc * 10 + (JS.code c - 48)) r
  end.
Definition decimal (d : string) : Z := decimalFrom 0 d.

(** The strings [rgb(d1, d2, d3 ...] and [rgba(d1, d2, d3 ...]: white space
    is allowed around the parenthesis, the channels and the commas, and
    what follows the third channel is not read. *)
Definition rgbForm (s d1 d2 d3 : string) : Prop :=
  exists a w1 w2 w3 w4 w5 w6 rest,
    s = "rgb" ++ a ++ w1 ++ "(" ++ w2 ++ d1 ++ w3 ++ "," ++ w4 ++ d2 ++ w5 ++ ","
              ++ w6 ++ d3 ++ rest
    /\ (a = EmptyString \/ a = "a")
    /\ allOf JS.isSpace w1 = true /\ allOf JS.isSpace w2 = true
    /\ allOf JS.isSpace w3 = true /\ allOf JS.isSpace w4 = true
    /\ allOf JS.isSpace w5 = true /\ allOf JS.isSpace w6 = true
    /\ digits d1 = true /\ digits d2 = true /\ digits d3 = true
    /\ startsOutside JS.isDigit rest = true.





(** Hex digits. *)
Definition isUpperHexDigit (c : ascii) : bool :=
  JS.isDigit c || ((65 <=? JS.code c) && (JS.code c <=? 70)).

(** The form [#RRGGBB] with upper-case digits. *)
Definition isHexColor (s : string) : bool :=
  match s with
  | String h r => Ascii.eqb h "#" && (String.length r =? 6)%nat && allOf isUpperHexDigit r
  | EmptyString => false
  end.

(** The two upper-case hex digits of a channel value. *)
Definition upperHexDigit (v : Z) : ascii :=
  ascii_of_N (Z.to_N (if v <? 10 then 48 + v else 55 + v)).
Definition hexByte (v : Z) : string :=
  String (upperHexDigit (v / 16)) (String (upperHexDigit (v mod 16)) EmptyString).



(** The 256 characters and the channel values 0..255. *)
Definition allAscii : list ascii := map ascii_of_nat (seq 0 256).
Definition allBytes : list Z := map Z.of_nat (seq 0 256).

(** The priority of a category label: 0 for the highest. *)
Definition labelRank (label : string) : nat :=
  if String.eqb label "Primary" then 0
  else if String.eqb label "Accent" then 1
  else if String.eqb label "Background" then 2
  else if String.eqb label "Foreground" then 3
  else if String.eqb label "Border" then 4
  else 5.

Definition label (k : ColorAnalyzer.category) : string :=
  match k with
  | ColorAnalyzer.primary => "Primary"
  | ColorAnalyzer.accent => "Accent"
  | ColorAnalyzer.background => "Background"
  | ColorAnalyzer.foreground => "Foreground"
  | ColorAnalyzer.border => "Border"
  end.

(** The hex values held by the map of category [k]. *)
Definition hexesOf (c : ColorAnalyzer.colors) (k : ColorAnalyzer.category) : list string :=
  map ColorAnalyzer.hex (ColorAnalyzer.values (ColorAnalyzer.get c k)).

(** The order of the palette: a higher-priority category first, and within
    a category the heavier record first. *)
Definition paletteOrder (a b : ColorAnalyzer.colorRecord) : Prop :=
  (labelRank (ColorAnalyzer.r_category a) < labelRank (ColorAnalyzer.r_category b))%nat
  \/ (ColorAnalyzer.r_category a = ColorAnalyzer.r_category b
      /\ ColorAnalyzer.r_weight b <= ColorAnalyzer.r_weight a).

(** The record pushed for an item under a label. *)
Definition recordOf (lbl : string) (it : ColorAnalyzer.item) : ColorAnalyzer.colorRecord :=
  {| ColorAnalyzer.r_hex := ColorAnalyzer.hex it;
     ColorAnalyzer.r_category := lbl;
     ColorAnalyzer.r_weight := ColorAnalyzer.weight it;
     ColorAnalyzer.r_sources := JS.join ", " (firstn 3 (ColorAnalyzer.sources it)) |}.

(** A record comes from an item of the map of the category it is tagged
    with. *)
Definition fromMap (c : ColorAnalyzer.colors) (r : ColorAnalyzer.colorRecord) : Prop :=
  exists k it,
    ColorAnalyzer.r_category r = label k
    /\ In it (ColorAnalyzer.values (ColorAnalyzer.get c k))
    /\ r = recordOf (label k) it.

(** The candidates in the order the loops visit them, before the [seen]
    test. *)
Definition segment (c : ColorAnalyzer.colors) (kl : ColorAnalyzer.category * string)
  : list ColorAnalyzer.colorRecord :=
  map (recordOf (snd kl))
      (ColorAnalyzer.sort (fun a b => ColorAnalyzer.weight b - ColorAnalyzer.weight a)
                          (ColorAnalyzer.values (ColorAnalyzer.get c (fst kl)))).

Definition candidates (c : ColorAnalyzer.colors) : list ColorAnalyzer.colorRecord :=
  flat_map (segment c) ColorAnalyzer.categories.

(** A map whose keys are the hex values of its items. *)
Definition keyed (m : ColorAnalyzer.colorMap) : Prop :=
  Forall (fun kv => fst kv = ColorAnalyzer.hex (snd kv)) m.

Definition keyedAll (c : ColorAnalyzer.colors) : Prop :=
  forall k, keyed (ColorAnalyzer.get c k).

(** The maps [analyze] hands to [buildColorPalette]. *)
Definition collected (canvasFillStyle : string -> option string) (maxStack : nat)
           (doc : Dom.document) : ColorAnalyzer.colors :=
  ColorAnalyzer.analyzeKeyElements canvasFillStyle maxStack doc
    (ColorAnalyzer.analyzeStyleSheets canvasFillStyle maxStack doc ColorAnalyzer.emptyColors).

(** The [seen] test over a list of candidates: what is kept, and the final
    [seen]. *)
Fixpoint dedup (seen : list string) (l : list ColorAnalyzer.colorRecord)
  : list ColorAnalyzer.colorRecord * list string :=
  match l with
  | [] => ([], seen)
  | r :: t =>
      if existsb (String.eqb (ColorAnalyzer.r_hex r)) seen then dedup seen t
      else
        let '(o, s) := dedup (ColorAnalyzer.setAdd seen (ColorAnalyzer.r_hex r)) t in
        (r :: o, s)
  end.

End Spec.

(** ** Documents used as concrete inputs *)

Module Fixture.

(** A context without a canvas: the [try] block of [toHex] throws. *)
Definition noCanvas (_ : string) : option string := None.

Definition styled (ff col : string) : Dom.computedStyle :=
  {| Dom.backgroundColor := "rgba(0, 0, 0, 0)"; Dom.color := col;
     Dom.borderTopColor := col; Dom.borderTopWidth := "0px";
     Dom.fontFamily := ff; Dom.fontSize := "16px";
     Dom.fontWeight := "400"; Dom.lineHeight := "normal" |}.

Definition elem (tag : string) (st : Dom.computedStyle) (w h : Z)
           (ch : list Dom.node) : Dom.element :=
  ({| Dom.tagName := tag; Dom.style := st; Dom.attributes := [];
      Dom.rectWidth := JS.ofZ w; Dom.rectHeight := JS.ofZ h |}, ch).

(** A selector engine given by a table. *)
Fixpoint lookup {A : Type} (t : list (string * A)) (k : string) : option A :=
  match t with
  | [] => None
  | (k', v) :: r => if String.eqb k' k then Some v else lookup r k
  end.

Definition tableDocument (sheets : list Dom.styleSheet) (bodyEl : option Dom.element)
           (one : list (string * Dom.element))
           (all : list (string * list Dom.element)) : Dom.document :=
  {| Dom.styleSheets := sheets; Dom.body := bodyEl; Dom.documentElement := None;
     Dom.querySelector := lookup one;
     Dom.querySelectorAll :=
       fun k => match lookup all k with Some l => l | None => [] end |}.

(** [<body><article><div>Hello</div></article></body>]: no [p], no
    [.content], no [main]; neither [body] nor [article] has a text child. *)
Definition divHello : Dom.element :=
  elem "DIV" (styled "Verdana" "rgb(1, 2, 3)") 100 20 [Dom.Text "Hello"].
Definition articleEl : Dom.element :=
  elem "ARTICLE" (styled "Georgia, serif" "rgb(10, 20, 30)") 100 20
       [Dom.asNode divHello].
Definition bodyEl : Dom.element :=
  elem "BODY" (styled "Arial" "rgb(0, 0, 0)") 100 20 [Dom.asNode articleEl].
Definition articleDocument : Dom.document :=
  tableDocument [] (Some bodyEl) [("body", bodyEl); ("article", articleEl)] [].

(** A page with one inline [svg] of 3 by 100 px. *)
Definition thinSvg : Dom.element := elem "svg" (styled "" "") 3 100 [].
Definition svgDocument : Dom.document :=
  tableDocument [] None [] [("svg", [thinSvg])].

(** A button whose colours are keywords that only a canvas could resolve. *)
Definition ghostButton : Dom.element :=
  ({| Dom.tagName := "BUTTON";
      Dom.style := {| Dom.backgroundColor := "transparent"; Dom.color := "currentcolor";
                      Dom.borderTopColor := "currentcolor"; Dom.borderTopWidth := "0px";
                      Dom.fontFamily := "Arial"; Dom.fontSize := "16px";
                      Dom.fontWeight := "400"; Dom.lineHeight := "normal" |};
      Dom.attributes := [];
      Dom.rectWidth := JS.ofZ 80; Dom.rectHeight := JS.ofZ 24 |}, [Dom.Text "Buy"]).

(** A printer of large Numbers that is not looked at. *)
Definition noLarge (_ : JS.number) : string := EmptyString.

(** A page of three text elements, two in Georgia and one in Arial; the
    [html] and [body] elements around them inherit Georgia. *)
Definition para (ff txt : string) : Dom.element :=
  elem "P" (styled ff "rgb(0, 0, 0)") 100 20 [Dom.Text txt].
Definition fontElements : list Dom.element :=
  [ para "Georgia, serif" "One"; para "Arial" "Two"; para "'Georgia'" "Three";
    elem "BR" (styled "Arial" "rgb(0, 0, 0)") 0 0 [] ].
Definition fontDocument : Dom.document :=
  tableDocument [] None [] [("*", fontElements)].

(** A page with one button,
    [<button class=btn-primary style=background:#3366FF>Buy</button>], white
    on blue, and no other coloured element. *)
Definition buyButton : Dom.element :=
  ({| Dom.tagName := "BUTTON";
      Dom.style := {| Dom.backgroundColor := "rgb(51, 102, 255)";
                      Dom.color := "rgb(255, 255, 255)";
                      Dom.borderTopColor := "rgb(255, 255, 255)";
                      Dom.borderTopWidth := "0px";
                      Dom.fontFamily := "Arial"; Dom.fontSize := "16px";
                      Dom.fontWeight := "400"; Dom.lineHeight := "normal" |};
      Dom.attributes := [("class", "btn-primary")];
      Dom.rectWidth := JS.ofZ 80; Dom.rectHeight := JS.ofZ 24 |}, [Dom.Text "Buy"]).
Definition buyDocument : Dom.document :=
  tableDocument [] None [] [(ColorAnalyzer.buttonSelector, [buyButton])].

(** A serializer that is not looked at. *)
Definition noSerializer (_ : Dom.node) : string := EmptyString.

(** A page whose style sheet gives one blue to a button class and to a
    hero block:
    [.btn-primary { background-color: #3366FF }  .hero { background-color: #3366FF }] *)
Definition declares (bg : string) : Dom.ruleStyle :=
  {| Dom.rs_backgroundColor := bg; Dom.rs_color := EmptyString;
     Dom.rs_borderColor := EmptyString; Dom.rs_borderTopColor := EmptyString |}.
Definition blueSheet : Dom.styleSheet :=
  Some [ Dom.CSSStyleRule ".btn-primary" (declares "#3366FF");
         Dom.CSSStyleRule ".hero" (declares "#3366FF") ].
Definition blueDocument : Dom.document := tableDocument [blueSheet] None [] [].
Definition blueRecord : ColorAnalyzer.colorRecord :=
  {| ColorAnalyzer.r_hex := "#3366FF"; ColorAnalyzer.r_category := "Primary";
     ColorAnalyzer.r_weight := 1; ColorAnalyzer.r_sources := ".btn-primary" |}.

End Fixture.

(** ** The rest of TypographyAnalyzer *)

Module TypographyRest.

(** [text.replace(/\s+/g, ' ')]: every maximal run of white space becomes
    one space; [inRun] tells that the previous character was white space. *)
Fixpoint collapseFrom (inRun : bool) (s : string) : string :=
  match s with
  | EmptyString => EmptyString
  | String c r =>
      if JS.isSpace c then
        if inRun then collapseFrom true r else String " " (collapseFrom true r)
      else String c (collapseFrom false r)
  end.
Definition collapseSpaces (s : string) : string := collapseFrom false s.

(** [getSampleText(element, maxLength)] for an integer [maxLength];
    [substring] takes a negative end for 0. *)
Definition getSampleText (element : Dom.element) (maxLength : Z) : string :=
  let text := Dom.textContent (Dom.asNode element) in
  let text := collapseSpaces (JS.trim text) in
  if maxLength <? Z.of_nat (String.length text)
  then substring 0 (Z.to_nat (maxLength - 3)) text ++ "..."
  else text.

Record headingSnapshot := {
  h_fontFamily : option string;
  h_fontSize : string;
  h_fontWeight : string;
  h_lineHeight : string;
  h_color : string;
  h_sample : string
}.

Definition headingTags : list string := [ "h1"; "h2"; "h3"; "h4"; "h5"; "h6" ].

Section Numbers.

(** [Number::toString] on a finite Number at least 10^21. *)
Variable numberToString : JS.number -> string.

Definition headingOf (element : Dom.element) : headingSnapshot :=
  let styles := Dom.getComputedStyle element in
  {| h_fontFamily := TypographyAnalyzer.cleanFontFamily (Dom.fontFamily styles);
     h_fontSize := Dom.fontSize styles;
     h_fontWeight := Dom.fontWeight styles;
     h_lineHeight :=
       TypographyAnalyzer.normalizeLineHeight numberToString
         (Dom.lineHeight styles) (Dom.fontSize styles);
     h_color := TypographyAnalyzer.toHex (Dom.color styles);
     h_sample := getSampleText element 50 |}.

(** The body of [headingTags.forEach]: [headings] is an object whose keys
    are kept in the order they were added; every tag is visited once. *)
Definition visitHeading (doc : Dom.document) (headings : list (string * headingSnapshot))
           (tag : string) : list (string * headingSnapshot) :=
  match Dom.querySelector doc tag with
  | Some element => (headings ++ [(tag, headingOf element)])%list
  | None => headings
  end.

(** [analyzeHeadings()]: [None] is [null]. *)
Definition analyzeHeadings (doc : Dom.document) : option (list (string * headingSnapshot)) :=
  let headings := fold_left (visitHeading doc) headingTags [] in
  if (0 <? List.length headings)%nat then Some headings else None.

(** [analyze()] of the typography module; [None] when [analyzeBodyText]
    throws. *)
Record typography := {
  fontFamilies : list TypographyAnalyzer.fontUsage;
  headings : option (list (string * headingSnapshot));
  body : TypographyAnalyzer.bodySnapshot
}.

Definition analyze (doc : Dom.document) : option typography :=
  let ff := TypographyAnalyzer.analyzeFontFamilies doc in
  let hs := analyzeHeadings doc in
  match TypographyAnalyzer.analyzeBodyText numberToString doc with
  | Some b => Some {| fontFamilies := ff; headings := hs; body := b |}
  | None => None
  end.

End Numbers.

End TypographyRest.

(** ** The rest of ImageAnalyzer *)

Module ImageRest.

(** What the analyzer reads of an [img] element: [src] is the resolved
    address, the four sizes are unsigned integers. *)
Record imgData := {
  src : string;
  alt : string;
  naturalWidth : Z;
  naturalHeight : Z;
  imgWidth : Z;
  imgHeight : Z
}.

(** The class [\w]. *)
Definition isWord (c : ascii) : bool :=
  JS.isDigit c || JS.isUpperAZ c || JS.isLowerAZ c || (JS.code c =? 95).

(** The pattern [data:image\/(\w+)] at the start of [s]. *)
Definition dataMatchHere (s : string) : option string :=
  let? s := JS.expect "data:image/" s in
  let? (m, _) := JS.many1 isWord s in
  Some m.

(** [array.pop()] on the result of [split], which is never empty. *)
Definition pop (l : list string) : string := List.last l EmptyString.

Definition validTypes : list string :=
  [ "jpg"; "jpeg"; "png"; "gif"; "webp"; "svg"; "ico"; "bmp"; "avif" ].

(** [getFileType(url)] *)
Definition getFileType (url : string) : string :=
  if negb (JS.truthy url) then "unknown"
  else if JS.startsWith url "data:" then
    match JS.search dataMatchHere url with
    | Some m => m
    | None => "unknown"
    end
  else
    let extension :=
      JS.toLowerCase (nth 0 (JS.split (pop (JS.split url ".")) "?") EmptyString) in
    if existsb (String.eqb extension) validTypes then extension else "unknown".

Record imageInfo := {
  i_url : string;
  i_alt : string;
  i_width : Z;
  i_height : Z;
  i_type : string
}.

(** [a || b] on integers. *)
Definition orZ (a b : Z) : Z := if a =? 0 then b else a.

(** [getImageInfo(img)] for an element [img]. *)
Definition getImageInfo (img : imgData) : option imageInfo :=
  if negb (JS.truthy (src img)) then None
  else Some {| i_url := src img;
               i_alt := if JS.truthy (alt img) then alt img else EmptyString;
               i_width := orZ (naturalWidth img) (imgWidth img);
               i_height := orZ (naturalHeight img) (imgHeight img);
               i_type := getFileType (src img) |}.

(** [(a.width || 0) * (a.height || 0)]; the sizes are integers, and the
    product is exact below 2^53. *)
Definition area (a : imageInfo) : Z := orZ (i_width a) 0 * orZ (i_height a) 0.

(** The body of [imgElements.forEach]. *)
Definition visitImage (images : list imageInfo) (img : imgData) : list imageInfo :=
  if (imgWidth img <? 10) || (imgHeight img <? 10) then images
  else if JS.startsWith (src img) "data:" && (String.length (src img) <? 100)%nat then images
  else
    match getImageInfo img with
    | Some info => if JS.truthy (i_url info) then (images ++ [info])%list else images
    | None => images
    end.

(** A record of [getBackgroundImages]. *)
Record background := { b_url : string; b_element : string }.

Definition isUrlChar (c : ascii) : bool :=
  negb ((JS.code c =? 34) || (JS.code c =? 39) || (JS.code c =? 41)).

Definition optionalQuote (s : string) : string :=
  match s with
  | String c r => if (JS.code c =? 34) || (JS.code c =? 39) then r else s
  | EmptyString => s
  end.

(** The pattern [url\( Q? ([^Q)]+) Q? \)] at the start of [s], where [Q]
    is a single or a double quote.  The group stops at a quote, a closing
    parenthesis or the end, so the greedy choice is the only one that can
    succeed. *)
Definition urlMatchHere (s : string) : option string :=
  let? s := JS.expect "url(" s in
  let? (m, s) := JS.many1 isUrlChar (optionalQuote s) in
  let? _ := JS.expect ")" (optionalQuote s) in
  Some m.

(** [first class token]: [className.split(' ')[0]] *)
Definition firstClass (className : string) : string :=
  nth 0 (JS.split className " ") EmptyString.

Section Browser.

(** The properties of an [img] element. *)
Variable imgOf : Dom.element -> imgData.

(** [getComputedStyle(el).backgroundImage]. *)
Variable backgroundImageOf : Dom.element -> string.

(** [el.id], and [el.className] when it is a string (it is not one on an
    element of the SVG name space). *)
Variable idOf : Dom.element -> string.
Variable classNameOf : Dom.element -> option string.

(** [new URL(url, window.location.href).href]; [None] when it throws. *)
Variable newURL : string -> option string.

(** [getAllImages()] *)
Definition getAllImages (doc : Dom.document) : list imageInfo :=
  let images := fold_left visitImage (map imgOf (Dom.querySelectorAll doc "img[src]")) [] in
  ColorAnalyzer.sort (fun a b => Z.sgn (area b - area a)) images.

(** [resolveUrl(url)] *)
Definition resolveUrl (url : string) : string :=
  if JS.startsWith url "http" || JS.startsWith url "data:" then url
  else match newURL url with
       | Some href => href
       | None => url
       end.

(** [getElementSelector(element)] *)
Definition getElementSelector (element : Dom.element) : string :=
  if JS.truthy (idOf element) then "#" ++ idOf element
  else
    let tag := JS.toLowerCase (Dom.tagNameOf element) in
    match classNameOf element with
    | Some className =>
        if JS.truthy className then
          let mainClass := firstClass className in
          if JS.truthy mainClass then tag ++ "." ++ mainClass else tag
        else tag
    | None => tag
    end.

(** The body of the first [forEach] of [getBackgroundImages]. *)
Definition visitBackground (backgrounds : list background) (element : Dom.element)
  : list background :=
  let bgImage := backgroundImageOf element in
  if JS.truthy bgImage && negb (String.eqb bgImage "none") then
    match JS.search urlMatchHere bgImage with
    | Some url =>
        if JS.truthy url then
          if JS.startsWith url "data:" || JS.includes url "gradient" then backgrounds
          else (backgrounds ++ [ {| b_url := resolveUrl url;
                                    b_element := getElementSelector element |} ])%list
        else backgrounds
    | None => backgrounds
    end
  else backgrounds.

(** The body of the second [forEach]: the state is [uniqueBackgrounds] and
    [seenUrls]. *)
Definition keepUnique (st : list background * list string) (bg : background)
  : list background * list string :=
  let '(uniqueBackgrounds, seenUrls) := st in
  if existsb (String.eqb (b_url bg)) seenUrls then st
  else ((uniqueBackgrounds ++ [bg])%list, ColorAnalyzer.setAdd seenUrls (b_url bg)).

(** [getBackgroundImages()] *)
Definition getBackgroundImages (doc : Dom.document) : list background :=
  let backgrounds := fold_left visitBackground (Dom.querySelectorAll doc "*") [] in
  fst (fold_left keepUnique backgrounds ([], [])).

End Browser.

(** *** detectLogo and analyze *)

Definition logoSelectors : list string :=
  [ "img[alt*=" ++ JS.quoted "logo" ++ " i]";
    "img[alt*=" ++ JS.quoted "brand" ++ " i]";
    "img[class*=" ++ JS.quoted "logo" ++ " i]";
    "img[id*=" ++ JS.quoted "logo" ++ " i]";
    "img[class*=" ++ JS.quoted "brand" ++ " i]";
    ".logo img";
    "#logo img";
    "[class*=" ++ JS.quoted "logo" ++ "] img";
    "header img:first-of-type";
    "nav img:first-of-type";
    "a[href=" ++ JS.quoted "/" ++ "] img";
    "a[href=" ++ JS.quoted "./" ++ "] img" ].

Definition svgLogoSelectors : list string :=
  [ "svg[class*=" ++ JS.quoted "logo" ++ " i]";
    ".logo svg";
    "#logo svg";
    "header svg:first-of-type";
    "nav svg:first-of-type" ].

(** The record [getSvgInfo(svg, true)] returns. *)
Record svgLogo := {
  l_url : string;
  l_width : ImageAnalyzer.dimension;
  l_height : ImageAnalyzer.dimension;
  l_type : string;
  l_content : string
}.

(** What [detectLogo] returns when it is not [null]. *)
Inductive logo := LogoImage (i : imageInfo) | LogoSvg (l : svgLogo).

(** A [for] loop whose body may return: the first value returned. *)
Fixpoint firstReturn {A B : Type} (body : A -> option B) (l : list A) : option B :=
  match l with
  | [] => None
  | x :: rest =>
      match body x with
      | Some r => Some r
      | None => firstReturn body rest
      end
  end.

Section Logo.

Variable imgOf : Dom.element -> imgData.
Variable serializeToString : Dom.node -> string.

(** [URL.createObjectURL(new Blob([content], ...))] *)
Variable createObjectURL : string -> string.

(** [getSvgInfo(svg, true)] for an element [svg]. *)
Definition getSvgLogo (svg : Dom.element) : svgLogo :=
  let info := ImageAnalyzer.getSvgInfo serializeToString svg in
  {| l_url := createObjectURL (ImageAnalyzer.content info);
     l_width := ImageAnalyzer.width info;
     l_height := ImageAnalyzer.height info;
     l_type := "svg";
     l_content := ImageAnalyzer.content info |}.

(** [if (element && element.src) return this.getImageInfo(element)]: the
    outer [Some] is a return, the inner value is what is returned. *)
Definition tryImage (doc : Dom.document) (selector : string) : option (option imageInfo) :=
  match Dom.querySelector doc selector with
  | Some element =>
      if JS.truthy (src (imgOf element)) then Some (getImageInfo (imgOf element)) else None
  | None => None
  end.

(** [if (element) return this.getSvgInfo(element, true)] *)
Definition trySvg (doc : Dom.document) (selector : string) : option svgLogo :=
  option_map getSvgLogo (Dom.querySelector doc selector).

(** [detectLogo()]; [None] is [null]. *)
Definition detectLogo (doc : Dom.document) : option logo :=
  match firstReturn (tryImage doc) logoSelectors with
  | Some r => option_map LogoImage r
  | None =>
      match firstReturn (trySvg doc) svgLogoSelectors with
      | Some l => Some (LogoSvg l)
      | None =>
          match tryImage doc "header img, nav img" with
          | Some r => option_map LogoImage r
          | None => None
          end
      end
  end.

End Logo.

(** [analyze()] of the image module. *)
Record images := {
  a_logo : option logo;
  a_all : list imageInfo;
  a_svgs : list ImageAnalyzer.svgInfo;
  a_backgrounds : list background
}.

Definition analyze (imgOf : Dom.element -> imgData)
           (serializeToString : Dom.node -> string)
           (createObjectURL : string -> string)
           (backgroundImageOf idOf : Dom.element -> string)
           (classNameOf : Dom.element -> option string)
           (newURL : string -> option string) (doc : Dom.document) : images :=
  {| a_logo := detectLogo imgOf serializeToString createObjectURL doc;
     a_all := getAllImages imgOf doc;
     a_svgs := ImageAnalyzer.getInlineSvgs serializeToString doc;
     a_backgrounds := getBackgroundImages backgroundImageOf idOf classNameOf newURL doc |}.

End ImageRest.

(** ** Notions used to state the further properties *)

Module SpecRest.

(** [map.get(k)] *)
Fixpoint lookupItem (m : ColorAnalyzer.colorMap) (k : string) : option ColorAnalyzer.item :=
  match m with
  | [] => None
  | (k', v) :: r => if String.eqb k' k then Some v else lookupItem r k
  end.

(** The weight a map holds for a hex, 0 when it has none. *)
Definition weightOf (m : ColorAnalyzer.colorMap) (k : string) : Z :=
  match lookupItem m k with
  | Some v => ColorAnalyzer.weight v
  | None => 0
  end.

(** A map as [addColor] builds it: distinct non-empty keys, each item
    under its own hex, with a weight of at least 1 and a non-empty list of
    distinct sources. *)
Definition goodItem (kv : string * ColorAnalyzer.item) : Prop :=
  fst kv = ColorAnalyzer.hex (snd kv)
  /\ JS.truthy (fst kv) = true
  /\ 1 <= ColorAnalyzer.weight (snd kv)
  /\ (0 < List.length (ColorAnalyzer.sources (snd kv)))%nat
  /\ NoDup (ColorAnalyzer.sources (snd kv)).

Definition goodMap (m : ColorAnalyzer.colorMap) : Prop :=
  NoDup (map fst m) /\ Forall goodItem m.

Definition goodColors (c : ColorAnalyzer.colors) : Prop :=
  forall k, goodMap (ColorAnalyzer.get c k).

(** The style rules of the sheets that can be read, in order. *)
Definition isStyleRule (rule : Dom.cssRule) : bool :=
  match rule with Dom.CSSStyleRule _ _ => true | Dom.OtherRule => false end.

Definition styleRules (doc : Dom.document) : list Dom.cssRule :=
  flat_map (fun sheet : Dom.styleSheet =>
              match sheet with
              | Some rules => filter isStyleRule rules
              | None => []
              end) (Dom.styleSheets doc).

(** What a colour declaration of a style rule gives to the map of the
    category [k]: its hex, when the colour is valid and can be normalized. *)
Definition declaration (canvasFillStyle : string -> option string) (maxStack : nat)
           (color : string) (k : ColorAnalyzer.category)
  : list (ColorAnalyzer.category * string) :=
  if JS.truthy color && ColorAnalyzer.isValidColor color then
    match ColorAnalyzer.toHex canvasFillStyle maxStack color with
    | Some h => [(k, h)]
    | None => []
    end
  else [].

(** The declarations of a rule: background colour, text colour and border
    colour, the border colour being [border-color] or else
    [border-top-color]. *)
Definition declarations (canvasFillStyle : string -> option string) (maxStack : nat)
           (rule : Dom.cssRule) : list (ColorAnalyzer.category * string) :=
  match rule with
  | Dom.OtherRule => []
  | Dom.CSSStyleRule selector st =>
      (declaration canvasFillStyle maxStack (Dom.rs_backgroundColor st)
                   (ColorAnalyzer.categorizeBySelector selector "background")
       ++ declaration canvasFillStyle maxStack (Dom.rs_color st)
                      (ColorAnalyzer.categorizeBySelector selector "text")
       ++ declaration canvasFillStyle maxStack
                      (if JS.truthy (Dom.rs_borderColor st) then Dom.rs_borderColor st
                       else Dom.rs_borderTopColor st)
                      ColorAnalyzer.border)%list
  end.

(** How often the hex [h] is declared for the category [k]. *)
Definition countOf (k : ColorAnalyzer.category) (h : string)
           (l : list (ColorAnalyzer.category * string)) : Z :=
  Z.of_nat (List.length
              (filter (fun kh => ColorAnalyzer.category_eqb (fst kh) k
                                 && String.eqb (snd kh) h) l)).

(** No weight of [c] is larger than in [c']. *)
Definition grows (c c' : ColorAnalyzer.colors) : Prop :=
  forall k h, weightOf (ColorAnalyzer.get c k) h <= weightOf (ColorAnalyzer.get c' k) h.

(** An element whose text colour normalizes to [h] and is not neutral. *)
Definition paints (canvasFillStyle : string -> option string) (maxStack : nat)
           (h : string) (el : Dom.element) : bool :=
  match ColorAnalyzer.toHex canvasFillStyle maxStack (Dom.color (Dom.getComputedStyle el)) with
  | Some x => String.eqb x h && negb (ColorAnalyzer.isNeutral (Some x))
  | None => false
  end.

(** The hex values of all five maps. *)
Definition allHexes (c : ColorAnalyzer.colors) : list string :=
  flat_map (fun kl => Spec.hexesOf c (fst kl)) ColorAnalyzer.categories.

(** The text of some character of [s] is not white space. *)
Fixpoint hasInk (s : string) : bool :=
  match s with
  | EmptyString => false
  | String c r => negb (JS.isSpace c) || hasInk r
  end.

(** No white space other than single spaces between two other characters:
    [prev] tells that the previous character was a space. *)
Fixpoint singleSpaced (prev : bool) (s : string) : bool :=
  match s with
  | EmptyString => true
  | String c r =>
      if JS.isSpace c then Ascii.eqb c " " && negb prev && singleSpaced true r
      else singleSpaced false r
  end.

(** A string without the character [c]. *)
Definition without (c : ascii) (s : string) : bool :=
  Spec.allOf (fun x => negb (Ascii.eqb x c)) s.

(** The computed-style form of a colour: [rgb(d1, d2, d3)] or
    [rgba(d1, d2, d3, ...], with white space only after the commas. *)
Definition rgbComputed (s d1 d2 d3 : string) : Prop :=
  exists a w4 w6 rest,
    s = "rgb" ++ a ++ "(" ++ d1 ++ "," ++ w4 ++ d2 ++ "," ++ w6 ++ d3 ++ rest
    /\ (a = EmptyString \/ a = "a")
    /\ Spec.allOf JS.isSpace w4 = true /\ Spec.allOf JS.isSpace w6 = true
    /\ Spec.digits d1 = true /\ Spec.digits d2 = true /\ Spec.digits d3 = true
    /\ Spec.startsOutside JS.isDigit rest = true.

(** The saturation test of [isNeutral] on channel values, in integers. *)
Definition greyish (r g b : Z) : bool :=
  let mx := Z.max (Z.max r g) b in
  let mn := Z.min (Z.min r g) b in
  (mx =? 0) || (10 * (mx - mn) <? mx).

(** A node that is a comment. *)
Definition isComment (n : Dom.node) : bool :=
  match n with Dom.Comment _ => true | _ => false end.

(** One entry of a font stack, as [cleanFontFamily] reads it: trimmed,
    then without quotes. *)
Definition cleaned (family : string) : string :=
  JS.removeAll TypographyAnalyzer.isQuote (JS.trim family).

Definition isSystemFont (f : string) : bool :=
  existsb (String.eqb f) TypographyAnalyzer.systemFonts.

(** Neither a quote nor a comma. *)
Definition plainChar (c : ascii) : bool :=
  negb (TypographyAnalyzer.isQuote c) && negb (Ascii.eqb c ",").

(** The first selector of the list whose element has a text child. *)
Definition firstAccepted (doc : Dom.document) (sels : list string) : option string :=
  find (Spec.accepts doc) sels.

(** The record [getImageInfo] makes of an image with an address. *)
Definition infoOf (img : ImageRest.imgData) : ImageRest.imageInfo :=
  {| ImageRest.i_url := ImageRest.src img;
     ImageRest.i_alt := ImageRest.alt img;
     ImageRest.i_width := ImageRest.orZ (ImageRest.naturalWidth img) (ImageRest.imgWidth img);
     ImageRest.i_height := ImageRest.orZ (ImageRest.naturalHeight img) (ImageRest.imgHeight img);
     ImageRest.i_type := ImageRest.getFileType (ImageRest.src img) |}.

(** Nothing, a double quote or a single quote. *)
Definition quoteOpt (q : string) : bool :=
  String.eqb q EmptyString || String.eqb q (String JS.doubleQuote EmptyString)
  || String.eqb q "'".

(** The last step of [isNeutral] on a largest and a smallest channel. *)
Definition lowSaturation (mx mn : Z) : bool :=
  let max := JS.ofZ mx in
  let min := JS.ofZ mn in
  JS.flt (if JS.feq max (JS.ofZ 0) then JS.ofZ 0 else JS.fdiv (JS.fsub max min) max)
         (JS.ofDecimal false 1 (-1)).

(** A selector finds an image with an address; a selector finds an
    element. *)
Definition imageHit (imgOf : Dom.element -> ImageRest.imgData) (doc : Dom.document)
           (selector : string) : bool :=
  match Dom.querySelector doc selector with
  | Some element => JS.truthy (ImageRest.src (imgOf element))
  | None => false
  end.

Definition elementHit (doc : Dom.document) (selector : string) : bool :=
  match Dom.querySelector doc selector with Some _ => true | None => false end.

(** The order of [getAllImages]: the larger area first. *)
Definition largerFirst (a b : ImageRest.imageInfo) : Prop :=
  ImageRest.area b <= ImageRest.area a.

(** An image that [getAllImages] keeps. *)
Definition keptImage (img : ImageRest.imgData) : bool :=
  negb ((ImageRest.imgWidth img <? 10) || (ImageRest.imgHeight img <? 10))
  && negb (JS.startsWith (ImageRest.src img) "data:"
           && (String.length (ImageRest.src img) <? 100)%nat)
  && JS.truthy (ImageRest.src img).

End SpecRest.

(** ** More concrete inputs *)

Module FixtureRest.

(** [<h1>  Design   system  analyzer </h1>] *)
Definition title : Dom.element :=
  Fixture.elem "H1" (Fixture.styled "Georgia" "rgb(0, 0, 0)") 300 40
               [Dom.Text "  Design   system  analyzer "].

(** [<div class="hero wide">] with two background layers,
    [url(Q img/hero.png Q), url(Q img/grain.png Q)], on a page at
    [https://example.com/]. *)
Definition hero : Dom.element :=
  Fixture.elem "DIV" (Fixture.styled "Arial" "rgb(0, 0, 0)") 800 400 [].
Definition heroLayers (_ : Dom.element) : string :=
  "url(" ++ JS.quoted "img/hero.png" ++ "), url(" ++ JS.quoted "img/grain.png" ++ ")".
Definition noId (_ : Dom.element) : string := EmptyString.
Definition heroClass (_ : Dom.element) : option string := Some "hero wide".
Definition fromExample (url : string) : option string :=
  Some ("https://example.com/" ++ url).

End FixtureRest.

(** ** hslToRgb on machine numbers

    The two functions of [hslToRgb] once more, on the primitive binary64
    numbers: the same operations in the same order, so that the channels
    can be evaluated for every integer hue, saturation and lightness. *)

Module Binary64.

Import PrimFloat.
Local Open Scope float_scope.

Definition ofInt (z : Z) : float := of_uint63 (Uint63.of_Z z).

Definition hue2rgb (p q t : float) : float :=
  let one := ofInt 1 in
  let t := if t <? ofInt 0 then t + one else t in
  let t := if one <? t then t - one else t in
  if t <? one / ofInt 6 then p + (q - p) * ofInt 6 * t
  else if t <? one / ofInt 2 then q
  else if t <? ofInt 2 / ofInt 3 then p + (q - p) * (ofInt 2 / ofInt 3 - t) * ofInt 6
  else p.

Definition half : float := ofInt 1 / ofInt 2.

Definition hslToRgb (h s l : float) : list float :=
  let one := ofInt 1 in
  let third := one / ofInt 3 in
  let '(r, g, b) :=
    if s =? ofInt 0 then (l, l, l)
    else
      let q := if l <? half then l * (one + s) else l + s - l * s in
      let p := ofInt 2 * l - q in
      (hue2rgb p q (h + third), hue2rgb p q h, hue2rgb p q (h - third)) in
  [ r * ofInt 255; g * ofInt 255; b * ofInt 255 ].





End Binary64.

(** * Properties *)

(** ** Strings *)

Lemma startsWith_spec (s p : string) :
  JS.startsWith s p = true <-> exists post, s = p ++ post.
Proof.
  revert s; induction p as [|c p IH]; intros s; simpl.
  - split; [intros _; now exists s | reflexivity].
  - destruct s as [|d s]; simpl.
    + split; [discriminate | intros [post H]; discriminate].
    + rewrite andb_true_iff, Ascii.eqb_eq, IH. split.
      * intros [-> [post ->]]. now exists post.
      * intros [post H]. injection H as -> ->. split; [reflexivity | now exists post].
Qed.

Lemma includes_spec (s p : string) :
  JS.includes s p = true <-> exists pre post, s = pre ++ p ++ post.
Proof.
  induction s as [|c s IH]; simpl.
  - rewrite orb_false_r, startsWith_spec. split.
    + intros [post H]. now exists EmptyString, post.
    + intros [pre [post H]]. destruct pre; simpl in H; [now exists post | discriminate].
  - rewrite orb_true_iff, startsWith_spec, IH. split.
    + intros [[post H] | [pre [post H]]].
      * now exists EmptyString, post.
      * exists (String c pre), post. simpl. now rewrite H.
    + intros [pre [post H]]. destruct pre as [|d pre]; simpl in H.
      * left. now exists post.
      * right. injection H as _ H. now exists pre, post.
Qed.

Lemma mapString_app (f : ascii -> ascii) (a b : string) :
  JS.mapString f (a ++ b) = JS.mapString f a ++ JS.mapString f b.
Proof. induction a as [|c a IH]; simpl; [reflexivity | now rewrite IH]. Qed.

Lemma mapString_split (f : ascii -> ascii) (s a b : string) :
  JS.mapString f s = a ++ b ->
  exists s1 s2, s = s1 ++ s2 /\ JS.mapString f s1 = a /\ JS.mapString f s2 = b.
Proof.
  revert s; induction a as [|c a IH]; intros s H; simpl in H.
  - exists EmptyString, s. auto.
  - destruct s as [|d s]; simpl in H; [discriminate|].
    injection H as Hc H. destruct (IH _ H) as [s1 [s2 [-> [H1 H2]]]].
    exists (String d s1), s2. simpl. rewrite Hc, H1. auto.
Qed.

(** [includes] on the lower-cased selector is occurrence up to case. *)
Lemma includes_lower_spec (sel tok : string) :
  JS.includes (JS.toLowerCase sel) tok = true <-> Spec.occursCI tok sel.
Proof.
  rewrite includes_spec. unfold Spec.occursCI, JS.toLowerCase. split.
  - intros [pre [post H]].
    destruct (mapString_split _ _ _ _ H) as [s1 [s2 [-> [_ H2]]]].
    destruct (mapString_split _ _ _ _ H2) as [m [s3 [-> [Hm _]]]].
    now exists s1, m, s3.
  - intros [pre [mid [post [-> Hm]]]].
    exists (JS.mapString JS.lowerChar pre), (JS.mapString JS.lowerChar post).
    now rewrite !mapString_app, Hm.
Qed.

(** ** ColorAnalyzer.isValidColor *)

(** C5, as the code has it: the alpha channel is not inspected, and a
    transparent red is accepted. *)
Lemma isValidColor_transparent_red :
  ColorAnalyzer.isValidColor "rgba(255, 0, 0, 0)" = true.
Proof. reflexivity. Qed.

(** C5 (amended): [isValidColor] returns false exactly for the empty
    string, [transparent], the literal [rgba(0, 0, 0, 0)], [initial] and
    [inherit], and true for every other string. *)
Theorem isValidColor_false_iff (color : string) :
  ColorAnalyzer.isValidColor color = false <-> In color Spec.rejected.
Proof.
  unfold ColorAnalyzer.isValidColor, Spec.rejected. cbn [In].
  destruct color as [|c r]; [cbn; intuition|].
  set (color := String c r). change (JS.truthy color) with true. cbn [negb].
  destruct (String.eqb_spec color "transparent") as [->|H1]; [intuition|].
  destruct (String.eqb_spec color "rgba(0, 0, 0, 0)") as [->|H2]; [intuition|].
  destruct (String.eqb_spec color "initial") as [->|H3]; [cbn; intuition|].
  destruct (String.eqb_spec color "inherit") as [->|H4]; [cbn; intuition|].
  cbn. split; [discriminate|].
  intros [H|[H|[H|[H|[H|[]]]]]]; try congruence. subst color; discriminate.
Qed.

(** ** ColorAnalyzer.categorizeBySelector *)

(** C3, as the code has it: for a background colour the tokens [link] and
    [accent] do not route to Primary. *)
Lemma categorizeBySelector_link_background :
  ColorAnalyzer.categorizeBySelector ".nav-link" "background" = ColorAnalyzer.background
  /\ ColorAnalyzer.categorizeBySelector ".accent" "background" = ColorAnalyzer.background.
Proof. split; reflexivity. Qed.

Lemma orb_includes (sel : string) (toks : list string) :
  existsb (JS.includes (JS.toLowerCase sel)) toks = true <-> Spec.anyOccursCI toks sel.
Proof.
  rewrite existsb_exists. unfold Spec.anyOccursCI.
  split; intros [tok [Hin H]]; exists tok; split; auto; now apply includes_lower_spec.
Qed.

(** C3 (amended): with type [background] the result is [primary] exactly
    when the selector contains [btn], [button] or [primary] up to case, and
    [background] otherwise; with type [text] it is [accent] exactly when the
    selector contains one of [btn], [button], [link], [primary], [accent] up
    to case, and [foreground] otherwise. *)
Theorem categorizeBySelector_spec (selector : string) :
  (ColorAnalyzer.categorizeBySelector selector "background" = ColorAnalyzer.primary
   <-> Spec.anyOccursCI ["btn"; "button"; "primary"] selector)
  /\ (ColorAnalyzer.categorizeBySelector selector "background" = ColorAnalyzer.primary
      \/ ColorAnalyzer.categorizeBySelector selector "background" = ColorAnalyzer.background)
  /\ (ColorAnalyzer.categorizeBySelector selector "text" = ColorAnalyzer.accent
      <-> Spec.anyOccursCI ["btn"; "button"; "link"; "primary"; "accent"] selector)
  /\ (ColorAnalyzer.categorizeBySelector selector "text" = ColorAnalyzer.accent
      \/ ColorAnalyzer.categorizeBySelector selector "text" = ColorAnalyzer.foreground).
Proof.
  pose proof (orb_includes selector ["btn"; "button"; "primary"]) as Hb.
  pose proof (orb_includes selector ["btn"; "button"; "link"; "primary"; "accent"]) as Ht.
  unfold ColorAnalyzer.categorizeBySelector. simpl in *.
  rewrite !orb_false_r in Hb, Ht. rewrite <- !orb_assoc.
  destruct (JS.includes (JS.toLowerCase selector) "btn" ||
            (JS.includes (JS.toLowerCase selector) "button" ||
             JS.includes (JS.toLowerCase selector) "primary")) eqn:Eb;
  destruct (JS.includes (JS.toLowerCase selector) "btn" ||
            (JS.includes (JS.toLowerCase selector) "button" ||
             (JS.includes (JS.toLowerCase selector) "link" ||
              (JS.includes (JS.toLowerCase selector) "primary" ||
               JS.includes (JS.toLowerCase selector) "accent")))) eqn:Et;
  repeat split; auto; try (intros _; tauto); try discriminate;
  try (intros H; apply Hb in H; discriminate);
  try (intros H; apply Ht in H; discriminate).
Qed.

(** ** Array.prototype.sort *)

Section SortFacts.

Context {A : Type} (cmp : A -> A -> Z).

Let before (a b : A) : Prop := cmp a b <= 0.

Lemma insertSorted_perm (x : A) (l : list A) :
  Permutation (ColorAnalyzer.insertSorted cmp x l) (x :: l).
Proof.
  induction l as [|y l IH]; simpl; [reflexivity|].
  destruct (cmp x y <=? 0); [reflexivity|].
  rewrite IH. apply perm_swap.
Qed.

Lemma sort_perm (l : list A) : Permutation (ColorAnalyzer.sort cmp l) l.
Proof.
  induction l as [|x l IH]; simpl; [reflexivity|].
  rewrite insertSorted_perm. now constructor.
Qed.

Lemma sort_In (l : list A) (x : A) : In x (ColorAnalyzer.sort cmp l) <-> In x l.
Proof.
  split; apply Permutation_in; [apply sort_perm | symmetry; apply sort_perm].
Qed.

(** The comparator is consistent on the elements that satisfy [P]. *)
Variable P : A -> Prop.
Hypothesis cmp_total : forall a b, P a -> P b -> cmp a b <= 0 \/ cmp b a <= 0.
Hypothesis cmp_trans :
  forall a b c, P a -> P b -> P c -> cmp a b <= 0 -> cmp b c <= 0 -> cmp a c <= 0.

Lemma insertSorted_sorted (x : A) (l : list A) :
  P x -> Forall P l -> StronglySorted before l ->
  StronglySorted before (ColorAnalyzer.insertSorted cmp x l).
Proof.
  intros Px Pl Hs. induction Hs as [|y l Hs IH Hy]; simpl.
  - repeat constructor.
  - inversion Pl as [|? ? Py Pl']; subst.
    destruct (Z.leb_spec (cmp x y) 0) as [Hle|Hgt].
    + constructor; [now constructor|].
      constructor; [exact Hle|].
      rewrite Forall_forall in *. intros z Hz.
      apply (cmp_trans x y z); auto. apply Hy, Hz.
    + constructor; [now apply IH|].
      rewrite (insertSorted_perm x l). constructor; [|exact Hy].
      destruct (cmp_total x y Px Py) as [H|H]; [lia | exact H].
Qed.

Lemma sort_sorted (l : list A) :
  Forall P l -> StronglySorted before (ColorAnalyzer.sort cmp l).
Proof.
  induction l as [|x l IH]; intros Pl; simpl; [constructor|].
  inversion Pl; subst. apply insertSorted_sorted; auto.
  rewrite (sort_perm l). assumption.
Qed.

End SortFacts.

Lemma StronglySorted_cmp_weaken {A : Type} (R R' : A -> A -> Prop) (l : list A) :
  (forall a b, R a b -> R' a b) -> StronglySorted R l -> StronglySorted R' l.
Proof.
  intros HR. induction 1; constructor; auto.
  eapply Forall_impl; [|eassumption]. auto.
Qed.

Lemma StronglySorted_app {A : Type} (R : A -> A -> Prop) (l1 l2 : list A) :
  StronglySorted R l1 -> StronglySorted R l2 ->
  (forall a b, In a l1 -> In b l2 -> R a b) ->
  StronglySorted R (l1 ++ l2)%list.
Proof.
  intros H1 H2 H. induction H1 as [|x l1 H1 IH Hx]; simpl; [exact H2|].
  constructor.
  - apply IH. intros a b Ha Hb. apply H; [now right | exact Hb].
  - apply Forall_app. split; [exact Hx|].
    rewrite Forall_forall. intros b Hb. apply H; [now left | exact Hb].
Qed.

Lemma In_firstn_incl {A : Type} (n : nat) (l : list A) (x : A) :
  In x (firstn n l) -> In x l.
Proof. revert n; induction l; intros [|n]; simpl; intuition eauto. Qed.

Lemma StronglySorted_firstn {A : Type} (R : A -> A -> Prop) (n : nat) (l : list A) :
  StronglySorted R l -> StronglySorted R (firstn n l).
Proof.
  intros H. revert n. induction H as [|x l H IH Hx]; intros [|n]; simpl; try constructor.
  - apply IH.
  - rewrite Forall_forall in *. intros y Hy. apply Hx. eapply In_firstn_incl; eauto.
Qed.

(** ** ColorAnalyzer.buildColorPalette *)

Lemma setAdd_In (l : list string) (x y : string) :
  In y (ColorAnalyzer.setAdd l x) <-> In y l \/ y = x.
Proof.
  unfold ColorAnalyzer.setAdd. destruct (existsb (String.eqb x) l) eqn:E.
  - apply existsb_exists in E. destruct E as [z [Hz Hxz]].
    apply String.eqb_eq in Hxz. subst z. intuition congruence.
  - rewrite in_app_iff. simpl. intuition.
Qed.

Lemma seen_spec (h : string) (seen : list string) :
  existsb (String.eqb h) seen = true <-> In h seen.
Proof.
  rewrite existsb_exists. split.
  - intros [z [Hz E]]. apply String.eqb_eq in E. now subst.
  - intros H. exists h. split; [exact H | apply String.eqb_refl].
Qed.

Lemma dedup_app (seen : list string) (l1 l2 : list ColorAnalyzer.colorRecord) :
  Spec.dedup seen (l1 ++ l2)%list =
  let '(o1, s1) := Spec.dedup seen l1 in
  let '(o2, s2) := Spec.dedup s1 l2 in
  ((o1 ++ o2)%list, s2).
Proof.
  revert seen. induction l1 as [|r l1 IH]; intros seen; simpl.
  - now destruct (Spec.dedup seen l2).
  - destruct (existsb _ seen); [apply IH|].
    rewrite IH. destruct (Spec.dedup (ColorAnalyzer.setAdd seen _) l1) as [o1 s1].
    now destruct (Spec.dedup s1 l2).
Qed.

(** The inner loop is the [seen] test over the records of the sorted items. *)
Lemma emit_fold (lbl : string) (items : list ColorAnalyzer.item)
      (result : list ColorAnalyzer.colorRecord) (seen : list string) :
  fold_left (ColorAnalyzer.emit lbl) items (result, seen) =
  let '(o, s) := Spec.dedup seen (map (Spec.recordOf lbl) items) in
  ((result ++ o)%list, s).
Proof.
  revert result seen. induction items as [|it items IH]; intros result seen; simpl.
  - now rewrite app_nil_r.
  - destruct (existsb (String.eqb (ColorAnalyzer.hex it)) seen) eqn:E; [apply IH|].
    rewrite IH. unfold Spec.recordOf at 1. simpl.
    destruct (Spec.dedup _ _) as [o s]. now rewrite <- app_assoc.
Qed.

Lemma emitCategory_fold (c : ColorAnalyzer.colors)
      (cats : list (ColorAnalyzer.category * string))
      (result : list ColorAnalyzer.colorRecord) (seen : list string) :
  fold_left (ColorAnalyzer.emitCategory c) cats (result, seen) =
  let '(o, s) := Spec.dedup seen (flat_map (Spec.segment c) cats) in
  ((result ++ o)%list, s).
Proof.
  revert result seen. induction cats as [|[k lbl] cats IH]; intros result seen; simpl.
  - now rewrite app_nil_r.
  - rewrite emit_fold, dedup_app. unfold Spec.segment at 1. simpl.
    destruct (Spec.dedup seen _) as [o1 s1]. rewrite IH.
    destruct (Spec.dedup s1 _) as [o2 s2]. now rewrite app_assoc.
Qed.

(** The palette is the first 20 candidates that pass the [seen] test. *)
Lemma buildColorPalette_eq (c : ColorAnalyzer.colors) :
  ColorAnalyzer.buildColorPalette c = firstn 20 (fst (Spec.dedup [] (Spec.candidates c))).
Proof.
  unfold ColorAnalyzer.buildColorPalette, Spec.candidates.
  rewrite emitCategory_fold. now destruct (Spec.dedup _ _).
Qed.

Lemma dedup_In (l : list ColorAnalyzer.colorRecord) (seen : list string)
      (r : ColorAnalyzer.colorRecord) :
  In r (fst (Spec.dedup seen l)) -> In r l /\ ~ In (ColorAnalyzer.r_hex r) seen.
Proof.
  revert seen. induction l as [|x l IH]; intros seen; simpl; [tauto|].
  destruct (existsb _ seen) eqn:E.
  - intros H. apply IH in H. tauto.
  - specialize (IH (ColorAnalyzer.setAdd seen (ColorAnalyzer.r_hex x))).
    destruct (Spec.dedup _ l) as [o s]. simpl in *. intros [<-|H].
    + split; [now left|]. rewrite <- seen_spec. now rewrite E.
    + apply IH in H. rewrite setAdd_In in H. tauto.
Qed.

Lemma dedup_NoDup (l : list ColorAnalyzer.colorRecord) (seen : list string) :
  NoDup (map ColorAnalyzer.r_hex (fst (Spec.dedup seen l))).
Proof.
  revert seen. induction l as [|x l IH]; intros seen; simpl; [constructor|].
  destruct (existsb _ seen) eqn:E; [apply IH|].
  pose proof (IH (ColorAnalyzer.setAdd seen (ColorAnalyzer.r_hex x))) as Hn.
  pose proof (dedup_In l (ColorAnalyzer.setAdd seen (ColorAnalyzer.r_hex x))) as Hi.
  destruct (Spec.dedup _ l) as [o s]. simpl in *. constructor; [|exact Hn].
  rewrite in_map_iff. intros [y [Hy Hin]]. apply Hi in Hin.
  rewrite setAdd_In in Hin. intuition.
Qed.

(** A kept record is the first candidate with its hex. *)
Lemma dedup_first (l : list ColorAnalyzer.colorRecord) (seen : list string)
      (r : ColorAnalyzer.colorRecord) :
  In r (fst (Spec.dedup seen l)) ->
  exists l1 l2, l = (l1 ++ r :: l2)%list
                /\ forall x, In x l1 -> ColorAnalyzer.r_hex x <> ColorAnalyzer.r_hex r.
Proof.
  revert seen. induction l as [|x l IH]; intros seen; simpl; [tauto|].
  destruct (existsb _ seen) eqn:E.
  - intros H. pose proof (dedup_In _ _ _ H) as [_ Hn].
    destruct (IH _ H) as [l1 [l2 [-> Hl1]]].
    exists (x :: l1), l2. split; [reflexivity|].
    intros y [<-|Hy]; [|now apply Hl1].
    intros Heq. apply Hn. rewrite <- Heq. now apply seen_spec.
  - pose proof (dedup_In l (ColorAnalyzer.setAdd seen (ColorAnalyzer.r_hex x)) r) as Hi.
    specialize (IH (ColorAnalyzer.setAdd seen (ColorAnalyzer.r_hex x))).
    destruct (Spec.dedup _ l) as [o s]. simpl in *. intros [<-|H].
    + exists [], l. split; [reflexivity | intros y []].
    + destruct (IH H) as [l1 [l2 [-> Hl1]]]. apply Hi in H.
      exists (x :: l1), l2. split; [reflexivity|].
      intros y [<-|Hy]; [|now apply Hl1].
      intros Heq. apply (proj2 H). rewrite setAdd_In. now right.
Qed.

Lemma dedup_sorted (R : ColorAnalyzer.colorRecord -> ColorAnalyzer.colorRecord -> Prop)
      (l : list ColorAnalyzer.colorRecord) (seen : list string) :
  StronglySorted R l -> StronglySorted R (fst (Spec.dedup seen l)).
Proof.
  intros H. revert seen. induction H as [|x l H IH Hx]; intros seen; simpl; [constructor|].
  destruct (existsb _ seen); [apply IH|].
  pose proof (IH (ColorAnalyzer.setAdd seen (ColorAnalyzer.r_hex x))) as Hs.
  pose proof (dedup_In l (ColorAnalyzer.setAdd seen (ColorAnalyzer.r_hex x))) as Hi.
  destruct (Spec.dedup _ l) as [o s]. simpl in *. constructor; [exact Hs|].
  rewrite Forall_forall in *. intros y Hy. apply Hx. now apply Hi.
Qed.

Lemma StronglySorted_map {A B : Type} (f : A -> B) (R : B -> B -> Prop) (l : list A) :
  StronglySorted (fun a b => R (f a) (f b)) l -> StronglySorted R (map f l).
Proof.
  induction 1 as [|x l H IH Hx]; simpl; constructor; auto.
  rewrite Forall_forall in *. intros y Hy. apply in_map_iff in Hy.
  destruct Hy as [z [<- Hz]]. now apply Hx.
Qed.

Lemma segment_In (c : ColorAnalyzer.colors) (k : ColorAnalyzer.category) (lbl : string)
      (r : ColorAnalyzer.colorRecord) :
  In r (Spec.segment c (k, lbl)) <->
  exists it, In it (ColorAnalyzer.values (ColorAnalyzer.get c k)) /\ r = Spec.recordOf lbl it.
Proof.
  unfold Spec.segment. simpl. rewrite in_map_iff. split.
  - intros [it [<- H]]. apply sort_In in H. eauto.
  - intros [it [H ->]]. exists it. split; [reflexivity | now apply sort_In].
Qed.

Lemma segment_sorted (c : ColorAnalyzer.colors) (kl : ColorAnalyzer.category * string) :
  StronglySorted Spec.paletteOrder (Spec.segment c kl).
Proof.
  unfold Spec.segment. apply StronglySorted_map.
  eapply StronglySorted_cmp_weaken; [|apply (sort_sorted _ (fun _ => True))].
  - intros a b H. cbv beta zeta in H. right. simpl. split; [reflexivity | lia].
  - intros a b _ _. lia.
  - intros a b d _ _ _. lia.
  - apply Forall_forall. trivial.
Qed.

Lemma candidates_In (c : ColorAnalyzer.colors) (r : ColorAnalyzer.colorRecord) :
  In r (Spec.candidates c) <-> Spec.fromMap c r.
Proof.
  unfold Spec.candidates, ColorAnalyzer.categories, Spec.fromMap. simpl.
  rewrite !in_app_iff, !segment_In. split.
  - intros [H|[H|[H|[H|[H|[]]]]]]; destruct H as [it [Hit ->]];
      [exists ColorAnalyzer.primary | exists ColorAnalyzer.accent
       | exists ColorAnalyzer.background | exists ColorAnalyzer.foreground
       | exists ColorAnalyzer.border]; exists it; auto.
  - intros [k [it [_ [Hit ->]]]]. destruct k; simpl; eauto 10.
Qed.

Lemma segment_before (c : ColorAnalyzer.colors) (k1 k2 : ColorAnalyzer.category)
      (l1 l2 : string) (a b : ColorAnalyzer.colorRecord) :
  (Spec.labelRank l1 < Spec.labelRank l2)%nat ->
  In a (Spec.segment c (k1, l1)) -> In b (Spec.segment c (k2, l2)) ->
  Spec.paletteOrder a b.
Proof.
  intros Hlt Ha Hb. apply segment_In in Ha, Hb.
  destruct Ha as [ia [_ ->]], Hb as [ib [_ ->]]. now left.
Qed.

Lemma candidates_sorted (c : ColorAnalyzer.colors) :
  StronglySorted Spec.paletteOrder (Spec.candidates c).
Proof.
  unfold Spec.candidates, ColorAnalyzer.categories. simpl.
  repeat (apply StronglySorted_app; [apply segment_sorted | | ]);
    [constructor | ..];
    intros a b Ha Hb; rewrite ?in_app_iff in Hb;
    repeat (destruct Hb as [Hb|Hb];
            [eapply segment_before; [|exact Ha|exact Hb]; cbn; lia|]);
    destruct Hb.
Qed.

Lemma firstn_NoDup_map {A B : Type} (f : A -> B) (n : nat) (l : list A) :
  NoDup (map f l) -> NoDup (map f (firstn n l)).
Proof.
  revert n. induction l as [|x l IH]; intros [|n] H; simpl; try constructor.
  - inversion H; subst. intros Hin. apply H2. apply in_map_iff in Hin.
    destruct Hin as [y [Hy Hin]]. apply in_map_iff. exists y. split; auto.
    eapply In_firstn_incl; eauto.
  - inversion H; subst. now apply IH.
Qed.

Lemma buildColorPalette_facts (c : ColorAnalyzer.colors) :
  Forall (Spec.fromMap c) (ColorAnalyzer.buildColorPalette c).
Proof.
  rewrite buildColorPalette_eq.
  apply Forall_forall. intros r Hr. apply candidates_In.
  apply In_firstn_incl in Hr. now apply dedup_In in Hr.
Qed.

Lemma StronglySorted_mid {A : Type} (R : A -> A -> Prop) (l1 l2 : list A) (x y : A) :
  StronglySorted R (l1 ++ x :: l2)%list -> In y l2 -> R x y.
Proof.
  induction l1 as [|z l1 IH]; simpl; intros H Hy; inversion H; subst.
  - rewrite Forall_forall in *. auto.
  - auto.
Qed.

(** A record of the palette is tagged with the first category, in priority
    order, whose map holds its hex. *)
Lemma StronglySorted_before {A : Type} (R : A -> A -> Prop) (l1 l2 : list A) (x y : A) :
  StronglySorted R (l1 ++ y :: l2)%list -> In x l1 -> R x y.
Proof.
  induction l1 as [|z l1 IH]; simpl; intros H Hx; [destruct Hx|].
  inversion H as [|? ? Hs Hf]; subst. destruct Hx as [<-|Hx]; [|auto].
  rewrite Forall_forall in Hf. apply Hf, in_elt.
Qed.

Lemma paletteOrder_trans (a b d : ColorAnalyzer.colorRecord) :
  Spec.paletteOrder a b -> Spec.paletteOrder b d -> Spec.paletteOrder a d.
Proof.
  unfold Spec.paletteOrder. intros [H1|[E1 W1]] [H2|[E2 W2]].
  - left. lia.
  - left. now rewrite <- E2.
  - left. now rewrite E1.
  - right. split; [congruence | lia].
Qed.

(** A candidate whose hex was not seen before is kept, or an earlier
    candidate with the same hex is. *)
Lemma dedup_keeps (l : list ColorAnalyzer.colorRecord) (seen : list string)
      (r : ColorAnalyzer.colorRecord) :
  In r l -> ~ In (ColorAnalyzer.r_hex r) seen ->
  exists r0 l1 l2,
    l = (l1 ++ r0 :: l2)%list
    /\ In r0 (fst (Spec.dedup seen l))
    /\ ColorAnalyzer.r_hex r0 = ColorAnalyzer.r_hex r
    /\ (r0 = r \/ In r l2).
Proof.
  revert seen. induction l as [|x l IH]; intros seen Hr Hs; [destruct Hr|].
  cbn [Spec.dedup]. destruct (existsb _ seen) eqn:E.
  - apply seen_spec in E. destruct Hr as [->|Hr]; [contradiction|].
    destruct (IH seen Hr Hs) as (r0 & l1 & l2 & -> & H1 & H2 & H3).
    exists r0, (x :: l1), l2. auto.
  - destruct (String.eqb_spec (ColorAnalyzer.r_hex x) (ColorAnalyzer.r_hex r)) as [Eh|Nh].
    + exists x, [], l. destruct (Spec.dedup _ l) as [o s]. cbn.
      repeat split; auto.
    + assert (Hr' : In r l) by (destruct Hr as [->|Hr]; [contradiction | exact Hr]).
      assert (Hs' : ~ In (ColorAnalyzer.r_hex r)
                      (ColorAnalyzer.setAdd seen (ColorAnalyzer.r_hex x))).
      { rewrite setAdd_In. intros [H|H]; [contradiction | congruence]. }
      destruct (IH _ Hr' Hs') as (r0 & l1 & l2 & -> & H1 & H2 & H3).
      destruct (Spec.dedup _ (l1 ++ r0 :: l2)%list) as [o s]. cbn in *.
      exists r0, (x :: l1), l2. auto.
Qed.

Lemma firstn_before {A : Type} (n : nat) (l1 l2 : list A) (y : A) :
  (n <= List.length l1)%nat -> firstn n (l1 ++ y :: l2)%list = firstn n l1.
Proof.
  intros H. rewrite firstn_app. replace (n - List.length l1)%nat with 0%nat by lia.
  cbn. apply app_nil_r.
Qed.

Lemma firstn_reaches {A : Type} (n : nat) (l1 l2 : list A) (y : A) :
  (List.length l1 < n)%nat -> In y (firstn n (l1 ++ y :: l2)%list).
Proof.
  intros H. rewrite firstn_app. apply in_or_app. right.
  destruct (n - List.length l1)%nat as [|m] eqn:E; [lia|]. now left.
Qed.

(** Every candidate has its hex in the palette, or the palette is full and
    holds only records that come before the candidate. *)
Lemma buildColorPalette_cut (c : ColorAnalyzer.colors) (r : ColorAnalyzer.colorRecord) :
  Spec.fromMap c r ->
  In (ColorAnalyzer.r_hex r) (map ColorAnalyzer.r_hex (ColorAnalyzer.buildColorPalette c))
  \/ (List.length (ColorAnalyzer.buildColorPalette c) = 20%nat
      /\ Forall (fun x => Spec.paletteOrder x r) (ColorAnalyzer.buildColorPalette c)).
Proof.
  intros Hr. apply candidates_In in Hr. rewrite buildColorPalette_eq.
  pose proof (candidates_sorted c) as Hs.
  destruct (dedup_keeps _ [] r Hr (fun H => H)) as (r0 & l1 & l2 & E & H0 & Hh & Hor).
  assert (Hord : r0 = r \/ Spec.paletteOrder r0 r).
  { destruct Hor as [->|Hin]; [now left|]. right. rewrite E in Hs.
    eapply StronglySorted_mid; eauto. }
  pose proof (dedup_sorted Spec.paletteOrder _ [] Hs) as Hd.
  set (D := fst (Spec.dedup [] (Spec.candidates c))) in *.
  destruct (in_split _ _ H0) as (d1 & d2 & ED).
  destruct (Nat.lt_ge_cases (List.length d1) 20) as [Hlt|Hge].
  - left. rewrite <- Hh. apply in_map. rewrite ED. now apply firstn_reaches.
  - right. rewrite ED, firstn_before by exact Hge. split.
    + rewrite length_firstn. lia.
    + apply Forall_forall. intros x Hx. apply In_firstn_incl in Hx.
      rewrite ED in Hd. pose proof (StronglySorted_before _ _ _ _ _ Hd Hx) as Hx0.
      destruct Hord as [<-|Ho]; [exact Hx0 | eapply paletteOrder_trans; eauto].
Qed.

(** C6: the palette lists the categories in the order Primary, Accent,
    Background, Foreground, Border; within a category the records are in
    descending order of the accumulated weight of their items; and the list
    has at most 20 records.  Every record is the one of an item of the map of
    its category, and every item is emitted: its hex is in the palette,
    unless the palette is full, with 20 records that all come before the one
    of the item in this order. *)
Theorem buildColorPalette_order (c : ColorAnalyzer.colors) :
  StronglySorted Spec.paletteOrder (ColorAnalyzer.buildColorPalette c)
  /\ (List.length (ColorAnalyzer.buildColorPalette c) <= 20)%nat
  /\ Forall (Spec.fromMap c) (ColorAnalyzer.buildColorPalette c)
  /\ forall k it,
       In it (ColorAnalyzer.values (ColorAnalyzer.get c k)) ->
       In (ColorAnalyzer.hex it)
          (map ColorAnalyzer.r_hex (ColorAnalyzer.buildColorPalette c))
       \/ (List.length (ColorAnalyzer.buildColorPalette c) = 20%nat
           /\ Forall (fun x => Spec.paletteOrder x (Spec.recordOf (Spec.label k) it))
                     (ColorAnalyzer.buildColorPalette c)).
Proof.
  split; [|split; [|split]].
  - rewrite buildColorPalette_eq.
    apply StronglySorted_firstn, dedup_sorted, candidates_sorted.
  - rewrite buildColorPalette_eq. apply firstn_le_length.
  - apply buildColorPalette_facts.
  - intros k it Hit.
    apply (buildColorPalette_cut c (Spec.recordOf (Spec.label k) it)).
    exists k, it. auto.
Qed.

Lemma palette_priority (c : ColorAnalyzer.colors) (r : ColorAnalyzer.colorRecord)
      (k : ColorAnalyzer.category) :
  In r (ColorAnalyzer.buildColorPalette c) ->
  In (ColorAnalyzer.r_hex r) (Spec.hexesOf c k) ->
  (Spec.labelRank (ColorAnalyzer.r_category r) <= Spec.labelRank (Spec.label k))%nat.
Proof.
  rewrite buildColorPalette_eq. intros Hr Hk.
  apply In_firstn_incl, dedup_first in Hr. destruct Hr as [l1 [l2 [E Hl1]]].
  unfold Spec.hexesOf in Hk. apply in_map_iff in Hk. destruct Hk as [it [Hh Hit]].
  set (x := Spec.recordOf (Spec.label k) it).
  assert (Hx : In x (Spec.candidates c)).
  { apply candidates_In. exists k, it. auto. }
  pose proof (candidates_sorted c) as Hs. rewrite E in Hx, Hs.
  apply in_app_iff in Hx. destruct Hx as [Hx|[Hx|Hx]].
  - exfalso. apply (Hl1 x Hx). exact Hh.
  - rewrite Hx. unfold x. simpl. lia.
  - pose proof (StronglySorted_mid _ _ _ _ _ Hs Hx) as [H|[H _]].
    + unfold x in H. simpl in H. lia.
    + rewrite H. unfold x. simpl. lia.
Qed.

Lemma labelRank_zero (r : ColorAnalyzer.colorRecord) (c : ColorAnalyzer.colors) :
  Spec.fromMap c r -> (Spec.labelRank (ColorAnalyzer.r_category r) <= 0)%nat ->
  ColorAnalyzer.r_category r = "Primary".
Proof.
  intros [k [it [-> _]]]. destruct k; cbn; intros H; try lia. reflexivity.
Qed.

(** *** The maps built by addColor are keyed by the hex of their items *)

Lemma has_keys (m : ColorAnalyzer.colorMap) (h : string) :
  ColorAnalyzer.has m h = true <-> In h (map fst m).
Proof.
  induction m as [|[k v] m IH]; simpl; [split; [discriminate | tauto]|].
  rewrite orb_true_iff, String.eqb_eq, IH. tauto.
Qed.

Lemma update_keyed (m : ColorAnalyzer.colorMap) (k : string)
      (f : ColorAnalyzer.item -> ColorAnalyzer.item) :
  (forall v, ColorAnalyzer.hex (f v) = ColorAnalyzer.hex v) ->
  Spec.keyed m -> Spec.keyed (ColorAnalyzer.update m k f).
Proof.
  intros Hf. induction 1 as [|[k' v] m Hkv Hm IH]; simpl; [constructor|].
  destruct (String.eqb k' k); constructor; auto. simpl in *. now rewrite Hf.
Qed.

Lemma addColor_keyed (m : ColorAnalyzer.colorMap) (h src : string) (w : Z) :
  Spec.keyed m -> Spec.keyed (ColorAnalyzer.addColor m h src w).
Proof.
  intros Hm. unfold ColorAnalyzer.addColor.
  destruct (negb (JS.truthy h)); [exact Hm|].
  destruct (ColorAnalyzer.has m h).
  - apply update_keyed; auto.
  - apply Forall_app. split; [exact Hm|]. now repeat constructor.
Qed.

Lemma get_put (c : ColorAnalyzer.colors) (k k' : ColorAnalyzer.category)
      (m : ColorAnalyzer.colorMap) :
  ColorAnalyzer.get (ColorAnalyzer.put c k m) k' =
  if ColorAnalyzer.category_eqb k k' then m else ColorAnalyzer.get c k'.
Proof. destruct k, k'; reflexivity. Qed.

Lemma addTo_keyed (c : ColorAnalyzer.colors) (k : ColorAnalyzer.category)
      (h src : string) (w : Z) :
  Spec.keyedAll c -> Spec.keyedAll (ColorAnalyzer.addTo c k h src w).
Proof.
  intros Hc k'. unfold ColorAnalyzer.addTo. rewrite get_put.
  destruct (ColorAnalyzer.category_eqb k k'); [apply addColor_keyed|]; apply Hc.
Qed.

Lemma fold_left_invariant {S X : Type} (P : S -> Prop) (f : S -> X -> S) (l : list X) (s : S) :
  (forall s x, P s -> P (f s x)) -> P s -> P (fold_left f l s).
Proof. intros Hf. revert s. induction l; simpl; auto. Qed.

Ltac keyed_branches :=
  repeat match goal with
         | |- Spec.keyedAll (ColorAnalyzer.addTo _ _ _ _ _) => apply addTo_keyed
         | |- Spec.keyedAll (if ?b then _ else _) => destruct b
         | |- Spec.keyedAll (match ?x with _ => _ end) => destruct x
         | |- Spec.keyedAll (fold_left _ _ _) => apply fold_left_invariant; [intros|]
         end; auto.

Section KeyedPasses.

Variable canvasFillStyle : string -> option string.
Variable maxStack : nat.

Lemma analyzeStyleSheets_keyed (doc : Dom.document) (c : ColorAnalyzer.colors) :
  Spec.keyedAll c ->
  Spec.keyedAll (ColorAnalyzer.analyzeStyleSheets canvasFillStyle maxStack doc c).
Proof.
  intros Hc. unfold ColorAnalyzer.analyzeStyleSheets.
  apply fold_left_invariant; [|exact Hc]. clear. intros c [rules|] Hc; simpl; [|exact Hc].
  apply fold_left_invariant; [|exact Hc]. clear. intros c rule Hc.
  unfold ColorAnalyzer.analyzeRule. keyed_branches.
Qed.

Lemma analyzeKeyElements_keyed (doc : Dom.document) (c : ColorAnalyzer.colors) :
  Spec.keyedAll c ->
  Spec.keyedAll (ColorAnalyzer.analyzeKeyElements canvasFillStyle maxStack doc c).
Proof.
  intros Hc. unfold ColorAnalyzer.analyzeKeyElements.
  assert (H1 : Spec.keyedAll (ColorAnalyzer.keyBody canvasFillStyle maxStack doc c)).
  { unfold ColorAnalyzer.keyBody. keyed_branches. }
  assert (H2 : Spec.keyedAll (ColorAnalyzer.keyHtml canvasFillStyle maxStack doc
                                (ColorAnalyzer.keyBody canvasFillStyle maxStack doc c))).
  { unfold ColorAnalyzer.keyHtml. keyed_branches. }
  repeat (apply fold_left_invariant;
          [intros;
           unfold ColorAnalyzer.keyButton, ColorAnalyzer.keyHeading,
             ColorAnalyzer.keyContainer, ColorAnalyzer.keyInput; keyed_branches|]).
  exact H2.
Qed.

Lemma collected_keyed (doc : Dom.document) :
  Spec.keyedAll (Spec.collected canvasFillStyle maxStack doc).
Proof.
  apply analyzeKeyElements_keyed, analyzeStyleSheets_keyed.
  intros k. destruct k; constructor.
Qed.

End KeyedPasses.

Lemma has_hexesOf (c : ColorAnalyzer.colors) (k : ColorAnalyzer.category) (h : string) :
  Spec.keyedAll c ->
  (ColorAnalyzer.has (ColorAnalyzer.get c k) h = true <-> In h (Spec.hexesOf c k)).
Proof.
  intros Hc. rewrite has_keys. unfold Spec.hexesOf, ColorAnalyzer.values.
  rewrite map_map. specialize (Hc k). unfold Spec.keyed in Hc.
  induction Hc as [|kv m Hkv Hm IH]; simpl; [tauto|]. rewrite Hkv, IH. tauto.
Qed.

(** C1: no hex occurs twice in the palette, every record is tagged with a
    category whose map holds its hex, and that category is the first, in the
    order Primary, Accent, Background, Foreground, Border, of the categories
    whose map holds the hex; for the palette of [analyze], a hex that is
    both in the Primary and in the Background map is tagged Primary. *)
Theorem palette_dedup_priority :
  (forall c : ColorAnalyzer.colors,
      NoDup (map ColorAnalyzer.r_hex (ColorAnalyzer.buildColorPalette c))
      /\ Forall (Spec.fromMap c) (ColorAnalyzer.buildColorPalette c)
      /\ (forall r k,
             In r (ColorAnalyzer.buildColorPalette c) ->
             In (ColorAnalyzer.r_hex r) (Spec.hexesOf c k) ->
             (Spec.labelRank (ColorAnalyzer.r_category r) <= Spec.labelRank (Spec.label k))%nat))
  /\ (forall canvasFillStyle maxStack doc,
         let c := Spec.collected canvasFillStyle maxStack doc in
         let out := ColorAnalyzer.analyze canvasFillStyle maxStack doc in
         NoDup (map ColorAnalyzer.r_hex out)
         /\ (forall r,
                In r out ->
                ColorAnalyzer.has (ColorAnalyzer.get c ColorAnalyzer.primary)
                                  (ColorAnalyzer.r_hex r) = true ->
                ColorAnalyzer.has (ColorAnalyzer.get c ColorAnalyzer.background)
                                  (ColorAnalyzer.r_hex r) = true ->
                ColorAnalyzer.r_category r = "Primary")).
Proof.
  assert (G : forall c : ColorAnalyzer.colors,
      NoDup (map ColorAnalyzer.r_hex (ColorAnalyzer.buildColorPalette c))
      /\ Forall (Spec.fromMap c) (ColorAnalyzer.buildColorPalette c)).
  { intros c. split.
    - rewrite buildColorPalette_eq. apply firstn_NoDup_map, dedup_NoDup.
    - apply (buildColorPalette_facts c). }
  split.
  - intros c. destruct (G c) as [Hn Hf]. repeat split; auto.
    intros r k. apply palette_priority.
  - intros canvas n doc c out. subst out. unfold ColorAnalyzer.analyze.
    fold (Spec.collected canvas n doc). fold c.
    destruct (G c) as [Hn Hf]. split; [exact Hn|].
    intros r Hr Hp _. apply (labelRank_zero r c).
    + rewrite Forall_forall in Hf. auto.
    + apply (palette_priority c r ColorAnalyzer.primary Hr).
      apply has_hexesOf; [apply collected_keyed | exact Hp].
Qed.

Lemma palette_dedup_priority_witness :
  ColorAnalyzer.analyze Fixture.noCanvas 0 Fixture.blueDocument = [Fixture.blueRecord]
  /\ ColorAnalyzer.r_category Fixture.blueRecord = "Primary".
Proof.
  split; [reflexivity|].
  apply (proj2 (proj2 palette_dedup_priority Fixture.noCanvas 0%nat Fixture.blueDocument)
               Fixture.blueRecord).
  - left. reflexivity.
  - reflexivity.
  - reflexivity.
Defined.


(** ** ImageAnalyzer.getInlineSvgs *)

(** C8, as the code has it: an [svg] of 3 by 100 px, one side below 5, is
    reported. *)
Lemma getInlineSvgs_thin :
  map ImageAnalyzer.width (ImageAnalyzer.getInlineSvgs Fixture.noSerializer Fixture.svgDocument)
  = [ImageAnalyzer.DNum (JS.JInt 3)]
  /\ map ImageAnalyzer.height (ImageAnalyzer.getInlineSvgs Fixture.noSerializer Fixture.svgDocument)
     = [ImageAnalyzer.DNum (JS.JInt 100)].
Proof. split; reflexivity. Qed.

Lemma visitSvg_fold (ser : Dom.node -> string) (l : list Dom.element)
      (acc : list ImageAnalyzer.svgInfo) :
  fold_left (ImageAnalyzer.visitSvg ser) l acc =
  (acc ++ map (ImageAnalyzer.getSvgInfo ser)
              (filter (fun svg => Spec.atLeast5 (Dom.rectWidth (fst svg))
                                  || Spec.atLeast5 (Dom.rectHeight (fst svg))) l))%list.
Proof.
  revert acc. induction l as [|svg l IH]; intros acc; simpl.
  - now rewrite app_nil_r.
  - rewrite IH. unfold ImageAnalyzer.visitSvg, Spec.atLeast5.
    destruct (JS.flt (Dom.rectWidth (fst svg)) (JS.ofZ 5));
      destruct (JS.flt (Dom.rectHeight (fst svg)) (JS.ofZ 5)); simpl;
      rewrite <- ?app_assoc; reflexivity.
Qed.

(** C8 (amended): the result holds, in document order, the record of every
    [svg] element whose bounding box is at least 5 px wide or at least 5 px
    high; an [svg] is left out exactly when both sides are below 5 px. *)
Theorem getInlineSvgs_spec (ser : Dom.node -> string) (doc : Dom.document) :
  ImageAnalyzer.getInlineSvgs ser doc =
  map (ImageAnalyzer.getSvgInfo ser)
      (filter (fun svg => Spec.atLeast5 (Dom.rectWidth (fst svg))
                          || Spec.atLeast5 (Dom.rectHeight (fst svg)))
              (Dom.querySelectorAll doc "svg")).
Proof. unfold ImageAnalyzer.getInlineSvgs. now rewrite visitSvg_fold. Qed.

(** ** TypographyAnalyzer.analyzeBodyText *)

Section BodyText.

Variable doc : Dom.document.

Let accepts := Spec.accepts doc.

Lemma probe_first (pre post : list string) (sel : string) (start : option Dom.element) :
  forallb (fun s => negb (accepts s)) pre = true ->
  accepts sel = true ->
  TypographyAnalyzer.probe doc (pre ++ sel :: post) start = Dom.querySelector doc sel.
Proof.
  intros Hpre Hsel. revert start. induction pre as [|s pre IH]; intros start; simpl.
  - unfold accepts, Spec.accepts in Hsel. destruct (Dom.querySelector doc sel); [|discriminate].
    now rewrite Hsel.
  - simpl in Hpre. apply andb_true_iff in Hpre. destruct Hpre as [Hs Hpre].
    unfold accepts, Spec.accepts in Hs. destruct (Dom.querySelector doc s) as [e|].
    + apply negb_true_iff in Hs. rewrite Hs. now apply IH.
    + now apply IH.
Qed.

Lemma probe_none (sels : list string) (last : string) (start : option Dom.element) :
  forallb (fun s => negb (accepts s)) (sels ++ [last]) = true ->
  TypographyAnalyzer.probe doc (sels ++ [last]) start = Dom.querySelector doc last.
Proof.
  revert start. induction sels as [|s sels IH]; intros start; simpl; intros H;
    apply andb_true_iff in H; destruct H as [Hs H]; unfold accepts, Spec.accepts in Hs.
  - destruct (Dom.querySelector doc last) as [e|]; [|reflexivity].
    apply negb_true_iff in Hs. now rewrite Hs.
  - destruct (Dom.querySelector doc s) as [e|].
    + apply negb_true_iff in Hs. rewrite Hs. now apply IH.
    + now apply IH.
Qed.

(** The snapshot is taken from the first probed element with a text child. *)
Lemma bodyTextElement_first (pre post : list string) (sel : string) :
  TypographyAnalyzer.selectors = (pre ++ sel :: post)%list ->
  forallb (fun s => negb (accepts s)) pre = true ->
  accepts sel = true ->
  TypographyAnalyzer.bodyTextElement doc = Dom.querySelector doc sel
  /\ Dom.querySelector doc sel <> None.
Proof.
  intros E Hpre Hsel. unfold TypographyAnalyzer.bodyTextElement. rewrite E.
  rewrite (probe_first pre post sel None Hpre Hsel).
  unfold accepts, Spec.accepts in Hsel. destruct (Dom.querySelector doc sel); [|discriminate].
  split; [reflexivity | discriminate].
Qed.

(** When no probed element has a text child, the element found for
    [article], the last selector, stays in [element]; [document.body] is
    used only when there is no [article]. *)
Lemma bodyTextElement_none :
  forallb (fun s => negb (accepts s)) TypographyAnalyzer.selectors = true ->
  TypographyAnalyzer.bodyTextElement doc =
  match Dom.querySelector doc "article" with
  | Some el => Some el
  | None => Dom.body doc
  end.
Proof.
  intros H. unfold TypographyAnalyzer.bodyTextElement.
  change TypographyAnalyzer.selectors with (["p"; "body"; ".content"; "main"] ++ ["article"])%list in *.
  now rewrite (probe_none _ _ None H).
Qed.

End BodyText.

(** C4, at the page [<body><article><div>Hello</div></article></body>]: no
    probed element has a text child, and the snapshot is the one of the
    [article] (Georgia), not the one of [document.body] (Arial). *)
Theorem analyzeBodyText_article (numberToString : JS.number -> string) :
  forallb (fun s => negb (Spec.accepts Fixture.articleDocument s)) TypographyAnalyzer.selectors = true
  /\ Dom.body Fixture.articleDocument = Some Fixture.bodyEl
  /\ TypographyAnalyzer.bodyTextElement Fixture.articleDocument = Some Fixture.articleEl
  /\ option_map TypographyAnalyzer.b_fontFamily
       (TypographyAnalyzer.analyzeBodyText numberToString Fixture.articleDocument)
     = Some (Some "Georgia")
  /\ TypographyAnalyzer.b_fontFamily
       (TypographyAnalyzer.snapshot numberToString Fixture.bodyEl) = Some "Arial".
Proof. repeat split; reflexivity. Qed.


(** ** ColorAnalyzer.isNeutral and the key-element pass *)

Lemma get_addTo_other (c : ColorAnalyzer.colors) (k k' : ColorAnalyzer.category)
      (h src : string) (w : Z) :
  ColorAnalyzer.category_eqb k k' = false ->
  ColorAnalyzer.get (ColorAnalyzer.addTo c k h src w) k' = ColorAnalyzer.get c k'.
Proof. intros H. unfold ColorAnalyzer.addTo. now rewrite get_put, H. Qed.

(** Goals [get (if .. then addTo c k .. else ..) k' = get c k'] with [k]
    other than [k']. *)
Ltac untouched :=
  repeat match goal with
         | |- ColorAnalyzer.get (if ?b then _ else _) _ = _ => destruct b
         | |- ColorAnalyzer.get (match ?x with _ => _ end) _ = _ => destruct x
         | |- ColorAnalyzer.get (ColorAnalyzer.addTo _ _ _ _ _) _ = _ =>
             rewrite get_addTo_other by reflexivity
         end; try reflexivity.

Section KeyElements.

Variable canvasFillStyle : string -> option string.
Variable maxStack : nat.

Let toHex := ColorAnalyzer.toHex canvasFillStyle maxStack.
Let keyButton := ColorAnalyzer.keyButton canvasFillStyle maxStack.
Let keyLink := ColorAnalyzer.keyLink canvasFillStyle maxStack.
Let analyzeKeyElements := ColorAnalyzer.analyzeKeyElements canvasFillStyle maxStack.

Lemma keyButton_background_fails (c : ColorAnalyzer.colors) (btn : Dom.element) :
  toHex (Dom.backgroundColor (Dom.getComputedStyle btn)) = None ->
  ColorAnalyzer.get (keyButton c btn) ColorAnalyzer.primary
  = ColorAnalyzer.get c ColorAnalyzer.primary.
Proof.
  intros H. unfold keyButton, ColorAnalyzer.keyButton. fold toHex. rewrite H.
  cbn [ColorAnalyzer.truthyOpt andb]. untouched.
Qed.

Lemma keyButton_text_fails (c : ColorAnalyzer.colors) (btn : Dom.element) :
  toHex (Dom.color (Dom.getComputedStyle btn)) = None ->
  ColorAnalyzer.get (keyButton c btn) ColorAnalyzer.accent
  = ColorAnalyzer.get c ColorAnalyzer.accent.
Proof.
  intros H. unfold keyButton, ColorAnalyzer.keyButton. fold toHex. rewrite H.
  cbn [ColorAnalyzer.truthyOpt andb]. untouched.
Qed.

Lemma keyLink_fails (linkColors : list string) (link : Dom.element) :
  toHex (Dom.color (Dom.getComputedStyle link)) = None ->
  keyLink linkColors link = linkColors.
Proof.
  intros H. unfold keyLink, ColorAnalyzer.keyLink. fold toHex. now rewrite H.
Qed.

Lemma fold_left_get {X : Type} (f : ColorAnalyzer.colors -> X -> ColorAnalyzer.colors)
      (k : ColorAnalyzer.category) (l : list X) (c : ColorAnalyzer.colors) :
  Forall (fun x => forall s, ColorAnalyzer.get (f s x) k = ColorAnalyzer.get s k) l ->
  ColorAnalyzer.get (fold_left f l c) k = ColorAnalyzer.get c k.
Proof.
  intros H. revert c. induction H as [|x l Hx Hl IH]; intros c; simpl; [reflexivity|].
  now rewrite IH, Hx.
Qed.

Lemma fold_left_get_all {X : Type} (f : ColorAnalyzer.colors -> X -> ColorAnalyzer.colors)
      (k : ColorAnalyzer.category) (l : list X) (c : ColorAnalyzer.colors) :
  (forall x s, ColorAnalyzer.get (f s x) k = ColorAnalyzer.get s k) ->
  ColorAnalyzer.get (fold_left f l c) k = ColorAnalyzer.get c k.
Proof. intros H. apply fold_left_get, Forall_forall. auto. Qed.

Lemma keyLinks_fail (links : list Dom.element) (linkColors : list string) :
  Forall (fun link => toHex (Dom.color (Dom.getComputedStyle link)) = None) links ->
  fold_left keyLink links linkColors = linkColors.
Proof.
  intros H. revert linkColors. induction H as [|x l Hx Hl IH]; intros lc; simpl; [reflexivity|].
  now rewrite keyLink_fails, IH.
Qed.

(** Outside the buttons and the links, the pass leaves the Primary and the
    Accent map alone. *)
Lemma keyBody_get (doc : Dom.document) (c : ColorAnalyzer.colors) (k : ColorAnalyzer.category) :
  k = ColorAnalyzer.primary \/ k = ColorAnalyzer.accent ->
  ColorAnalyzer.get (ColorAnalyzer.keyBody canvasFillStyle maxStack doc c) k
  = ColorAnalyzer.get c k.
Proof. intros [->| ->]; unfold ColorAnalyzer.keyBody; untouched. Qed.

Lemma keyHtml_get (doc : Dom.document) (c : ColorAnalyzer.colors) (k : ColorAnalyzer.category) :
  k = ColorAnalyzer.primary \/ k = ColorAnalyzer.accent ->
  ColorAnalyzer.get (ColorAnalyzer.keyHtml canvasFillStyle maxStack doc c) k
  = ColorAnalyzer.get c k.
Proof. intros [->| ->]; unfold ColorAnalyzer.keyHtml; untouched. Qed.

Lemma keyRest_get (c : ColorAnalyzer.colors) (el : Dom.element) (k : ColorAnalyzer.category) :
  k = ColorAnalyzer.primary \/ k = ColorAnalyzer.accent ->
  ColorAnalyzer.get (ColorAnalyzer.keyHeading canvasFillStyle maxStack c el) k
  = ColorAnalyzer.get c k
  /\ ColorAnalyzer.get (ColorAnalyzer.keyContainer canvasFillStyle maxStack c el) k
     = ColorAnalyzer.get c k
  /\ ColorAnalyzer.get (ColorAnalyzer.keyInput canvasFillStyle maxStack c el) k
     = ColorAnalyzer.get c k.
Proof.
  intros [->| ->]; repeat split;
    unfold ColorAnalyzer.keyHeading, ColorAnalyzer.keyContainer, ColorAnalyzer.keyInput;
    untouched.
Qed.

Lemma links_primary (l : list string) (c : ColorAnalyzer.colors) :
  ColorAnalyzer.get (fold_left (fun c h => ColorAnalyzer.addTo c ColorAnalyzer.accent h "link" 80) l c)
                    ColorAnalyzer.primary
  = ColorAnalyzer.get c ColorAnalyzer.primary.
Proof. apply fold_left_get_all. intros. untouched. Qed.

Lemma analyzeKeyElements_primary (doc : Dom.document) (c : ColorAnalyzer.colors) :
  Forall (fun btn => toHex (Dom.backgroundColor (Dom.getComputedStyle btn)) = None)
         (Dom.querySelectorAll doc ColorAnalyzer.buttonSelector) ->
  ColorAnalyzer.get (analyzeKeyElements doc c) ColorAnalyzer.primary
  = ColorAnalyzer.get c ColorAnalyzer.primary.
Proof.
  intros H. unfold analyzeKeyElements, ColorAnalyzer.analyzeKeyElements.
  rewrite fold_left_get_all by (intros; apply keyRest_get; auto).
  rewrite fold_left_get_all by (intros; apply keyRest_get; auto).
  rewrite fold_left_get_all by (intros; apply keyRest_get; auto).
  rewrite links_primary.
  rewrite fold_left_get.
  - rewrite keyHtml_get, keyBody_get; auto.
  - eapply Forall_impl; [|exact H]. intros btn Hb s. now apply keyButton_background_fails.
Qed.

Lemma analyzeKeyElements_accent (doc : Dom.document) (c : ColorAnalyzer.colors) :
  Forall (fun btn => toHex (Dom.color (Dom.getComputedStyle btn)) = None)
         (Dom.querySelectorAll doc ColorAnalyzer.buttonSelector) ->
  Forall (fun link => toHex (Dom.color (Dom.getComputedStyle link)) = None)
         (Dom.querySelectorAll doc "a[href]") ->
  ColorAnalyzer.get (analyzeKeyElements doc c) ColorAnalyzer.accent
  = ColorAnalyzer.get c ColorAnalyzer.accent.
Proof.
  intros Hb Hl. unfold analyzeKeyElements, ColorAnalyzer.analyzeKeyElements.
  rewrite fold_left_get_all by (intros; apply keyRest_get; auto).
  rewrite fold_left_get_all by (intros; apply keyRest_get; auto).
  rewrite fold_left_get_all by (intros; apply keyRest_get; auto).
  fold keyLink. rewrite (keyLinks_fail _ _ Hl). cbn [fold_left].
  rewrite fold_left_get.
  - rewrite keyHtml_get, keyBody_get; auto.
  - eapply Forall_impl; [|exact Hb]. intros btn H s. now apply keyButton_text_fails.
Qed.

End KeyElements.

(** C10: [isNeutral] is true for [null] and for the empty string, hence for
    the result of a failed [toHex]; a button whose background colour fails
    to normalize adds nothing to the Primary map, a button whose text colour
    fails adds nothing to the Accent map, a link whose colour fails adds
    nothing to the link colours; and when all of them fail, the key-element
    pass leaves the Primary and the Accent map as they were. *)
Theorem failed_toHex_not_added (canvasFillStyle : string -> option string) (maxStack : nat) :
  let toHex := ColorAnalyzer.toHex canvasFillStyle maxStack in
  ColorAnalyzer.isNeutral None = true
  /\ ColorAnalyzer.isNeutral (Some EmptyString) = true
  /\ (forall color, toHex color = None -> ColorAnalyzer.isNeutral (toHex color) = true)
  /\ (forall c btn,
        toHex (Dom.backgroundColor (Dom.getComputedStyle btn)) = None ->
        ColorAnalyzer.get (ColorAnalyzer.keyButton canvasFillStyle maxStack c btn)
                          ColorAnalyzer.primary
        = ColorAnalyzer.get c ColorAnalyzer.primary)
  /\ (forall c btn,
        toHex (Dom.color (Dom.getComputedStyle btn)) = None ->
        ColorAnalyzer.get (ColorAnalyzer.keyButton canvasFillStyle maxStack c btn)
                          ColorAnalyzer.accent
        = ColorAnalyzer.get c ColorAnalyzer.accent)
  /\ (forall linkColors link,
        toHex (Dom.color (Dom.getComputedStyle link)) = None ->
        ColorAnalyzer.keyLink canvasFillStyle maxStack linkColors link = linkColors)
  /\ (forall doc c,
        Forall (fun btn => toHex (Dom.backgroundColor (Dom.getComputedStyle btn)) = None)
               (Dom.querySelectorAll doc ColorAnalyzer.buttonSelector) ->
        ColorAnalyzer.get (ColorAnalyzer.analyzeKeyElements canvasFillStyle maxStack doc c)
                          ColorAnalyzer.primary
        = ColorAnalyzer.get c ColorAnalyzer.primary)
  /\ (forall doc c,
        Forall (fun btn => toHex (Dom.color (Dom.getComputedStyle btn)) = None)
               (Dom.querySelectorAll doc ColorAnalyzer.buttonSelector) ->
        Forall (fun link => toHex (Dom.color (Dom.getComputedStyle link)) = None)
               (Dom.querySelectorAll doc "a[href]") ->
        ColorAnalyzer.get (ColorAnalyzer.analyzeKeyElements canvasFillStyle maxStack doc c)
                          ColorAnalyzer.accent
        = ColorAnalyzer.get c ColorAnalyzer.accent).
Proof.
  intros toHex. repeat split.
  - intros color H. now rewrite H.
  - apply keyButton_background_fails.
  - apply keyButton_text_fails.
  - apply keyLink_fails.
  - apply analyzeKeyElements_primary.
  - apply analyzeKeyElements_accent.
Qed.

Lemma failed_toHex_not_added_witness :
  ColorAnalyzer.toHex Fixture.noCanvas 0 "transparent" = None
  /\ ColorAnalyzer.get
       (ColorAnalyzer.keyButton Fixture.noCanvas 0 ColorAnalyzer.emptyColors Fixture.ghostButton)
       ColorAnalyzer.primary = [].
Proof.
  split; [reflexivity|].
  apply (proj1 (proj2 (proj2 (proj2 (failed_toHex_not_added Fixture.noCanvas 0%nat))))
               ColorAnalyzer.emptyColors Fixture.ghostButton).
  reflexivity.
Defined.


(** ** TypographyAnalyzer.normalizeLineHeight *)

Lemma length_app (a b : string) :
  String.length (a ++ b) = (String.length a + String.length b)%nat.
Proof. induction a as [|c a IH]; simpl; [reflexivity | now rewrite IH]. Qed.

Lemma substring_skip (a b : string) (m : nat) :
  substring (String.length a) m (a ++ b) = substring 0 m b.
Proof. induction a as [|c a IH]; simpl; [reflexivity | exact IH]. Qed.

Lemma substring_all (b : string) : substring 0 (String.length b) b = b.
Proof. induction b as [|c b IH]; simpl; [reflexivity | now rewrite IH]. Qed.

Lemma substring_cut (s : string) (n : nat) :
  (n <= String.length s)%nat ->
  s = substring 0 n s ++ substring n (String.length s - n) s.
Proof.
  revert n. induction s as [|c s IH]; intros [|n] H; simpl in *; try reflexivity; try lia.
  - now rewrite substring_all.
  - rewrite <- IH by lia. destruct n; reflexivity.
Qed.

Lemma endsWith_spec (s suffix : string) :
  JS.endsWith s suffix = true <-> Spec.endsIn s suffix.
Proof.
  unfold JS.endsWith, Spec.endsIn. rewrite andb_true_iff, Nat.leb_le, String.eqb_eq. split.
  - intros [Hle Hs]. exists (substring 0 (String.length s - String.length suffix) s).
    pose proof (substring_cut s (String.length s - String.length suffix) ltac:(lia)) as E.
    replace (String.length s - (String.length s - String.length suffix))%nat
      with (String.length suffix) in E by lia.
    now rewrite Hs in E.
  - intros [pre ->]. rewrite length_app. split; [lia|].
    replace (String.length pre + String.length suffix - String.length suffix)%nat
      with (String.length pre) by lia.
    now rewrite substring_skip, substring_all.
Qed.

(** The integer whose digits toFixed(2) prints is the nearest one to a
    hundred times the value. *)
Lemma scaled2_nearest (m : positive) (e : Z) :
  Spec.nearestHundredths m e (JS.scaled2 m e).
Proof.
  unfold Spec.nearestHundredths, JS.scaled2. destruct (Z.leb_spec 0 e) as [He|He]; [ring|].
  replace (1 - e) with (Z.succ (- e)) by lia. rewrite Z.pow_succ_r by lia.
  assert (Hd : 0 < 2 ^ (- e)) by (apply Z.pow_pos_nonneg; lia).
  set (d := 2 ^ (- e)) in *. set (a := 200 * Z.pos m + d).
  pose proof (Z.div_mod a (2 * d) ltac:(lia)) as Hdm.
  pose proof (Z.mod_pos_bound a (2 * d) ltac:(lia)) as Hb.
  set (q := a / (2 * d)) in *. set (r := a mod (2 * d)) in *.
  unfold a in Hdm. clearbody q r d. lia.
Qed.

(** C9, as the code has it: a line-height in px over a font-size of zero,
    and a line-height in another absolute unit, are passed through. *)
Lemma normalizeLineHeight_passes :
  TypographyAnalyzer.normalizeLineHeight Fixture.noLarge "24px" "0px" = "24px"
  /\ TypographyAnalyzer.normalizeLineHeight Fixture.noLarge "18pt" "12pt" = "18pt".
Proof. split; reflexivity. Qed.

(** C9 (amended): the result is "1.2" for the keyword normal; for a
    line-height that ends in px, with a font-size that parses to a Number
    above 0, it is the quotient of the two parsed Numbers printed by
    toFixed(2), that is with the digits of the nearest number of hundredths;
    in every other case it is the line-height as given.  In particular
    ("24px", "16px") gives "1.50" and ("normal", "16px") gives "1.2". *)
Theorem normalizeLineHeight_spec (large : JS.number -> string) (lineHeight fontSize : string) :
  let result := TypographyAnalyzer.normalizeLineHeight large lineHeight fontSize in
  let ratio := JS.fdiv (JS.parseFloat lineHeight) (JS.parseFloat fontSize) in
  (lineHeight = "normal" -> result = "1.2")
  /\ (lineHeight <> "normal" -> Spec.endsIn lineHeight "px" ->
      JS.flt (JS.ofZ 0) (JS.parseFloat fontSize) = true ->
      result = JS.toFixed2 large ratio
      /\ forall s m e,
           ratio = S754_finite s m e ->
           JS.flt (S754_finite false m e) (JS.ofZ (10 ^ 21)) = true ->
           exists n, Spec.nearestHundredths m e n
                     /\ result = (if s then "-" else EmptyString) ++ JS.insertPoint2 n)
  /\ (lineHeight <> "normal" ->
      ~ Spec.endsIn lineHeight "px" \/ JS.flt (JS.ofZ 0) (JS.parseFloat fontSize) = false ->
      result = lineHeight)
  /\ TypographyAnalyzer.normalizeLineHeight large "24px" "16px" = "1.50"
  /\ TypographyAnalyzer.normalizeLineHeight large "normal" "16px" = "1.2".
Proof.
  intros result ratio. subst result. unfold TypographyAnalyzer.normalizeLineHeight.
  pose proof (endsWith_spec lineHeight "px") as Hpx.
  split; [|split; [|split; [|split; reflexivity]]].
  - intros ->. reflexivity.
  - intros Hn Hend Hfs. apply String.eqb_neq in Hn. rewrite Hn.
    apply Hpx in Hend. rewrite Hend, Hfs. fold ratio. split; [reflexivity|].
    intros s m e -> Hlt. exists (JS.scaled2 m e). split; [apply scaled2_nearest|].
    unfold JS.toFixed2. now rewrite Hlt.
  - intros Hn H. apply String.eqb_neq in Hn. rewrite Hn.
    destruct (JS.endsWith lineHeight "px") eqn:E; [|reflexivity].
    destruct H as [H|H]; [exfalso; apply H; now apply Hpx | now rewrite H].
Qed.

Lemma normalizeLineHeight_spec_witness :
  TypographyAnalyzer.normalizeLineHeight Fixture.noLarge "19.2px" "16px" = "1.20".
Proof.
  destruct (normalizeLineHeight_spec Fixture.noLarge "19.2px" "16px") as [_ [H _]].
  destruct H as [H _].
  - discriminate.
  - now exists "19.2".
  - reflexivity.
  - rewrite H. reflexivity.
Defined.


(** ** TypographyAnalyzer.analyzeFontFamilies *)

Lemma countElement_fold (els : list Dom.element) (m : TypographyAnalyzer.fontMap) (t : Z) :
  fold_left TypographyAnalyzer.countElement els (m, t) =
  (fold_left TypographyAnalyzer.bump (Spec.familiesOf els) m,
   t + Z.of_nat (List.length (Spec.familiesOf els))).
Proof.
  revert m t. induction els as [|el els IH]; intros m t; simpl.
  - f_equal. lia.
  - unfold Spec.familyOf.
    destruct (TypographyAnalyzer.hasTextContent el); simpl; [|apply IH].
    destruct (TypographyAnalyzer.cleanFontFamily _) as [f|]; [|apply IH].
    destruct (JS.truthy f); [|apply IH].
    rewrite IH. simpl. f_equal. lia.
Qed.

Lemma bump_countIn (m : TypographyAnalyzer.fontMap) (k k' : string) :
  Spec.countIn (TypographyAnalyzer.bump m k) k' =
  Spec.countIn m k' + (if String.eqb k k' then 1 else 0).
Proof.
  induction m as [|[k0 n] m IH]; simpl.
  - destruct (String.eqb k k'); lia.
  - destruct (String.eqb_spec k0 k) as [->|Hk]; simpl.
    + destruct (String.eqb k k'); lia.
    + destruct (String.eqb_spec k0 k') as [->|Hk'].
      * apply String.eqb_neq in Hk. rewrite String.eqb_sym in Hk. rewrite Hk. lia.
      * apply IH.
Qed.

Lemma bump_keys (m : TypographyAnalyzer.fontMap) (k k' : string) :
  In k' (map fst (TypographyAnalyzer.bump m k)) <-> In k' (map fst m) \/ k' = k.
Proof.
  induction m as [|[k0 n] m IH]; simpl; [intuition|].
  destruct (String.eqb_spec k0 k) as [->|Hk]; simpl; [intuition|].
  rewrite IH. intuition.
Qed.

Lemma bump_NoDup (m : TypographyAnalyzer.fontMap) (k : string) :
  NoDup (map fst m) -> NoDup (map fst (TypographyAnalyzer.bump m k)).
Proof.
  induction m as [|[k0 n] m IH]; simpl; intros H.
  - repeat constructor. intros [].
  - inversion H; subst. destruct (String.eqb_spec k0 k) as [->|Hk]; simpl.
    + now constructor.
    + constructor; [|now apply IH]. rewrite bump_keys. intuition.
Qed.

Lemma countIn_In (m : TypographyAnalyzer.fontMap) (k : string) (n : Z) :
  NoDup (map fst m) -> In (k, n) m -> Spec.countIn m k = n.
Proof.
  induction m as [|[k0 n0] m IH]; simpl; intros Hn H; [destruct H|].
  destruct H as [H|H]; inversion Hn; subst.
  - injection H as -> ->. now rewrite String.eqb_refl.
  - destruct (String.eqb_spec k0 k) as [->|Hk]; [|now apply IH].
    exfalso. apply H2. apply in_map_iff. now exists (k, n).
Qed.

(** The font map after the loop: distinct families, each with the number
    of qualifying elements that resolve to it. *)
Lemma bump_fold (fams : list string) (m : TypographyAnalyzer.fontMap) :
  NoDup (map fst m) ->
  let m' := fold_left TypographyAnalyzer.bump fams m in
  NoDup (map fst m')
  /\ (forall k, Spec.countIn m' k = Spec.countIn m k + Spec.occurrences k fams)
  /\ (forall k, In k (map fst m') <-> In k (map fst m) \/ In k fams).
Proof.
  revert m. induction fams as [|f fams IH]; intros m Hm; simpl.
  - repeat split; auto; try tauto. intros k. unfold Spec.occurrences. simpl. lia.
  - destruct (IH (TypographyAnalyzer.bump m f) (bump_NoDup m f Hm)) as [H1 [H2 H3]].
    repeat split; [exact H1| | |].
    + intros k. rewrite H2, bump_countIn. unfold Spec.occurrences. simpl.
      destruct (string_dec f k) as [->|Hne].
      * rewrite String.eqb_refl. lia.
      * apply String.eqb_neq in Hne. rewrite Hne. lia.
    + intros Hk. apply H3 in Hk. rewrite bump_keys in Hk. intuition.
    + intros Hk. apply H3. rewrite bump_keys. intuition.
Qed.

(** The comparator of the sort is consistent on the usages that pass the
    filter. *)
Lemma compareDiff_total (a b : JS.integral) :
  JS.geZ a 1 = true -> JS.geZ b 1 = true ->
  JS.compareDiff b a <= 0 \/ JS.compareDiff a b <= 0.
Proof.
  destruct a as [|[|]|x], b as [|[|]|y]; simpl; try discriminate; intros _ _; lia.
Qed.

Lemma compareDiff_le (a b : JS.integral) :
  JS.geZ a 1 = true -> JS.geZ b 1 = true ->
  (JS.compareDiff b a <= 0 <-> Spec.integralLe b a).
Proof.
  destruct a as [|[|]|x], b as [|[|]|y]; simpl; try discriminate; intros _ _;
    try lia; try (split; intros; try lia; intuition congruence).
Qed.

Lemma integralLe_trans (a b c : JS.integral) :
  Spec.integralLe a b -> Spec.integralLe b c -> Spec.integralLe a c.
Proof.
  destruct a as [|[|]|x], b as [|[|]|y], c as [|[|]|z]; simpl;
    intros; try lia; intuition congruence.
Qed.

Lemma filter_keeps_NoDup {A B : Type} (keep : A -> bool) (l : list A) (f : A -> B)
      (H : NoDup (map f l)) :
  NoDup (map f (filter keep l)).
Proof.
  rename keep into p. induction l as [|x l IH]; simpl; [constructor|]. simpl in H.
  inversion H; subst. destruct (p x); simpl; [constructor|]; auto.
  intros Hin. apply H2. apply in_map_iff in Hin. destruct Hin as [y [Hy Hin]].
  apply filter_In in Hin. apply in_map_iff. exists y. tauto.
Qed.

Lemma StronglySorted_weaken_In {A : Type} (R R' : A -> A -> Prop) (l : list A) :
  (forall a b, In a l -> In b l -> R a b -> R' a b) ->
  StronglySorted R l -> StronglySorted R' l.
Proof.
  intros HR H. induction H as [|x l H IH Hx]; constructor.
  - apply IH. intros a b Ha Hb. apply HR; now right.
  - rewrite Forall_forall in *. intros y Hy. apply HR; [now left | now right | auto].
Qed.

(** [Math.round] gives the nearest integer, the larger one on a tie. *)
Lemma Math_round_nearest (x : JS.number) : Spec.nearestInteger x (JS.Math_round x).
Proof.
  destruct x as [s|s| |s m e]; cbn [Spec.nearestInteger JS.Math_round]; try reflexivity.
  destruct (0 <=? e) eqn:E.
  - eexists. split; reflexivity.
  - eexists. split; [reflexivity|]. cbv zeta. apply Z.leb_gt in E.
    set (v := if s then Z.neg m else Z.pos m).
    replace (1 - e) with (Z.succ (- e)) by lia. rewrite Z.pow_succ_r by lia.
    assert (Hd : 0 < 2 ^ (- e)) by (apply Z.pow_pos_nonneg; lia).
    set (d := 2 ^ (- e)) in *. clearbody d v.
    pose proof (Z.div_mod (2 * v + d) (2 * d) ltac:(lia)) as Hq.
    pose proof (Z.mod_pos_bound (2 * v + d) (2 * d) ltac:(lia)) as Hr.
    set (q := (2 * v + d) / (2 * d)) in *. set (r := (2 * v + d) mod (2 * d)) in *.
    clearbody q r. nia.
Qed.

(** C7: the result has at most 10 records, in descending order of usage;
    the families are distinct; each record has usage at least 1, names the
    family of some qualifying element, and its usage is the Number
    (count / total) * 100, for the number of qualifying elements with that
    family and the number of all qualifying elements, rounded to the nearest
    integer, the larger one on a tie.  A family whose usage is at least 1 is
    in the result, unless the result is full, with 10 records whose usage is
    not below the one of the family. *)
Theorem analyzeFontFamilies_spec (doc : Dom.document) :
  let fams := Spec.familiesOf (Dom.querySelectorAll doc "*") in
  let total := Z.of_nat (List.length fams) in
  let out := TypographyAnalyzer.analyzeFontFamilies doc in
  let percent := fun k =>
    JS.fmul (JS.fdiv (JS.ofZ (Spec.occurrences k fams)) (JS.ofZ total)) (JS.ofZ 100) in
  (List.length out <= 10)%nat
  /\ StronglySorted
       (fun a b => Spec.integralLe (TypographyAnalyzer.usage b) (TypographyAnalyzer.usage a)) out
  /\ NoDup (map TypographyAnalyzer.name out)
  /\ Forall (fun font =>
               JS.geZ (TypographyAnalyzer.usage font) 1 = true
               /\ In (TypographyAnalyzer.name font) fams
               /\ TypographyAnalyzer.usage font
                  = JS.Math_round (percent (TypographyAnalyzer.name font))
               /\ Spec.nearestInteger (percent (TypographyAnalyzer.name font))
                                      (TypographyAnalyzer.usage font)) out
  /\ Forall (fun k =>
               JS.geZ (JS.Math_round (percent k)) 1 = true ->
               In k (map TypographyAnalyzer.name out)
               \/ (List.length out = 10%nat
                   /\ Forall (fun font =>
                                Spec.integralLe (JS.Math_round (percent k))
                                                (TypographyAnalyzer.usage font)) out)) fams.
Proof.
  intros fams total out percent. subst out percent.
  unfold TypographyAnalyzer.analyzeFontFamilies.
  rewrite countElement_fold. fold fams. simpl Z.add. fold total.
  destruct (bump_fold fams [] (NoDup_nil _)) as [Hn [Hc Hk]].
  set (m := fold_left TypographyAnalyzer.bump fams []) in *.
  set (mk := fun '(name_, count) =>
               {| TypographyAnalyzer.name := name_;
                  TypographyAnalyzer.usage := TypographyAnalyzer.usageOf count total |}).
  set (keep := fun font : TypographyAnalyzer.fontUsage => JS.geZ (TypographyAnalyzer.usage font) 1).
  set (cmp := fun a b : TypographyAnalyzer.fontUsage =>
                JS.compareDiff (TypographyAnalyzer.usage b) (TypographyAnalyzer.usage a)).
  assert (Hname : map TypographyAnalyzer.name (map mk m) = map fst m).
  { rewrite map_map. apply map_ext. now intros [k n]. }
  assert (Hkeep : Forall (fun f => keep f = true) (filter keep (map mk m))).
  { apply Forall_forall. intros f Hf. now apply filter_In in Hf. }
  set (L := ColorAnalyzer.sort cmp (filter keep (map mk m))).
  assert (Hsorted : StronglySorted
                      (fun a b => Spec.integralLe (TypographyAnalyzer.usage b)
                                                  (TypographyAnalyzer.usage a)) L).
  { apply (StronglySorted_weaken_In (fun a b => cmp a b <= 0)).
    + intros a b Ha Hb. apply sort_In in Ha, Hb. rewrite Forall_forall in Hkeep.
      apply compareDiff_le; [apply (Hkeep a Ha) | apply (Hkeep b Hb)].
    + apply (sort_sorted cmp (fun f => keep f = true)); [| |exact Hkeep].
      * intros a b Ha Hb. unfold cmp. apply compareDiff_total; assumption.
      * intros a b c Ha Hb Hc'. unfold cmp.
        rewrite !compareDiff_le by assumption. intros H1 H2.
        eapply integralLe_trans; eassumption. }
  split; [|split; [|split; [|split]]].
  - apply firstn_le_length.
  - apply StronglySorted_firstn, Hsorted.
  - apply firstn_NoDup_map.
    eapply Permutation_NoDup; [apply Permutation_map; symmetry; apply sort_perm|].
    apply filter_keeps_NoDup. now rewrite Hname.
  - apply Forall_forall. intros f Hf.
    apply In_firstn_incl, sort_In, filter_In in Hf. destruct Hf as [Hf Hge].
    apply in_map_iff in Hf. destruct Hf as [[k n] [<- Hin]]. simpl.
    assert (En : n = Spec.occurrences k fams).
    { rewrite <- (countIn_In m k n Hn Hin), Hc. reflexivity. }
    split; [exact Hge|]. split; [|split].
    + destruct (proj1 (Hk k)) as [[]|H]; [|exact H]. apply in_map_iff. now exists (k, n).
    + now rewrite En.
    + rewrite En. apply Math_round_nearest.
  - apply Forall_forall. intros k Hin Hge.
    assert (Hkm : In k (map fst m)) by (apply Hk; now right).
    apply in_map_iff in Hkm. destruct Hkm as [[k' n] [Hk' Hkn]]. simpl in Hk'. subst k'.
    assert (En : n = Spec.occurrences k fams).
    { rewrite <- (countIn_In m k n Hn Hkn), Hc. reflexivity. }
    assert (HL : In (mk (k, n)) L).
    { apply sort_In, filter_In. split; [apply in_map; exact Hkn|].
      unfold keep. simpl. rewrite En. exact Hge. }
    destruct (in_split _ _ HL) as (l1 & l2 & EL).
    destruct (Nat.lt_ge_cases (List.length l1) 10) as [Hlt|Hge10].
    + left. apply in_map_iff. exists (mk (k, n)). split; [reflexivity|].
      rewrite EL. now apply firstn_reaches.
    + right. rewrite EL, firstn_before by exact Hge10. split.
      * rewrite length_firstn. lia.
      * apply Forall_forall. intros f Hf. apply In_firstn_incl in Hf.
        rewrite EL in Hsorted.
        pose proof (StronglySorted_before _ _ _ _ _ Hsorted Hf) as Hle.
        cbn in Hle. rewrite En in Hle. exact Hle.
Qed.

Example analyzeFontFamilies_fontDocument :
  TypographyAnalyzer.analyzeFontFamilies Fixture.fontDocument =
  [ {| TypographyAnalyzer.name := "Georgia"; TypographyAnalyzer.usage := JS.JInt 67 |};
    {| TypographyAnalyzer.name := "Arial"; TypographyAnalyzer.usage := JS.JInt 33 |} ].
Proof. reflexivity. Qed.

Lemma analyzeFontFamilies_spec_witness :
  TypographyAnalyzer.usage
    (nth 0 (TypographyAnalyzer.analyzeFontFamilies Fixture.fontDocument)
         {| TypographyAnalyzer.name := EmptyString; TypographyAnalyzer.usage := JS.JNaN |})
  = JS.JInt 67
  /\ Spec.nearestInteger (JS.fmul (JS.fdiv (JS.ofZ 2) (JS.ofZ 3)) (JS.ofZ 100)) (JS.JInt 67).
Proof.
  pose proof (analyzeFontFamilies_spec Fixture.fontDocument) as [_ [_ [_ [H _]]]].
  cbv zeta in H. rewrite analyzeFontFamilies_fontDocument in H.
  inversion H as [|f l [_ [_ [Hu Hn]]] _]; subst. split; [reflexivity|]. exact Hn.
Defined.


(** ** ColorAnalyzer.toHex *)

(** *** Checks over all characters and over all channel values *)

Lemma forall_ascii (P : ascii -> bool) :
  forallb P Spec.allAscii = true -> forall c, P c = true.
Proof.
  intros H c. rewrite forallb_forall in H. apply H.
  unfold Spec.allAscii. apply in_map_iff. exists (nat_of_ascii c). split.
  - apply ascii_nat_embedding.
  - apply in_seq. pose proof (nat_ascii_bounded c). lia.
Qed.

Lemma forall_byte (P : Z -> bool) :
  forallb P Spec.allBytes = true -> forall v, 0 <= v <= 255 -> P v = true.
Proof.
  intros H v Hv. rewrite forallb_forall in H. apply H.
  unfold Spec.allBytes. apply in_map_iff. exists (Z.to_nat v). split; [lia|].
  apply in_seq. lia.
Qed.

Lemma digit_facts (c : ascii) :
  JS.isDigit c = true ->
  JS.isSpace c = false /\ Ascii.eqb c "-" = false /\ Ascii.eqb c "+" = false
  /\ Ascii.eqb c "x" = false /\ Ascii.eqb c "X" = false
  /\ JS.isRadixDigit 10 c = true /\ JS.digitValue c = Some (JS.code c - 48)
  /\ 0 <= JS.code c - 48 <= 9.
Proof.
  revert c. 
  assert (H : forall c, (implb (JS.isDigit c)
              (negb (JS.isSpace c) && negb (Ascii.eqb c "-") && negb (Ascii.eqb c "+")
               && negb (Ascii.eqb c "x") && negb (Ascii.eqb c "X")
               && JS.isRadixDigit 10 c
               && match JS.digitValue c with Some v => v =? JS.code c - 48 | None => false end
               && (0 <=? JS.code c - 48) && (JS.code c - 48 <=? 9))) = true).
  { apply forall_ascii. vm_compute. reflexivity. }
  intros c Hc. specialize (H c). rewrite Hc in H. simpl in H.
  repeat (apply andb_true_iff in H; destruct H as [H ?]).
  repeat match goal with H : negb _ = true |- _ => apply negb_true_iff in H end.
  destruct (JS.digitValue c) as [v|]; [|discriminate].
  repeat split; auto; try lia. f_equal. lia.
Qed.

Lemma space_facts (c : ascii) :
  JS.isSpace c = true -> JS.isDigit c = false /\ Ascii.eqb c "a" = false.
Proof.
  revert c.
  assert (H : forall c, implb (JS.isSpace c)
                          (negb (JS.isDigit c) && negb (Ascii.eqb c "a")) = true).
  { apply forall_ascii. vm_compute. reflexivity. }
  intros c Hc. specialize (H c). rewrite Hc in H. simpl in H.
  apply andb_true_iff in H. destruct H as [H1 H2].
  now rewrite negb_true_iff in H1, H2.
Qed.

(** *** Scanning a string of a known shape *)

Lemma append_nil_r (a : string) : a ++ EmptyString = a.
Proof. induction a as [|x a IH]; simpl; [reflexivity | now rewrite IH]. Qed.

Lemma takeWhile_app (p : ascii -> bool) (w r : string) :
  Spec.allOf p w = true -> Spec.startsOutside p r = true ->
  JS.takeWhile p (w ++ r) = w /\ JS.dropWhile p (w ++ r) = r.
Proof.
  intros Hw Hr. induction w as [|c w IH]; simpl in *.
  - destruct r as [|c r]; simpl in *; [auto|]. apply negb_true_iff in Hr. now rewrite Hr.
  - apply andb_true_iff in Hw. destruct Hw as [Hc Hw]. rewrite Hc.
    destruct (IH Hw) as [-> ->]. auto.
Qed.

Lemma dropWhile_app (p : ascii -> bool) (w r : string) :
  Spec.allOf p w = true -> Spec.startsOutside p r = true ->
  JS.dropWhile p (w ++ r) = r.
Proof. intros Hw Hr. now apply takeWhile_app. Qed.

Lemma many1_app (p : ascii -> bool) (d r : string) :
  JS.truthy d = true -> Spec.allOf p d = true -> Spec.startsOutside p r = true ->
  JS.many1 p (d ++ r) = Some (d, r).
Proof.
  intros Hd Ha Hr. unfold JS.many1. destruct (takeWhile_app p d r Ha Hr) as [-> ->].
  destruct d; [discriminate | reflexivity].
Qed.

Lemma startsOutside_app (p q : ascii -> bool) (w r : string) :
  (forall c, q c = true -> p c = false) ->
  Spec.allOf q w = true -> Spec.startsOutside p r = true ->
  Spec.startsOutside p (w ++ r) = true.
Proof.
  intros Hpq Hw Hr. destruct w as [|c w]; simpl in *; [exact Hr|].
  apply andb_true_iff in Hw. destruct Hw as [Hc _]. now rewrite (Hpq c Hc).
Qed.

Lemma digits_inv (d : string) :
  Spec.digits d = true -> JS.truthy d = true /\ Spec.allOf JS.isDigit d = true.
Proof. unfold Spec.digits. now rewrite andb_true_iff. Qed.

Lemma digits_outside_space (d r : string) :
  Spec.digits d = true -> Spec.startsOutside JS.isSpace (d ++ r) = true.
Proof.
  intros H. apply digits_inv in H. destruct H as [Ht Ha].
  destruct d as [|c d]; [discriminate|]. simpl in *.
  apply andb_true_iff in Ha. destruct Ha as [Hc _].
  apply digit_facts in Hc. destruct Hc as [-> _]. reflexivity.
Qed.

Lemma spaces_outside_digit (w r : string) :
  Spec.allOf JS.isSpace w = true -> Spec.startsOutside JS.isDigit r = true ->
  Spec.startsOutside JS.isDigit (w ++ r) = true.
Proof.
  apply startsOutside_app. intros c Hc. now apply space_facts in Hc.
Qed.

Lemma optional_a (a r : string) :
  a = EmptyString \/ a = "a" ->
  Spec.startsOutside (fun c => Ascii.eqb c "a") r = true ->
  JS.optional "a" (a ++ r) = r.
Proof.
  intros [-> | ->] Hr; unfold JS.optional; simpl; [|reflexivity].
  destruct r as [|c r]; simpl in *; [reflexivity|].
  apply negb_true_iff in Hr. now rewrite Hr.
Qed.

(** The pattern matches a string of the form [rgbForm] at its start, with
    the three runs of digits as groups. *)
Lemma rgbMatchHere_form (s d1 d2 d3 : string) :
  Spec.rgbForm s d1 d2 d3 -> ColorAnalyzer.rgbMatchHere s = Some (d1, d2, d3).
Proof.
  intros (a & w1 & w2 & w3 & w4 & w5 & w6 & rest & -> & Ha & H1 & H2 & H3 & H4 & H5 & H6
          & D1 & D2 & D3 & Hrest).
  pose proof (digits_inv _ D1) as [T1 A1].
  pose proof (digits_inv _ D2) as [T2 A2].
  pose proof (digits_inv _ D3) as [T3 A3].
  unfold ColorAnalyzer.rgbMatchHere.
  change (JS.expect "rgb" ("rgb" ++ ?x)) with (Some x). cbv beta iota.
  rewrite optional_a; [|exact Ha|].
  2:{ apply (startsOutside_app _ JS.isSpace); [|exact H1|reflexivity].
      intros c Hc. now apply space_facts in Hc. }
  rewrite (dropWhile_app _ w1) by (auto; reflexivity).
  change (JS.expect "(" ("(" ++ ?x)) with (Some x). cbv beta iota.
  rewrite (dropWhile_app _ w2) by (auto using digits_outside_space).
  rewrite many1_app by (auto; apply spaces_outside_digit; auto; reflexivity).
  cbv beta iota.
  rewrite (dropWhile_app _ w3) by (auto; reflexivity).
  change (JS.expect "," ("," ++ ?x)) with (Some x). cbv beta iota.
  rewrite (dropWhile_app _ w4) by (auto using digits_outside_space).
  rewrite many1_app by (auto; apply spaces_outside_digit; auto; reflexivity).
  cbv beta iota.
  rewrite (dropWhile_app _ w5) by (auto; reflexivity).
  change (JS.expect "," ("," ++ ?x)) with (Some x). cbv beta iota.
  rewrite (dropWhile_app _ w6) by (auto using digits_outside_space).
  rewrite many1_app by auto.
  reflexivity.
Qed.

(** *** parseInt on a run of digits *)

Lemma digitsValue_decimal (d : string) (acc : Z) :
  Spec.allOf JS.isDigit d = true -> JS.digitsValue 10 d acc = Spec.decimalFrom acc d.
Proof.
  revert acc. induction d as [|c d IH]; intros acc H; simpl in *; [reflexivity|].
  apply andb_true_iff in H. destruct H as [Hc Hd].
  destruct (digit_facts c Hc) as (_ & _ & _ & _ & _ & _ & -> & _).
  now rewrite IH by exact Hd.
Qed.

Lemma takeWhile_all (p : ascii -> bool) (d : string) :
  Spec.allOf p d = true -> JS.takeWhile p d = d.
Proof.
  intros H. pose proof (takeWhile_app p d EmptyString H eq_refl) as [E _].
  now rewrite append_nil_r in E.
Qed.

Lemma allOf_weaken (p q : ascii -> bool) (d : string) :
  (forall c, p c = true -> q c = true) -> Spec.allOf p d = true -> Spec.allOf q d = true.
Proof.
  intros Hpq. induction d as [|c d IH]; simpl; [auto|].
  rewrite !andb_true_iff. intros [Hc Hd]. auto.
Qed.

Lemma roundZ_byte (v : Z) : 0 <= v <= 255 -> JS.roundZ v = JS.JInt v.
Proof.
  intros Hv.
  pose proof (forall_byte
                (fun v => match JS.roundZ v with JS.JInt z => z =? v | _ => false end)
                ltac:(vm_compute; reflexivity) v Hv) as H.
  cbv beta in H. destruct (JS.roundZ v); try discriminate. f_equal. lia.
Qed.

Lemma decimalFrom_nonneg (d : string) (acc : Z) :
  Spec.allOf JS.isDigit d = true -> 0 <= acc -> 0 <= Spec.decimalFrom acc d.
Proof.
  revert acc. induction d as [|c d IH]; intros acc H Hacc; simpl in *; [exact Hacc|].
  apply andb_true_iff in H. destruct H as [Hc Hd].
  destruct (digit_facts c Hc) as (_ & _ & _ & _ & _ & _ & _ & Hr).
  apply IH; [exact Hd | lia].
Qed.

(** [parseInt] of a run of digits whose value is a channel value. *)
Lemma parseInt_digits (d : string) :
  Spec.digits d = true -> Spec.decimal d <= 255 ->
  JS.parseInt d 0 = JS.JInt (Spec.decimal d).
Proof.
  intros D Hv. apply digits_inv in D. destruct D as [Ht Ha].
  pose proof (decimalFrom_nonneg d 0 Ha ltac:(lia)) as Hpos.
  destruct d as [|c d]; [discriminate|].
  pose proof Ha as Ha'. simpl in Ha'. apply andb_true_iff in Ha'. destruct Ha' as [Hc Hd].
  destruct (digit_facts c Hc) as (Hsp & Hm & Hp & _).
  unfold JS.parseInt, JS.trimStart. simpl JS.dropWhile. rewrite Hsp.
  unfold JS.scanSign. rewrite Hm, Hp. cbv beta iota. simpl (0 =? 0).
  assert (Hx : JS.startsWith (String c d) "0x" || JS.startsWith (String c d) "0X" = false).
  { destruct d as [|c2 d]; simpl; [now rewrite !andb_false_r|].
    simpl in Hd. apply andb_true_iff in Hd. destruct Hd as [Hc2 _].
    destruct (digit_facts c2 Hc2) as (_ & _ & _ & Hx1 & Hx2 & _).
    now rewrite Hx1, Hx2, !andb_false_r. }
  rewrite Hx. cbv beta iota. simpl andb. cbv beta iota.
  rewrite takeWhile_all.
  - rewrite digitsValue_decimal by exact Ha. fold (Spec.decimal (String c d)).
    rewrite roundZ_byte by (unfold Spec.decimal in *; lia). reflexivity.
  - eapply allOf_weaken; [|exact Ha]. intros x Hx'. now apply digit_facts in Hx'.
Qed.

(** The two hex digits [toHex] writes for a channel value. *)
Lemma hexPair_byte (v : Z) :
  0 <= v <= 255 ->
  JS.toUpperCase (ColorAnalyzer.hexPair (JS.JInt v)) = Spec.hexByte v
  /\ Spec.allOf Spec.isUpperHexDigit (Spec.hexByte v) = true
  /\ String.length (Spec.hexByte v) = 2%nat.
Proof.
  intros Hv.
  pose proof (forall_byte
                (fun v => String.eqb (JS.toUpperCase (ColorAnalyzer.hexPair (JS.JInt v)))
                                     (Spec.hexByte v)
                          && Spec.allOf Spec.isUpperHexDigit (Spec.hexByte v))
                ltac:(vm_compute; reflexivity) v Hv) as H.
  cbv beta in H. apply andb_true_iff in H. destruct H as [H1 H2].
  apply String.eqb_eq in H1. auto.
Qed.

Lemma allOf_app (p : ascii -> bool) (a b : string) :
  Spec.allOf p (a ++ b) = Spec.allOf p a && Spec.allOf p b.
Proof. induction a as [|c a IH]; simpl; [reflexivity | now rewrite IH, andb_assoc]. Qed.

Lemma search_here {A : Type} (f : string -> option A) (s : string) (r : A) :
  f s = Some r -> JS.search f s = Some r.
Proof. intros H. destruct s; simpl; now rewrite H. Qed.

Lemma rgbBranch_form (s d1 d2 d3 : string) :
  Spec.rgbForm s d1 d2 d3 ->
  Spec.decimal d1 <= 255 -> Spec.decimal d2 <= 255 -> Spec.decimal d3 <= 255 ->
  ColorAnalyzer.rgbBranch s =
  Some ("#" ++ Spec.hexByte (Spec.decimal d1) ++ Spec.hexByte (Spec.decimal d2)
            ++ Spec.hexByte (Spec.decimal d3))
  /\ Spec.isHexColor ("#" ++ Spec.hexByte (Spec.decimal d1) ++ Spec.hexByte (Spec.decimal d2)
                          ++ Spec.hexByte (Spec.decimal d3)) = true.
Proof.
  intros Hs V1 V2 V3. pose proof (rgbMatchHere_form _ _ _ _ Hs) as Hm.
  destruct Hs as (a & w1 & w2 & w3 & w4 & w5 & w6 & rest & -> & _ & _ & _ & _ & _ & _ & _
                  & D1 & D2 & D3 & _).
  assert (P1 : 0 <= Spec.decimal d1)
    by (apply decimalFrom_nonneg; [now apply digits_inv in D1 | lia]).
  assert (P2 : 0 <= Spec.decimal d2)
    by (apply decimalFrom_nonneg; [now apply digits_inv in D2 | lia]).
  assert (P3 : 0 <= Spec.decimal d3)
    by (apply decimalFrom_nonneg; [now apply digits_inv in D3 | lia]).
  destruct (hexPair_byte (Spec.decimal d1) ltac:(lia)) as (E1 & U1 & L1).
  destruct (hexPair_byte (Spec.decimal d2) ltac:(lia)) as (E2 & U2 & L2).
  destruct (hexPair_byte (Spec.decimal d3) ltac:(lia)) as (E3 & U3 & L3).
  split.
  - unfold ColorAnalyzer.rgbBranch.
    change (JS.startsWith ("rgb" ++ ?x) "rgb") with true. cbv iota.
    rewrite (search_here _ _ _ Hm). cbv beta iota.
    rewrite !parseInt_digits by assumption.
    simpl map.
    change (JS.join EmptyString [?x; ?y; ?z]) with (x ++ y ++ z).
    unfold JS.toUpperCase in *. rewrite !mapString_app, E1, E2, E3. reflexivity.
  - change (Spec.isHexColor ("#" ++ ?x))
      with (Ascii.eqb "#" "#" && (String.length x =? 6)%nat
            && Spec.allOf Spec.isUpperHexDigit x).
    rewrite !length_app, L1, L2, L3, !allOf_app, U1, U2, U3. reflexivity.
Qed.

(** *** hsl() strings *)









(** *** hsl() with integer numerals in range

    The channels are evaluated on the primitive binary64 numbers, which
    compute what the executable specification computes. *)










(** A Number from -0.5 up to 255.5 rounds to a channel value. *)

















(** [parseFloat] on a run of digits. *)













(** *** Hex colours *)




(** *** The branches of toHex *)

Section Branches.

Variable canvasFillStyle : string -> option string.
Variable maxStack : nat.

Lemma toHex_rgbBranch (s h : string) :
  JS.truthy s = true -> ColorAnalyzer.rgbBranch s = Some h ->
  ColorAnalyzer.toHex canvasFillStyle maxStack s = Some h.
Proof.
  intros Ht Hr. unfold ColorAnalyzer.toHex. destruct maxStack; simpl; now rewrite Ht, Hr.
Qed.


Lemma toHex_hexBranch (d : string) :
  ColorAnalyzer.toHex canvasFillStyle maxStack ("#" ++ d)
  = Some (ColorAnalyzer.hexBranch ("#" ++ d)).
Proof. unfold ColorAnalyzer.toHex. destruct maxStack; reflexivity. Qed.

End Branches.




(** ** The examples of the specification *)

Example isNeutral_grey : ColorAnalyzer.isNeutral (Some "#808080") = true.
Proof. reflexivity. Qed.

Example isNeutral_red : ColorAnalyzer.isNeutral (Some "#FF0000") = false.
Proof. reflexivity. Qed.

(** A saturation of exactly one tenth is not below the cutoff. *)
Example isNeutral_cutoff : ColorAnalyzer.isNeutral (Some "#645A5A") = false.
Proof. reflexivity. Qed.

Example transparent_is_invalid : ColorAnalyzer.isValidColor "transparent" = false.
Proof. reflexivity. Qed.

(** The button page yields one record: the blue, tagged Primary. *)
Example analyze_buyDocument :
  ColorAnalyzer.analyze Fixture.noCanvas 0 Fixture.buyDocument =
  [ {| ColorAnalyzer.r_hex := "#3366FF"; ColorAnalyzer.r_category := "Primary";
       ColorAnalyzer.r_weight := 100; ColorAnalyzer.r_sources := "button" |} ].
Proof. reflexivity. Qed.

(** (29 / 200) * 100 is 14.499999999999998 in binary64, and rounds to 14;
    14 is one of the two integers nearest to 14.5. *)
Example usageOf_29_of_200 : TypographyAnalyzer.usageOf 29 200 = JS.JInt 14.
Proof. reflexivity. Qed.

(** 1.005 in binary64 is below 1.005. *)
Example normalizeLineHeight_1005 :
  TypographyAnalyzer.normalizeLineHeight Fixture.noLarge "1.005px" "1px" = "1.00".
Proof. reflexivity. Qed.

(** * Further properties *)

(** ** ColorAnalyzer.addColor *)

Lemma lookupItem_update (m : ColorAnalyzer.colorMap) (k k' : string)
      (f : ColorAnalyzer.item -> ColorAnalyzer.item) :
  SpecRest.lookupItem (ColorAnalyzer.update m k f) k' =
  if String.eqb k k' then option_map f (SpecRest.lookupItem m k)
  else SpecRest.lookupItem m k'.
Proof.
  induction m as [|[k0 v] m IH]; cbn.
  - now destruct (String.eqb k k').
  - destruct (String.eqb k0 k) eqn:E0; cbn.
    + apply String.eqb_eq in E0. subst k0.
      destruct (String.eqb k k'); reflexivity.
    + rewrite IH. destruct (String.eqb k0 k') eqn:E1; [|reflexivity].
      apply String.eqb_eq in E1. subst k0. rewrite String.eqb_sym in E0. now rewrite E0.
Qed.

Lemma lookupItem_app (m1 m2 : ColorAnalyzer.colorMap) (k : string) :
  SpecRest.lookupItem (m1 ++ m2)%list k =
  match SpecRest.lookupItem m1 k with
  | Some v => Some v
  | None => SpecRest.lookupItem m2 k
  end.
Proof.
  induction m1 as [|[k0 v] m1 IH]; simpl; [reflexivity|].
  now destruct (String.eqb k0 k).
Qed.

Lemma has_lookupItem (m : ColorAnalyzer.colorMap) (k : string) :
  ColorAnalyzer.has m k = match SpecRest.lookupItem m k with Some _ => true | None => false end.
Proof.
  induction m as [|[k0 v] m IH]; simpl; [reflexivity|].
  now destruct (String.eqb k0 k).
Qed.

Lemma update_keys (m : ColorAnalyzer.colorMap) (k : string)
      (f : ColorAnalyzer.item -> ColorAnalyzer.item) :
  map fst (ColorAnalyzer.update m k f) = map fst m.
Proof.
  induction m as [|[k0 v] m IH]; simpl; [reflexivity|].
  destruct (String.eqb k0 k); simpl; [reflexivity | now rewrite IH].
Qed.

Lemma addColor_weightOf (m : ColorAnalyzer.colorMap) (h src k : string) (w : Z) :
  SpecRest.weightOf (ColorAnalyzer.addColor m h src w) k
  = SpecRest.weightOf m k + (if JS.truthy h && String.eqb h k then w else 0).
Proof.
  unfold ColorAnalyzer.addColor, SpecRest.weightOf.
  destruct (JS.truthy h); cbn [negb andb]; [|lia].
  rewrite (has_lookupItem m h).
  destruct (SpecRest.lookupItem m h) as [v|] eqn:E.
  - rewrite lookupItem_update. destruct (String.eqb h k) eqn:Ek.
    + apply String.eqb_eq in Ek. subst k. rewrite E. reflexivity.
    + destruct (SpecRest.lookupItem m k); lia.
  - rewrite lookupItem_app. cbn. destruct (String.eqb h k) eqn:Ek.
    + apply String.eqb_eq in Ek. subst k. rewrite E. reflexivity.
    + destruct (SpecRest.lookupItem m k); lia.
Qed.

(** X1: adding a colour under a non-empty hex makes the map hold that hex,
    raises the weight held for it by the added weight (from 0 for a new
    hex), records the source, leaves every other entry as it was, and keeps
    the order of the keys, a new key going last. *)
Theorem addColor_lookup (m : ColorAnalyzer.colorMap) (hex_ source : string) (w : Z) :
  JS.truthy hex_ = true ->
  let m' := ColorAnalyzer.addColor m hex_ source w in
  ColorAnalyzer.has m' hex_ = true
  /\ SpecRest.weightOf m' hex_ = SpecRest.weightOf m hex_ + w
  /\ (exists v, SpecRest.lookupItem m' hex_ = Some v /\ In source (ColorAnalyzer.sources v))
  /\ (forall k, k <> hex_ -> SpecRest.lookupItem m' k = SpecRest.lookupItem m k)
  /\ map fst m' = (if ColorAnalyzer.has m hex_ then map fst m else map fst m ++ [hex_])%list.
Proof.
  intros Ht m'. subst m'. unfold ColorAnalyzer.addColor. rewrite Ht. cbn [negb].
  rewrite (has_lookupItem m hex_). unfold SpecRest.weightOf.
  destruct (SpecRest.lookupItem m hex_) as [v|] eqn:E.
  - rewrite has_lookupItem, !lookupItem_update, String.eqb_refl, E. cbn.
    repeat split.
    + eexists. split; [reflexivity|]. cbn. apply setAdd_In. now right.
    + intros k Hk. rewrite lookupItem_update.
      apply not_eq_sym, String.eqb_neq in Hk. now rewrite Hk.
    + apply update_keys.
  - rewrite has_lookupItem, !lookupItem_app, E. cbn. rewrite String.eqb_refl. cbn.
    repeat split.
    + eexists. split; [reflexivity|]. cbn. now left.
    + intros k Hk. rewrite lookupItem_app. cbn.
      apply not_eq_sym, String.eqb_neq in Hk. rewrite Hk.
      now destruct (SpecRest.lookupItem m k).
    + now rewrite map_app.
Qed.

Lemma addColor_lookup_witness :
  SpecRest.weightOf
    (ColorAnalyzer.addColor (ColorAnalyzer.addColor [] "#3366FF" "button" 100)
                            "#3366FF" "link" 80) "#3366FF" = 180.
Proof.
  rewrite (proj1 (proj2 (addColor_lookup
                           (ColorAnalyzer.addColor [] "#3366FF" "button" 100)
                           "#3366FF" "link" 80 eq_refl))).
  reflexivity.
Defined.

(** ** The maps the passes build *)

Lemma setAdd_NoDup (l : list string) (x : string) :
  NoDup l -> NoDup (ColorAnalyzer.setAdd l x).
Proof.
  intros H. unfold ColorAnalyzer.setAdd. destruct (existsb (String.eqb x) l) eqn:E; [exact H|].
  apply NoDup_app; [exact H | repeat constructor; intros [] |].
  intros y Hy [<-|[]]. apply seen_spec in Hy. congruence.
Qed.

Lemma setAdd_length (l : list string) (x : string) :
  (List.length l <= List.length (ColorAnalyzer.setAdd l x))%nat.
Proof.
  unfold ColorAnalyzer.setAdd. destruct (existsb _ l); [lia|]. rewrite List.length_app. lia.
Qed.

Lemma update_good (m : ColorAnalyzer.colorMap) (k : string)
      (f : ColorAnalyzer.item -> ColorAnalyzer.item) :
  (forall kv, SpecRest.goodItem kv -> SpecRest.goodItem (fst kv, f (snd kv))) ->
  Forall SpecRest.goodItem m -> Forall SpecRest.goodItem (ColorAnalyzer.update m k f).
Proof.
  intros Hf. induction 1 as [|[k0 v] m Hkv Hm IH]; simpl; [constructor|].
  destruct (String.eqb k0 k); constructor; auto. apply (Hf (k0, v) Hkv).
Qed.

Lemma addColor_good (m : ColorAnalyzer.colorMap) (h src : string) (w : Z) :
  1 <= w -> SpecRest.goodMap m -> SpecRest.goodMap (ColorAnalyzer.addColor m h src w).
Proof.
  intros Hw [Hn Hg]. unfold ColorAnalyzer.addColor.
  destruct (JS.truthy h) eqn:Ht; cbn [negb]; [|now split].
  destruct (ColorAnalyzer.has m h) eqn:Hh.
  - split; [now rewrite update_keys|]. apply update_good; [|exact Hg].
    intros [k v] (H1 & H2 & H3 & H4 & H5). unfold SpecRest.goodItem. cbn in *.
    split; [exact H1|]. split; [exact H2|]. split; [lia|]. split.
    + pose proof (setAdd_length (ColorAnalyzer.sources v) src). lia.
    + now apply setAdd_NoDup.
  - split.
    + rewrite map_app. apply NoDup_app; [exact Hn | repeat constructor; intros [] |].
      cbn. intros y Hy [<-|[]]. apply has_keys in Hy. congruence.
    + apply Forall_app. split; [exact Hg|]. constructor; [|constructor].
      unfold SpecRest.goodItem. cbn. repeat split; auto; try lia.
      repeat constructor. intros [].
Qed.

Lemma addTo_good (c : ColorAnalyzer.colors) (k : ColorAnalyzer.category)
      (h src : string) (w : Z) :
  1 <= w -> SpecRest.goodColors c -> SpecRest.goodColors (ColorAnalyzer.addTo c k h src w).
Proof.
  intros Hw Hc k'. unfold ColorAnalyzer.addTo. rewrite get_put.
  destruct (ColorAnalyzer.category_eqb k k'); [apply addColor_good; auto|]; apply Hc.
Qed.

Ltac good_branches :=
  repeat match goal with
         | |- SpecRest.goodColors (ColorAnalyzer.addTo _ _ _ _ _) => apply addTo_good; [lia|]
         | |- SpecRest.goodColors (if ?b then _ else _) => destruct b
         | |- SpecRest.goodColors (match ?x with _ => _ end) => destruct x
         | |- SpecRest.goodColors (fold_left _ _ _) => apply fold_left_invariant; [intros|]
         end; auto.

Section GoodPasses.

Variable canvasFillStyle : string -> option string.
Variable maxStack : nat.

Lemma analyzeStyleSheets_good (doc : Dom.document) (c : ColorAnalyzer.colors) :
  SpecRest.goodColors c ->
  SpecRest.goodColors (ColorAnalyzer.analyzeStyleSheets canvasFillStyle maxStack doc c).
Proof.
  intros Hc. unfold ColorAnalyzer.analyzeStyleSheets.
  apply fold_left_invariant; [|exact Hc]. clear. intros c [rules|] Hc; simpl; [|exact Hc].
  apply fold_left_invariant; [|exact Hc]. clear. intros c rule Hc.
  unfold ColorAnalyzer.analyzeRule. good_branches.
Qed.

Lemma analyzeKeyElements_good (doc : Dom.document) (c : ColorAnalyzer.colors) :
  SpecRest.goodColors c ->
  SpecRest.goodColors (ColorAnalyzer.analyzeKeyElements canvasFillStyle maxStack doc c).
Proof.
  intros Hc. unfold ColorAnalyzer.analyzeKeyElements.
  assert (H1 : SpecRest.goodColors (ColorAnalyzer.keyBody canvasFillStyle maxStack doc c)).
  { unfold ColorAnalyzer.keyBody. good_branches. }
  assert (H2 : SpecRest.goodColors
                 (ColorAnalyzer.keyHtml canvasFillStyle maxStack doc
                    (ColorAnalyzer.keyBody canvasFillStyle maxStack doc c))).
  { unfold ColorAnalyzer.keyHtml. good_branches. }
  repeat (apply fold_left_invariant;
          [intros;
           unfold ColorAnalyzer.keyButton, ColorAnalyzer.keyHeading,
             ColorAnalyzer.keyContainer, ColorAnalyzer.keyInput; good_branches|]).
  exact H2.
Qed.

End GoodPasses.

(** X2: in each of the five maps [analyze] collects the keys are distinct
    and non-empty, every item is stored under its own hex, has a weight of
    at least 1 and at least one source, none of them twice; so every record
    of the palette has a non-empty hex and a weight of at least 1. *)
Theorem collected_good (canvasFillStyle : string -> option string) (maxStack : nat)
        (doc : Dom.document) :
  SpecRest.goodColors (Spec.collected canvasFillStyle maxStack doc)
  /\ Forall (fun r => JS.truthy (ColorAnalyzer.r_hex r) = true
                      /\ 1 <= ColorAnalyzer.r_weight r)
            (ColorAnalyzer.analyze canvasFillStyle maxStack doc).
Proof.
  assert (G : SpecRest.goodColors (Spec.collected canvasFillStyle maxStack doc)).
  { apply analyzeKeyElements_good, analyzeStyleSheets_good.
    intros k. destruct k; split; constructor. }
  split; [exact G|].
  pose proof (buildColorPalette_facts (Spec.collected canvasFillStyle maxStack doc)) as Hf.
  unfold ColorAnalyzer.analyze. fold (Spec.collected canvasFillStyle maxStack doc).
  eapply Forall_impl; [|exact Hf]. intros r (k & it & _ & Hin & ->).
  destruct (G k) as [_ Hg]. unfold ColorAnalyzer.values in Hin.
  apply in_map_iff in Hin. destruct Hin as [[key v] [<- Hkv]].
  rewrite Forall_forall in Hg. destruct (Hg _ Hkv) as (H1 & H2 & H3 & _).
  cbn in *. rewrite <- H1. auto.
Qed.

(** ** ColorAnalyzer.analyzeStyleSheets *)

Lemma analyzeRule_other (canvasFillStyle : string -> option string) (maxStack : nat)
      (rules : list Dom.cssRule) (c : ColorAnalyzer.colors) :
  fold_left (ColorAnalyzer.analyzeRule canvasFillStyle maxStack) rules c =
  fold_left (ColorAnalyzer.analyzeRule canvasFillStyle maxStack)
            (filter SpecRest.isStyleRule rules) c.
Proof.
  revert c. induction rules as [|[sel st|] rules IH]; intros c; simpl; auto.
Qed.

Lemma analyzeStyleSheets_rules (canvasFillStyle : string -> option string)
      (maxStack : nat) (doc : Dom.document) (c : ColorAnalyzer.colors) :
  ColorAnalyzer.analyzeStyleSheets canvasFillStyle maxStack doc c =
  fold_left (ColorAnalyzer.analyzeRule canvasFillStyle maxStack) (SpecRest.styleRules doc) c.
Proof.
  unfold ColorAnalyzer.analyzeStyleSheets, SpecRest.styleRules.
  revert c. induction (Dom.styleSheets doc) as [|[rules|] sheets IH]; intros c; simpl.
  - reflexivity.
  - rewrite fold_left_app, <- analyzeRule_other. apply IH.
  - apply IH.
Qed.

(** ** ColorAnalyzer.toHex: the shape of a result *)

Lemma hexBranch_hash (color : string) :
  JS.startsWith color "#" = true -> JS.startsWith (ColorAnalyzer.hexBranch color) "#" = true.
Proof.
  destruct color as [|c r]; [discriminate|]. cbn. rewrite andb_true_r, Ascii.eqb_eq.
  intros ->. unfold ColorAnalyzer.hexBranch.
  change (JS.toUpperCase (String "#" r)) with (String "#" (JS.toUpperCase r)).
  destruct (String.length (String "#" (JS.toUpperCase r)) =? 4)%nat.
  - cbn [append]. destruct (String.length _ =? 9)%nat; reflexivity.
  - destruct (String.length _ =? 9)%nat; reflexivity.
Qed.

Lemma rgbBranch_hash (color h : string) :
  ColorAnalyzer.rgbBranch color = Some h -> JS.startsWith h "#" = true.
Proof.
  unfold ColorAnalyzer.rgbBranch. destruct (JS.startsWith color "rgb"); [|discriminate].
  destruct (JS.search _ color) as [[[m1 m2] m3]|]; [|discriminate].
  intros H. injection H as <-. reflexivity.
Qed.

Lemma hslBranch_hash (color h : string) :
  ColorAnalyzer.hslBranch color = Some h -> JS.startsWith h "#" = true.
Proof.
  unfold ColorAnalyzer.hslBranch. destruct (JS.startsWith color "hsl"); [|discriminate].
  destruct (JS.search _ color) as [[[m1 m2] m3]|]; [|discriminate].
  intros H. injection H as <-. reflexivity.
Qed.

Lemma toUpperCase_hash (s : string) :
  JS.startsWith s "#" = true -> JS.startsWith (JS.toUpperCase s) "#" = true.
Proof.
  destruct s as [|c r]; [discriminate|]. cbn. rewrite !andb_true_r, !Ascii.eqb_eq.
  now intros ->.
Qed.

Lemma toHexAt_hash (canvasFillStyle : string -> option string) (depth : nat)
      (color h : string) :
  ColorAnalyzer.toHexAt canvasFillStyle depth color = Some h -> JS.startsWith h "#" = true.
Proof.
  revert color. induction depth as [|d IH]; intros color;
    cbn [ColorAnalyzer.toHexAt];
    (destruct (JS.truthy color); cbn [negb]; [|discriminate]);
    (destruct (ColorAnalyzer.rgbBranch color) as [x|] eqn:Er;
     [intros H; injection H as ->; now apply rgbBranch_hash in Er|]);
    (destruct (ColorAnalyzer.hslBranch color) as [x|] eqn:Eh;
     [intros H; injection H as ->; now apply hslBranch_hash in Eh|]);
    (destruct (JS.startsWith color "#") eqn:Es;
     [intros H; injection H as <-; now apply hexBranch_hash|]);
    (destruct (canvasFillStyle color) as [computed|]; [|discriminate]);
    (destruct (JS.startsWith computed "#") eqn:Ec;
     [intros H; injection H as <-; now apply toUpperCase_hash|]);
    (destruct (JS.startsWith computed "rgb"); [|discriminate]).
  - discriminate.
  - apply IH.
Qed.

Lemma toHex_truthy (canvasFillStyle : string -> option string) (maxStack : nat)
      (color h : string) :
  ColorAnalyzer.toHex canvasFillStyle maxStack color = Some h -> JS.truthy h = true.
Proof.
  intros H. apply toHexAt_hash in H. destruct h; [discriminate | reflexivity].
Qed.

(** X4: whatever the canvas answers, a result of [toHex] that is not null
    starts with [#]; it is never the empty string, so the guards [if (hex)]
    of the callers test exactly for null. *)
Theorem toHex_hash (canvasFillStyle : string -> option string) (maxStack : nat)
        (color : string) :
  match ColorAnalyzer.toHex canvasFillStyle maxStack color with
  | Some h => JS.startsWith h "#" = true /\ JS.truthy h = true
  | None => True
  end
  /\ ColorAnalyzer.truthyOpt (ColorAnalyzer.toHex canvasFillStyle maxStack color)
     = match ColorAnalyzer.toHex canvasFillStyle maxStack color with
       | Some _ => true
       | None => false
       end.
Proof.
  pose proof (toHexAt_hash canvasFillStyle maxStack color) as H.
  unfold ColorAnalyzer.toHex. destruct (ColorAnalyzer.toHexAt _ _ color) as [h|]; [|auto].
  specialize (H h eq_refl). destruct h; [discriminate|]. cbn. auto.
Qed.

Lemma upper_hex_fixed (c : ascii) :
  Spec.isUpperHexDigit c = true -> JS.upperChar c = c.
Proof.
  intros Hc.
  pose proof (forall_ascii
                (fun c => implb (Spec.isUpperHexDigit c) (Ascii.eqb (JS.upperChar c) c))
                ltac:(vm_compute; reflexivity) c) as H.
  cbv beta in H. rewrite Hc in H. now apply Ascii.eqb_eq in H.
Qed.

(** X5: a colour of the form #RRGGBB in upper case is a fixed point of
    [toHex]: normalizing a normalized colour changes nothing. *)
Theorem toHex_fixed_point (canvasFillStyle : string -> option string) (maxStack : nat)
        (h : string) :
  Spec.isHexColor h = true -> ColorAnalyzer.toHex canvasFillStyle maxStack h = Some h.
Proof.
  intros H. destruct h as [|c0 r]; [discriminate|]. cbn in H.
  apply andb_true_iff in H. destruct H as [H Ha].
  apply andb_true_iff in H. destruct H as [Hc Hl].
  apply Ascii.eqb_eq in Hc. subst c0. apply Nat.eqb_eq in Hl.
  change (String "#" r) with ("#" ++ r). rewrite toHex_hexBranch. f_equal.
  destruct r as [|c1 [|c2 [|c3 [|c4 [|c5 [|c6 [|c7 r]]]]]]]; try discriminate.
  cbn in Ha.
  repeat (apply andb_true_iff in Ha; let Hc := fresh "Hc" in destruct Ha as [Hc Ha]).
  unfold ColorAnalyzer.hexBranch. cbn.
  repeat match goal with
         | Hc : Spec.isUpperHexDigit _ = true |- _ =>
             rewrite (upper_hex_fixed _ Hc); clear Hc
         end.
  reflexivity.
Qed.

Lemma toHex_fixed_point_witness :
  ColorAnalyzer.toHex Fixture.noCanvas 0 "#3366FF" = Some "#3366FF".
Proof. apply toHex_fixed_point. reflexivity. Defined.

(** ** ColorAnalyzer.buildColorPalette: nothing is lost before the cut *)

Lemma dedup_complete (l : list ColorAnalyzer.colorRecord) (seen : list string)
      (r : ColorAnalyzer.colorRecord) :
  In r l ->
  In (ColorAnalyzer.r_hex r) seen
  \/ In (ColorAnalyzer.r_hex r) (map ColorAnalyzer.r_hex (fst (Spec.dedup seen l))).
Proof.
  revert seen. induction l as [|x l IH]; intros seen; cbn; [tauto|].
  intros [->|Hr].
  - destruct (existsb _ seen) eqn:E; [left; now apply seen_spec|].
    destruct (Spec.dedup _ l) as [o s]. right. now left.
  - destruct (existsb _ seen) eqn:E; [now apply IH|].
    specialize (IH (ColorAnalyzer.setAdd seen (ColorAnalyzer.r_hex x)) Hr).
    destruct (Spec.dedup _ l) as [o s]. cbn in *. rewrite setAdd_In in IH.
    destruct IH as [[H|H]|H];
      [left; exact H | right; left; congruence | right; right; exact H].
Qed.

(** X6: every hex held by one of the five maps is in the palette, unless
    the palette was cut at 20 records. *)
Theorem buildColorPalette_complete (c : ColorAnalyzer.colors) :
  Forall (fun h =>
            In h (map ColorAnalyzer.r_hex (ColorAnalyzer.buildColorPalette c))
            \/ List.length (ColorAnalyzer.buildColorPalette c) = 20%nat)
         (SpecRest.allHexes c).
Proof.
  apply Forall_forall. intros h Hh. rewrite buildColorPalette_eq.
  set (D := fst (Spec.dedup [] (Spec.candidates c))).
  destruct (Nat.le_gt_cases (List.length D) 20) as [Hle|Hgt].
  - left. rewrite firstn_all2 by exact Hle.
    unfold SpecRest.allHexes in Hh. apply in_flat_map in Hh.
    destruct Hh as [[k lbl] [Hk Hin]]. cbn in Hin. unfold Spec.hexesOf in Hin.
    apply in_map_iff in Hin. destruct Hin as [it [<- Hit]].
    assert (Hc : In (Spec.recordOf (Spec.label k) it) (Spec.candidates c)).
    { apply candidates_In. exists k, it. auto. }
    destruct (dedup_complete _ [] _ Hc) as [[]|H]. exact H.
  - right. rewrite length_firstn. lia.
Qed.

(** ** ColorAnalyzer.analyzeKeyElements: the colours of the links *)

Section LinkColors.

Variable canvasFillStyle : string -> option string.
Variable maxStack : nat.

Let toHex := ColorAnalyzer.toHex canvasFillStyle maxStack.
Let keyLink := ColorAnalyzer.keyLink canvasFillStyle maxStack.

(** A link whose colour normalizes to [h], not neutral. *)
Let paints (h : string) (link : Dom.element) : Prop :=
  toHex (Dom.color (Dom.getComputedStyle link)) = Some h
  /\ ColorAnalyzer.isNeutral (Some h) = false.

Lemma keyLink_In (linkColors : list string) (link : Dom.element) (h : string) :
  In h (keyLink linkColors link) <-> In h linkColors \/ paints h link.
Proof.
  unfold keyLink, ColorAnalyzer.keyLink, paints, toHex. cbv zeta.
  destruct (ColorAnalyzer.toHex canvasFillStyle maxStack
              (Dom.color (Dom.getComputedStyle link))) as [x|] eqn:Ex.
  - cbn [ColorAnalyzer.truthyOpt ColorAnalyzer.orEmpty].
    rewrite (toHex_truthy _ _ _ _ Ex).
    destruct (ColorAnalyzer.isNeutral (Some x)) eqn:En; cbn [andb negb].
    + split; [intros H; left; exact H|].
      intros [H|[H Hn]]; [exact H|]. injection H as ->. congruence.
    + rewrite setAdd_In. split.
      * intros [H| ->]; [left; exact H | right; split; [reflexivity | exact En]].
      * intros [H|[H _]]; [left; exact H|]. injection H as ->. now right.
  - cbn [ColorAnalyzer.truthyOpt andb]. split; [intros H; left; exact H|].
    intros [H|[H _]]; [exact H | discriminate].
Qed.

Lemma keyLink_NoDup (linkColors : list string) (link : Dom.element) :
  NoDup linkColors -> NoDup (keyLink linkColors link).
Proof.
  intros H. unfold keyLink, ColorAnalyzer.keyLink.
  destruct (_ && _); [now apply setAdd_NoDup | exact H].
Qed.

Lemma keyLinks_spec (links : list Dom.element) (linkColors : list string) :
  NoDup linkColors ->
  NoDup (fold_left keyLink links linkColors)
  /\ forall h, In h (fold_left keyLink links linkColors)
               <-> In h linkColors \/ exists link, In link links /\ paints h link.
Proof.
  revert linkColors. induction links as [|link links IH]; intros lc Hn; cbn.
  - split; [exact Hn|]. intros h. split; [tauto|]. intros [H|[l [[] _]]]. exact H.
  - destruct (IH (keyLink lc link) (keyLink_NoDup lc link Hn)) as [H1 H2].
    split; [exact H1|]. intros h. rewrite H2, keyLink_In. split.
    + intros [[H|H]|[l [Hl Hp]]]; eauto.
    + intros [H|[l [[<-|Hl] Hp]]]; eauto.
Qed.

End LinkColors.

Lemma link_weights (l : list string) (c : ColorAnalyzer.colors) (h : string) :
  NoDup l -> (forall x, In x l -> JS.truthy x = true) ->
  SpecRest.weightOf
    (ColorAnalyzer.get
       (fold_left (fun c x => ColorAnalyzer.addTo c ColorAnalyzer.accent x "link" 80) l c)
       ColorAnalyzer.accent) h
  = SpecRest.weightOf (ColorAnalyzer.get c ColorAnalyzer.accent) h
    + (if existsb (String.eqb h) l then 80 else 0).
Proof.
  revert c. induction l as [|x l IH]; intros c Hn Ht; cbn [fold_left existsb]; [lia|].
  inversion Hn as [|? ? Hx Hl]; subst.
  rewrite IH by (auto; intros y Hy; apply Ht; now right).
  unfold ColorAnalyzer.addTo at 1. rewrite get_put. cbn [ColorAnalyzer.category_eqb].
  rewrite addColor_weightOf, (Ht x) by now left. cbn [andb].
  rewrite (String.eqb_sym h x). destruct (String.eqb x h) eqn:E; cbn [orb]; [|lia].
  apply String.eqb_eq in E. subst x.
  destruct (existsb (String.eqb h) l) eqn:El; [|lia].
  apply seen_spec in El. contradiction.
Qed.

(** ** Strings: reversal, trimming, white space *)

Lemma append_assoc_s (a b c : string) : (a ++ b) ++ c = a ++ (b ++ c).
Proof. induction a as [|x a IH]; simpl; [reflexivity | now rewrite IH]. Qed.

Lemma reverseOnto_app (s acc : string) : JS.reverseOnto s acc = JS.reverse s ++ acc.
Proof.
  unfold JS.reverse. revert acc. induction s as [|c s IH]; intros acc; simpl; [reflexivity|].
  rewrite IH, (IH (String c EmptyString)), append_assoc_s. reflexivity.
Qed.

Lemma reverse_cons (c : ascii) (s : string) :
  JS.reverse (String c s) = JS.reverse s ++ String c EmptyString.
Proof. unfold JS.reverse at 1. simpl. apply reverseOnto_app. Qed.

Lemma reverse_app (a b : string) : JS.reverse (a ++ b) = JS.reverse b ++ JS.reverse a.
Proof.
  induction a as [|c a IH]; simpl.
  - now rewrite append_nil_r.
  - now rewrite !reverse_cons, IH, append_assoc_s.
Qed.

Lemma reverse_involutive (s : string) : JS.reverse (JS.reverse s) = s.
Proof.
  induction s as [|c s IH]; [reflexivity|].
  now rewrite reverse_cons, reverse_app, IH.
Qed.

Lemma allOf_reverse (p : ascii -> bool) (s : string) :
  Spec.allOf p (JS.reverse s) = Spec.allOf p s.
Proof.
  induction s as [|c s IH]; [reflexivity|].
  rewrite reverse_cons, allOf_app, IH. simpl. now rewrite andb_true_r, andb_comm.
Qed.

Lemma takeWhile_dropWhile (p : ascii -> bool) (s : string) :
  s = JS.takeWhile p s ++ JS.dropWhile p s /\ Spec.allOf p (JS.takeWhile p s) = true
  /\ Spec.startsOutside p (JS.dropWhile p s) = true.
Proof.
  induction s as [|c s (IH1 & IH2 & IH3)]; simpl; [auto|].
  destruct (p c) eqn:E; simpl; [|now rewrite E].
  rewrite E, <- IH1. auto.
Qed.

(** [trimEnd] cuts a run of white space off the end. *)
Lemma trimEnd_split (t : string) :
  exists w, t = JS.trimEnd t ++ w /\ Spec.allOf JS.isSpace w = true.
Proof.
  unfold JS.trimEnd.
  destruct (takeWhile_dropWhile JS.isSpace (JS.reverse t)) as (E & Ha & _).
  exists (JS.reverse (JS.takeWhile JS.isSpace (JS.reverse t))). split.
  - rewrite <- reverse_app, <- E. now rewrite reverse_involutive.
  - now rewrite allOf_reverse.
Qed.

(** [trim] cuts white space off both ends. *)
Lemma trim_split (s : string) :
  exists w1 w2,
    s = w1 ++ JS.trim s ++ w2
    /\ Spec.allOf JS.isSpace w1 = true /\ Spec.allOf JS.isSpace w2 = true
    /\ Spec.startsOutside JS.isSpace (JS.trim s) = true.
Proof.
  unfold JS.trim, JS.trimStart.
  destruct (takeWhile_dropWhile JS.isSpace s) as (E & Ha & Hs).
  destruct (trimEnd_split (JS.dropWhile JS.isSpace s)) as (w2 & E2 & H2).
  exists (JS.takeWhile JS.isSpace s), w2. repeat split; auto.
  - now rewrite <- E2.
  - destruct (JS.trimEnd (JS.dropWhile JS.isSpace s)) as [|c r] eqn:Et; [reflexivity|].
    rewrite E2 in Hs. exact Hs.
Qed.

Lemma hasInk_app (a b : string) :
  SpecRest.hasInk (a ++ b) = SpecRest.hasInk a || SpecRest.hasInk b.
Proof. induction a as [|c a IH]; simpl; [reflexivity | now rewrite IH, orb_assoc]. Qed.

Lemma hasInk_spaces (w : string) : Spec.allOf JS.isSpace w = true -> SpecRest.hasInk w = false.
Proof.
  induction w as [|c w IH]; simpl; [reflexivity|].
  intros H. apply andb_true_iff in H. destruct H as [Hc Hw]. now rewrite Hc, IH.
Qed.

Lemma hasInk_truthy (s : string) : SpecRest.hasInk s = true -> JS.truthy s = true.
Proof. now destruct s. Qed.

Lemma hasInk_start (s : string) :
  Spec.startsOutside JS.isSpace s = true -> SpecRest.hasInk s = JS.truthy s.
Proof. destruct s as [|c r]; simpl; [reflexivity|]. now intros ->. Qed.

(** The trimmed text is not empty when some character is not white space. *)
Lemma trim_hasInk (s : string) :
  JS.truthy (JS.trim s) = SpecRest.hasInk s
  /\ (0 <? String.length (JS.trim s))%nat = SpecRest.hasInk s.
Proof.
  destruct (trim_split s) as (w1 & w2 & E & H1 & H2 & Hs).
  assert (Ht : JS.truthy (JS.trim s) = SpecRest.hasInk s).
  { rewrite E at 2. rewrite !hasInk_app, (hasInk_spaces w1 H1), (hasInk_spaces w2 H2).
    rewrite orb_false_r. simpl. symmetry. now apply hasInk_start. }
  split; [exact Ht|]. rewrite <- Ht. now destruct (JS.trim s).
Qed.

(** ** TypographyAnalyzer.hasTextContent and hasDirectTextContent *)

Lemma hasTextContent_hasInk (el : Dom.element) :
  TypographyAnalyzer.hasTextContent el = SpecRest.hasInk (Dom.textContent (Dom.asNode el)).
Proof.
  unfold TypographyAnalyzer.hasTextContent.
  rewrite (proj2 (trim_hasInk _)).
  destruct (SpecRest.hasInk _) eqn:E; [|apply andb_false_r].
  now rewrite (hasInk_truthy _ E).
Qed.

Lemma textContent_children (e : Dom.elemData) (ch : list Dom.node) :
  SpecRest.hasInk (Dom.textContent (Dom.Elem e ch))
  = existsb (fun n => negb (SpecRest.isComment n) && SpecRest.hasInk (Dom.textContent n)) ch.
Proof.
  cbn [Dom.textContent]. induction ch as [|n ch IH]; [reflexivity|].
  cbn [existsb]. rewrite <- IH. destruct n; cbn [SpecRest.isComment negb andb orb];
    [|reflexivity|]; now rewrite hasInk_app.
Qed.

Lemma existsb_pointwise {A : Type} (f g : A -> bool) (l : list A) :
  (forall x, f x = g x) -> existsb f l = existsb g l.
Proof. intros H. induction l as [|x l IH]; simpl; [reflexivity | now rewrite H, IH]. Qed.

(** X8: an element has text content exactly when a child node other than
    a comment has text that is not all white space; so an element with
    direct text content has text content, and so has every element around
    an element with text content. *)
Theorem hasTextContent_children (el : Dom.element) :
  TypographyAnalyzer.hasTextContent el
  = existsb (fun n => negb (SpecRest.isComment n)
                      && (0 <? String.length (JS.trim (Dom.textContent n)))%nat)
            (Dom.children el)
  /\ (TypographyAnalyzer.hasDirectTextContent el = true ->
      TypographyAnalyzer.hasTextContent el = true)
  /\ (forall child,
        In (Dom.asNode child) (Dom.children el) ->
        TypographyAnalyzer.hasTextContent child = true ->
        TypographyAnalyzer.hasTextContent el = true).
Proof.
  assert (E : TypographyAnalyzer.hasTextContent el
              = existsb (fun n => negb (SpecRest.isComment n)
                                  && (0 <? String.length (JS.trim (Dom.textContent n)))%nat)
                        (Dom.children el)).
  { rewrite hasTextContent_hasInk. destruct el as [e ch]. unfold Dom.asNode, Dom.children.
    cbn [fst snd]. rewrite textContent_children. apply existsb_pointwise.
    intros n. now rewrite (proj2 (trim_hasInk _)). }
  split; [exact E|]. split.
  - unfold TypographyAnalyzer.hasDirectTextContent. rewrite E, !existsb_exists.
    intros [n [Hn Ht]]. exists n. split; [exact Hn|].
    apply andb_true_iff in Ht. destruct Ht as [Hk Ht]. rewrite Ht.
    now destruct n.
  - intros child Hc Ht. rewrite E. apply existsb_exists. exists (Dom.asNode child).
    split; [exact Hc|]. rewrite hasTextContent_hasInk in Ht.
    now rewrite (proj2 (trim_hasInk _)), Ht.
Qed.

(** ** TypographyAnalyzer.getSampleText *)

Lemma collapseFrom_start (s : string) :
  Spec.startsOutside JS.isSpace s = true ->
  TypographyRest.collapseFrom false s = TypographyRest.collapseFrom true s.
Proof. destruct s as [|c r]; simpl; [reflexivity|]. now intros ->%negb_true_iff. Qed.

Lemma collapseFrom_singleSpaced (b : bool) (s : string) :
  SpecRest.singleSpaced b (TypographyRest.collapseFrom b s) = true.
Proof.
  revert b. induction s as [|c s IH]; intros b; simpl; [reflexivity|].
  destruct (JS.isSpace c) eqn:E.
  - destruct b; [apply IH|]. simpl. change (JS.isSpace " ") with true. cbv iota.
    simpl. apply IH.
  - simpl. rewrite E. apply IH.
Qed.

Lemma collapseFrom_truthy (s : string) :
  JS.truthy (TypographyRest.collapseFrom false s) = JS.truthy s.
Proof. destruct s as [|c r]; simpl; [reflexivity|]. now destruct (JS.isSpace c). Qed.

Lemma singleSpaced_substring (b : bool) (s : string) (n : nat) :
  SpecRest.singleSpaced b s = true -> SpecRest.singleSpaced b (substring 0 n s ++ "...") = true.
Proof.
  revert b n. induction s as [|c s IH]; intros b [|n] H; simpl in *; try reflexivity.
  destruct (JS.isSpace c).
  - apply andb_true_iff in H. destruct H as [H Hs]. rewrite H. now apply IH.
  - now apply IH.
Qed.

Lemma length_substring_le (s : string) (n : nat) :
  (String.length (substring 0 n s) <= n)%nat.
Proof.
  revert n. induction s as [|c s IH]; intros [|n]; simpl; try lia.
  specialize (IH n). lia.
Qed.

(** X9: the sample text of an element has no white space other than single
    spaces, none of them at its start; it is empty exactly when the element
    has no text content; and for a limit of at least 3 it is no longer than
    the limit. *)
Theorem getSampleText_spec (element : Dom.element) (maxLength : Z) :
  3 <= maxLength ->
  let sample := TypographyRest.getSampleText element maxLength in
  Z.of_nat (String.length sample) <= maxLength
  /\ SpecRest.singleSpaced true sample = true
  /\ JS.truthy sample = TypographyAnalyzer.hasTextContent element.
Proof.
  intros Hm sample. subst sample. unfold TypographyRest.getSampleText.
  rewrite hasTextContent_hasInk.
  set (t := Dom.textContent (Dom.asNode element)).
  destruct (trim_split t) as (w1 & w2 & _ & _ & _ & Hs).
  pose proof (proj1 (trim_hasInk t)) as Hi.
  unfold TypographyRest.collapseSpaces.
  assert (Hss : SpecRest.singleSpaced true (TypographyRest.collapseFrom false (JS.trim t)) = true).
  { rewrite (collapseFrom_start _ Hs). apply collapseFrom_singleSpaced. }
  pose proof (collapseFrom_truthy (JS.trim t)) as Ht.
  set (text := TypographyRest.collapseFrom false (JS.trim t)) in *.
  destruct (maxLength <? Z.of_nat (String.length text)) eqn:E.
  - apply Z.ltb_lt in E. repeat split.
    + rewrite length_app. pose proof (length_substring_le text (Z.to_nat (maxLength - 3))).
      simpl String.length. lia.
    + now apply singleSpaced_substring.
    + rewrite <- Hi, <- Ht. destruct text; [simpl in E; lia|].
      now destruct (substring 0 (Z.to_nat (maxLength - 3)) (String a text)).
  - apply Z.ltb_ge in E. repeat split; [exact E | exact Hss | congruence].
Qed.

Lemma getSampleText_spec_witness :
  Z.of_nat (String.length (TypographyRest.getSampleText FixtureRest.title 10)) <= 10
  /\ SpecRest.singleSpaced true (TypographyRest.getSampleText FixtureRest.title 10) = true
  /\ JS.truthy (TypographyRest.getSampleText FixtureRest.title 10)
     = TypographyAnalyzer.hasTextContent FixtureRest.title.
Proof. apply (getSampleText_spec FixtureRest.title 10). lia. Defined.

(** ** TypographyAnalyzer.cleanFontFamily *)

Section Split.

Variable sep : ascii.

Let notSep (c : ascii) : bool := negb (Ascii.eqb c sep).

Lemma splitOn_plain (a cur : string) :
  Spec.allOf notSep a = true -> JS.splitOn sep a cur = [JS.reverse cur ++ a].
Proof.
  revert cur. induction a as [|c a IH]; intros cur H; simpl in *.
  - now rewrite append_nil_r.
  - apply andb_true_iff in H. destruct H as [Hc Ha]. unfold notSep in Hc.
    apply negb_true_iff in Hc. rewrite Hc, IH by exact Ha.
    now rewrite reverse_cons, append_assoc_s.
Qed.

Lemma splitOn_next (a r cur : string) :
  Spec.allOf notSep a = true ->
  JS.splitOn sep (a ++ String sep r) cur
  = (JS.reverse cur ++ a) :: JS.splitOn sep r EmptyString.
Proof.
  revert cur. induction a as [|c a IH]; intros cur H; simpl in *.
  - now rewrite Ascii.eqb_refl, append_nil_r.
  - apply andb_true_iff in H. destruct H as [Hc Ha]. unfold notSep in Hc.
    apply negb_true_iff in Hc. rewrite Hc, IH by exact Ha.
    now rewrite reverse_cons, append_assoc_s.
Qed.

(** Splitting what was joined gives the parts back. *)
Lemma split_join (a : string) (l : list string) :
  Forall (fun f => Spec.allOf notSep f = true) (a :: l) ->
  JS.split (JS.join (String sep EmptyString) (a :: l)) sep = a :: l.
Proof.
  unfold JS.split. revert a. induction l as [|b l IH]; intros a H.
  - inversion H; subst. simpl. now rewrite splitOn_plain.
  - inversion H as [|? ? Ha Hl]; subst.
    change (JS.join (String sep EmptyString) (a :: b :: l))
      with (a ++ String sep (JS.join (String sep EmptyString) (b :: l))).
    rewrite splitOn_next by exact Ha. now rewrite IH.
Qed.

(** A part of a split string holds no separator. *)
Lemma splitOn_parts (s cur : string) :
  Spec.allOf notSep cur = true ->
  Forall (fun f => Spec.allOf notSep f = true) (JS.splitOn sep s cur).
Proof.
  revert cur. induction s as [|c s IH]; intros cur H; simpl.
  - constructor; [now rewrite allOf_reverse | constructor].
  - destruct (Ascii.eqb c sep) eqn:E.
    + constructor; [now rewrite allOf_reverse | now apply IH].
    + apply IH. simpl. unfold notSep at 1. now rewrite E.
Qed.

End Split.

Lemma allOf_removeAll (p q : ascii -> bool) (s : string) :
  Spec.allOf q s = true -> Spec.allOf q (JS.removeAll p s) = true.
Proof.
  induction s as [|c s IH]; simpl; [auto|].
  intros H. apply andb_true_iff in H. destruct H as [Hc Hs].
  destruct (p c); simpl; [auto | now rewrite Hc, IH].
Qed.

Lemma removeAll_none (p : ascii -> bool) (s : string) :
  Spec.allOf (fun c => negb (p c)) (JS.removeAll p s) = true.
Proof.
  induction s as [|c s IH]; simpl; [reflexivity|].
  destruct (p c) eqn:E; simpl; [exact IH | now rewrite E].
Qed.

Lemma allOf_trim (q : ascii -> bool) (s : string) :
  Spec.allOf q s = true -> Spec.allOf q (JS.trim s) = true.
Proof.
  destruct (trim_split s) as (w1 & w2 & E & _). intros H. rewrite E in H.
  rewrite !allOf_app in H. apply andb_true_iff in H. destruct H as [_ H].
  apply andb_true_iff in H. tauto.
Qed.

Lemma allOf_and (p q : ascii -> bool) (s : string) :
  Spec.allOf p s = true -> Spec.allOf q s = true ->
  Spec.allOf (fun c => p c && q c) s = true.
Proof.
  induction s as [|c s IH]; simpl; [auto|]. rewrite !andb_true_iff.
  intros [Hp Hs] [Hq Hs']. auto.
Qed.

Lemma cleaned_plain (f : string) :
  Spec.allOf (fun c => negb (Ascii.eqb c ",")) f = true ->
  Spec.allOf SpecRest.plainChar (SpecRest.cleaned f) = true.
Proof.
  intros H. unfold SpecRest.plainChar, SpecRest.cleaned. apply allOf_and.
  - apply removeAll_none.
  - apply allOf_removeAll. now apply allOf_trim.
Qed.

Lemma nth_plain (l : list string) (n : nat) :
  Forall (fun f => Spec.allOf (fun c => negb (Ascii.eqb c ",")) f = true) l ->
  Spec.allOf (fun c => negb (Ascii.eqb c ",")) (nth n l EmptyString) = true.
Proof.
  intros H. revert n. induction H as [|x l Hx Hl IH]; intros [|n]; simpl; auto.
Qed.

(** X10: on a font stack [a, b, ...] the result is the first entry,
    trimmed and without quotes, unless that is a system font and a second
    entry exists: then it is the second entry, system font or not; the
    later entries are not read.  Whatever the argument, a result holds
    neither a quote nor a comma, and it is null for the empty string
    only. *)
Theorem cleanFontFamily_stack (a : string) (more : list string) :
  Forall (fun f => Spec.allOf (fun c => negb (Ascii.eqb c ",")) f = true) (a :: more) ->
  JS.truthy (JS.join "," (a :: more)) = true ->
  TypographyAnalyzer.cleanFontFamily (JS.join "," (a :: more))
  = Some (match more with
          | b :: _ => if SpecRest.isSystemFont (SpecRest.cleaned a)
                      then SpecRest.cleaned b else SpecRest.cleaned a
          | [] => SpecRest.cleaned a
          end)
  /\ forall fontFamily,
       match TypographyAnalyzer.cleanFontFamily fontFamily with
       | Some f => Spec.allOf SpecRest.plainChar f = true /\ JS.truthy fontFamily = true
       | None => fontFamily = EmptyString
       end.
Proof.
  intros Hp Ht. split.
  - unfold TypographyAnalyzer.cleanFontFamily. rewrite Ht. cbn [negb].
    rewrite (split_join "," a more Hp). cbn [nth List.length].
    fold (SpecRest.cleaned a). fold (SpecRest.isSystemFont (SpecRest.cleaned a)).
    destruct more as [|b more]; cbn [Nat.ltb Nat.leb List.length].
    + now rewrite andb_false_r.
    + rewrite andb_true_r. now destruct (SpecRest.isSystemFont _).
  - intros fontFamily. unfold TypographyAnalyzer.cleanFontFamily.
    destruct fontFamily as [|c r]; [reflexivity|]. cbn [JS.truthy negb].
    set (s := String c r).
    pose proof (splitOn_parts "," s EmptyString eq_refl) as Hf. fold (JS.split s ",") in Hf.
    destruct (_ && _); (split; [|reflexivity]); apply cleaned_plain; now apply nth_plain.
Qed.

Lemma cleanFontFamily_stack_witness :
  TypographyAnalyzer.cleanFontFamily "system-ui, sans-serif, 'Inter'" = Some "sans-serif".
Proof.
  apply (proj1 (cleanFontFamily_stack "system-ui" [" sans-serif"; " 'Inter'"]
                  ltac:(repeat constructor) eq_refl)).
Defined.

(** ** TypographyAnalyzer.analyzeHeadings *)

Section Headings.

Variable numberToString : JS.number -> string.
Variable doc : Dom.document.

Let entry (tag : string) : list (string * TypographyRest.headingSnapshot) :=
  match Dom.querySelector doc tag with
  | Some element => [(tag, TypographyRest.headingOf numberToString element)]
  | None => []
  end.

Lemma visitHeading_fold (tags : list string)
      (acc : list (string * TypographyRest.headingSnapshot)) :
  fold_left (TypographyRest.visitHeading numberToString doc) tags acc
  = (acc ++ flat_map entry tags)%list.
Proof.
  revert acc. induction tags as [|t tags IH]; intros acc; simpl.
  - now rewrite app_nil_r.
  - rewrite IH. unfold TypographyRest.visitHeading, entry.
    destruct (Dom.querySelector doc t); [now rewrite <- app_assoc | reflexivity].
Qed.

Lemma entries_keys (tags : list string) :
  map fst (flat_map entry tags)
  = filter (fun t => match Dom.querySelector doc t with Some _ => true | None => false end)
           tags.
Proof.
  induction tags as [|t tags IH]; simpl; [reflexivity|].
  rewrite map_app, IH. unfold entry. now destruct (Dom.querySelector doc t).
Qed.

Lemma entries_values (tags : list string) :
  Forall (fun kv => exists element,
              Dom.querySelector doc (fst kv) = Some element
              /\ snd kv = TypographyRest.headingOf numberToString element)
         (flat_map entry tags).
Proof.
  induction tags as [|t tags IH]; simpl; [constructor|].
  apply Forall_app. split; [|exact IH]. unfold entry.
  destruct (Dom.querySelector doc t) as [el|] eqn:E; constructor; [|constructor].
  exists el. auto.
Qed.

End Headings.

Lemma sample_50 (element : Dom.element) :
  (String.length (TypographyRest.getSampleText element 50) <= 50)%nat.
Proof.
  unfold TypographyRest.getSampleText.
  set (text := TypographyRest.collapseSpaces _).
  destruct (50 <? Z.of_nat (String.length text)) eqn:E.
  - rewrite length_app. change (Z.to_nat (50 - 3)) with 47%nat.
    pose proof (length_substring_le text 47). change (String.length "...") with 3%nat. lia.
  - apply Z.ltb_ge in E. lia.
Qed.

(** X11: the headings object has one entry for each of h1 to h6 that the
    page has, in that order, taken from the first element of the tag, with
    a sample of at most 50 characters; the result is null exactly when the
    page has no heading. *)
Theorem analyzeHeadings_spec (numberToString : JS.number -> string) (doc : Dom.document) :
  let present :=
    filter (fun t => match Dom.querySelector doc t with Some _ => true | None => false end)
           TypographyRest.headingTags in
  match TypographyRest.analyzeHeadings numberToString doc with
  | Some headings =>
      map fst headings = present
      /\ (0 < List.length present)%nat
      /\ Forall (fun kv => exists element,
                     Dom.querySelector doc (fst kv) = Some element
                     /\ snd kv = TypographyRest.headingOf numberToString element
                     /\ (String.length (TypographyRest.h_sample (snd kv)) <= 50)%nat)
                headings
  | None => present = []
  end.
Proof.
  intros present. subst present. unfold TypographyRest.analyzeHeadings.
  rewrite visitHeading_fold. cbn [app].
  rewrite <- entries_keys with (numberToString := numberToString).
  pose proof (entries_values numberToString doc TypographyRest.headingTags) as Hv.
  set (hs := flat_map _ TypographyRest.headingTags) in *.
  destruct (0 <? List.length hs)%nat eqn:E.
  - apply Nat.ltb_lt in E. split; [reflexivity|]. split; [now rewrite length_map|].
    eapply Forall_impl; [|exact Hv]. intros kv [el [H1 H2]]. exists el.
    repeat split; auto. rewrite H2. apply sample_50.
  - apply Nat.ltb_ge in E. destruct hs; [reflexivity | simpl in E; lia].
Qed.

(** ** TypographyAnalyzer.toHex *)

Lemma rgbComputed_form (s d1 d2 d3 : string) :
  SpecRest.rgbComputed s d1 d2 d3 -> Spec.rgbForm s d1 d2 d3.
Proof.
  intros (a & w4 & w6 & rest & -> & Ha & H4 & H6 & D1 & D2 & D3 & Hrest).
  exists a, EmptyString, EmptyString, EmptyString, w4, EmptyString, w6, rest.
  repeat split; auto.
Qed.

Lemma typography_rgbMatchHere (s d1 d2 d3 : string) :
  SpecRest.rgbComputed s d1 d2 d3 -> TypographyAnalyzer.rgbMatchHere s = Some (d1, d2, d3).
Proof.
  intros (a & w4 & w6 & rest & -> & Ha & H4 & H6 & D1 & D2 & D3 & Hrest).
  pose proof (digits_inv _ D1) as [T1 A1].
  pose proof (digits_inv _ D2) as [T2 A2].
  pose proof (digits_inv _ D3) as [T3 A3].
  unfold TypographyAnalyzer.rgbMatchHere.
  change (JS.expect "rgb" ("rgb" ++ ?x)) with (Some x). cbv beta iota.
  rewrite optional_a; [|exact Ha|reflexivity].
  change (JS.expect "(" ("(" ++ ?x)) with (Some x). cbv beta iota.
  rewrite many1_app by (auto; reflexivity). cbv beta iota.
  change (JS.expect "," ("," ++ ?x)) with (Some x). cbv beta iota.
  rewrite (dropWhile_app _ w4) by (auto using digits_outside_space).
  rewrite many1_app by (auto; reflexivity). cbv beta iota.
  change (JS.expect "," ("," ++ ?x)) with (Some x). cbv beta iota.
  rewrite (dropWhile_app _ w6) by (auto using digits_outside_space).
  rewrite many1_app by auto.
  reflexivity.
Qed.

(** X12: on a colour as a computed style gives it, [rgb(r, g, b)] or
    [rgba(r, g, b, a)] with channels of at most 255, the [toHex] of the
    typography module returns # and the two upper-case hex digits of each
    channel, the same colour as the [toHex] of the colour module. *)
Theorem typography_toHex_computed (canvasFillStyle : string -> option string)
        (maxStack : nat) (s d1 d2 d3 : string) :
  SpecRest.rgbComputed s d1 d2 d3 ->
  Spec.decimal d1 <= 255 -> Spec.decimal d2 <= 255 -> Spec.decimal d3 <= 255 ->
  let h := "#" ++ Spec.hexByte (Spec.decimal d1) ++ Spec.hexByte (Spec.decimal d2)
               ++ Spec.hexByte (Spec.decimal d3) in
  TypographyAnalyzer.toHex s = h
  /\ Spec.isHexColor h = true
  /\ ColorAnalyzer.toHex canvasFillStyle maxStack s = Some h.
Proof.
  intros Hs V1 V2 V3 h. subst h.
  pose proof (typography_rgbMatchHere _ _ _ _ Hs) as Hm.
  destruct (rgbBranch_form _ _ _ _ (rgbComputed_form _ _ _ _ Hs) V1 V2 V3) as [Hb Hx].
  assert (Hrgb : JS.startsWith s "rgb" = true /\ JS.truthy s = true).
  { destruct Hs as (a & w4 & w6 & rest & -> & _). split; reflexivity. }
  destruct Hrgb as [Hrgb Ht].
  split; [|split; [exact Hx | now apply toHex_rgbBranch]].
  unfold ColorAnalyzer.rgbBranch in Hb. rewrite Hrgb in Hb.
  unfold TypographyAnalyzer.toHex. rewrite Hrgb, (search_here _ _ _ Hm). cbv beta iota.
  destruct (JS.search ColorAnalyzer.rgbMatchHere s) as [[[m1 m2] m3]|] eqn:Ec; [|discriminate].
  pose proof (search_here _ _ _ (rgbMatchHere_form _ _ _ _ (rgbComputed_form _ _ _ _ Hs))) as Hc.
  rewrite Hc in Ec. injection Ec as <- <- <-. cbv beta iota zeta in Hb.
  apply (f_equal ColorAnalyzer.orEmpty) in Hb. exact Hb.
Qed.

Lemma typography_toHex_computed_witness :
  TypographyAnalyzer.toHex "rgba(51, 102, 255, 0.5)" = "#3366FF"
  /\ Spec.isHexColor "#3366FF" = true
  /\ ColorAnalyzer.toHex Fixture.noCanvas 0 "rgba(51, 102, 255, 0.5)" = Some "#3366FF".
Proof.
  apply (typography_toHex_computed Fixture.noCanvas 0 "rgba(51, 102, 255, 0.5)"
           "51" "102" "255").
  - exists "a", " ", " ", ", 0.5)". repeat split; try reflexivity. now right.
  - vm_compute. discriminate.
  - vm_compute. discriminate.
  - vm_compute. discriminate.
Defined.

(** ** TypographyAnalyzer.analyzeBodyText and analyze *)

Lemma probe_spec (doc : Dom.document) (sels : list string) (start : option Dom.element) :
  TypographyAnalyzer.probe doc sels start
  = match SpecRest.firstAccepted doc sels with
    | Some sel => Dom.querySelector doc sel
    | None => match sels with
              | [] => start
              | _ => Dom.querySelector doc (List.last sels EmptyString)
              end
    end.
Proof.
  unfold SpecRest.firstAccepted. revert start.
  induction sels as [|sel rest IH]; intros start; [reflexivity|].
  cbn [TypographyAnalyzer.probe find]. unfold Spec.accepts at 1.
  destruct (Dom.querySelector doc sel) as [el|] eqn:E.
  - destruct (TypographyAnalyzer.hasDirectTextContent el); [now rewrite E|].
    rewrite IH. destruct (find _ rest); [reflexivity|]. destruct rest; [symmetry; exact E | reflexivity].
  - rewrite IH. destruct (find _ rest); [reflexivity|]. destruct rest; [symmetry; exact E | reflexivity].
Qed.

Lemma firstAccepted_found (doc : Dom.document) (sels : list string) (sel : string) :
  SpecRest.firstAccepted doc sels = Some sel ->
  exists el, Dom.querySelector doc sel = Some el
             /\ TypographyAnalyzer.hasDirectTextContent el = true.
Proof.
  intros H. apply find_some in H. destruct H as [_ H]. unfold Spec.accepts in H.
  destruct (Dom.querySelector doc sel) as [el|]; [|discriminate]. now exists el.
Qed.

(** X13: the element whose style [analyzeBodyText] reads is the one found
    for the first of p, body, .content, main, article whose element has
    direct text content; when there is none it is the article element if
    the page has one, and document.body only otherwise.  The analysis of
    the typography module throws exactly when there is none of the
    three. *)
Theorem bodyTextElement_spec (numberToString : JS.number -> string) (doc : Dom.document) :
  TypographyAnalyzer.bodyTextElement doc
  = match SpecRest.firstAccepted doc TypographyAnalyzer.selectors with
    | Some sel => Dom.querySelector doc sel
    | None => match Dom.querySelector doc "article" with
              | Some el => Some el
              | None => Dom.body doc
              end
    end
  /\ (TypographyRest.analyze numberToString doc = None
      <-> SpecRest.firstAccepted doc TypographyAnalyzer.selectors = None
          /\ Dom.querySelector doc "article" = None
          /\ Dom.body doc = None).
Proof.
  assert (E : TypographyAnalyzer.bodyTextElement doc
              = match SpecRest.firstAccepted doc TypographyAnalyzer.selectors with
                | Some sel => Dom.querySelector doc sel
                | None => match Dom.querySelector doc "article" with
                          | Some el => Some el
                          | None => Dom.body doc
                          end
                end).
  { unfold TypographyAnalyzer.bodyTextElement. rewrite probe_spec.
    destruct (SpecRest.firstAccepted doc TypographyAnalyzer.selectors) as [sel|] eqn:F.
    - destruct (firstAccepted_found _ _ _ F) as [el [-> _]]. reflexivity.
    - reflexivity. }
  split; [exact E|].
  unfold TypographyRest.analyze, TypographyAnalyzer.analyzeBodyText. rewrite E.
  destruct (SpecRest.firstAccepted doc TypographyAnalyzer.selectors) as [sel|] eqn:F.
  - destruct (firstAccepted_found _ _ _ F) as [el [-> _]]. cbn.
    split; [discriminate | intros [H _]; discriminate].
  - destruct (Dom.querySelector doc "article"); cbn.
    + split; [discriminate | intros [_ [H _]]; discriminate].
    + destruct (Dom.body doc); cbn.
      * split; [discriminate | intros [_ [_ H]]; discriminate].
      * tauto.
Qed.

(** ** ImageAnalyzer.getFileType *)

Section LastPart.

Variable sep : ascii.

Let notSep (c : ascii) : bool := negb (Ascii.eqb c sep).

Lemma splitOn_nonempty (s cur : string) : JS.splitOn sep s cur <> [].
Proof.
  revert cur. induction s as [|c s IH]; intros cur; simpl; [discriminate|].
  destruct (Ascii.eqb c sep); [discriminate | apply IH].
Qed.

(** The last part of a split string is what follows the last separator. *)
Lemma pop_split (base t cur : string) :
  Spec.allOf notSep t = true ->
  ImageRest.pop (JS.splitOn sep (base ++ String sep t) cur) = t.
Proof.
  intros Ht. unfold ImageRest.pop. revert cur.
  induction base as [|c b IH]; intros cur; simpl.
  - rewrite Ascii.eqb_refl, (splitOn_plain sep t EmptyString Ht). reflexivity.
  - destruct (Ascii.eqb c sep); [|apply IH].
    specialize (IH EmptyString).
    destruct (JS.splitOn sep (b ++ String sep t) EmptyString) as [|x l] eqn:E.
    + now apply splitOn_nonempty in E.
    + exact IH.
Qed.

(** The first part of a split string is what precedes the first
    separator. *)
Lemma first_split (a rest : string) :
  Spec.allOf notSep a = true ->
  Spec.startsOutside notSep rest = true ->
  nth 0 (JS.split (a ++ rest) sep) EmptyString = a.
Proof.
  intros Ha Hr. unfold JS.split. destruct rest as [|c r].
  - rewrite append_nil_r, (splitOn_plain sep a EmptyString Ha). reflexivity.
  - simpl in Hr. unfold notSep in Hr. rewrite negb_involutive in Hr.
    apply Ascii.eqb_eq in Hr. subst c.
    rewrite (splitOn_next sep a r EmptyString Ha). reflexivity.
Qed.

End LastPart.

Lemma truthy_app_cons (a : string) (c : ascii) (b : string) :
  JS.truthy (a ++ String c b) = true.
Proof. now destruct a. Qed.

(** X14: the type of an address that is not a data URI is read after its
    last point, up to a question mark, in lower case: for
    [base.ext] or [base.ext?query], with no point in the query, it is the
    extension when that is one of the nine known types, and [unknown]
    otherwise. *)
Theorem getFileType_extension (base ext rest : string) :
  let url := base ++ "." ++ ext ++ rest in
  Spec.allOf (fun c => negb (Ascii.eqb c ".")) (ext ++ rest) = true ->
  Spec.allOf (fun c => negb (Ascii.eqb c "?")) ext = true ->
  Spec.startsOutside (fun c => negb (Ascii.eqb c "?")) rest = true ->
  JS.startsWith url "data:" = false ->
  ImageRest.getFileType url
  = if existsb (String.eqb (JS.toLowerCase ext)) ImageRest.validTypes
    then JS.toLowerCase ext else "unknown".
Proof.
  intros url Hdot Hq Hrest Hdata. subst url. unfold ImageRest.getFileType.
  change ("." ++ ext ++ rest) with (String "." (ext ++ rest)) in *.
  rewrite truthy_app_cons, Hdata. cbn [negb].
  assert (E : ImageRest.pop (JS.split (base ++ String "." (ext ++ rest)) ".") = ext ++ rest)
    by apply (pop_split "." base (ext ++ rest) EmptyString Hdot).
  rewrite !E, !(first_split "?" ext rest Hq Hrest). reflexivity.
Qed.

Lemma getFileType_extension_witness :
  ImageRest.getFileType "https://cdn.example.com/img/logo.v2.PNG?width=200" = "png".
Proof.
  apply (getFileType_extension "https://cdn.example.com/img/logo.v2" "PNG" "?width=200");
    reflexivity.
Defined.

Lemma search_inv {A : Type} (f : string -> option A) (s : string) (r : A) :
  JS.search f s = Some r -> exists s', f s' = Some r.
Proof.
  induction s as [|c s IH]; simpl.
  - destruct (f EmptyString) eqn:E; [intros H; injection H as ->; eauto | discriminate].
  - destruct (f (String c s)) eqn:E; [intros H; injection H as ->; eauto | exact IH].
Qed.

Lemma many1_inv (p : ascii -> bool) (s m r : string) :
  JS.many1 p s = Some (m, r) -> JS.truthy m = true /\ Spec.allOf p m = true.
Proof.
  unfold JS.many1. destruct (takeWhile_dropWhile p s) as (_ & Ha & _).
  destruct (JS.takeWhile p s) as [|c t]; [discriminate|].
  intros H. injection H as <- _. auto.
Qed.

(** X15: the type is never empty and is made of letters, digits and
    underscores; for an address that is not a data URI it is [unknown] or
    one of the nine known types. *)
Theorem getFileType_word (url : string) :
  JS.truthy (ImageRest.getFileType url) = true
  /\ Spec.allOf ImageRest.isWord (ImageRest.getFileType url) = true
  /\ (JS.startsWith url "data:" = false ->
      In (ImageRest.getFileType url) ("unknown" :: ImageRest.validTypes)).
Proof.
  assert (Hv : Forall (fun t => JS.truthy t = true /\ Spec.allOf ImageRest.isWord t = true)
                      ImageRest.validTypes) by (repeat constructor).
  unfold ImageRest.getFileType. destruct (JS.truthy url); cbn [negb].
  2:{ repeat split. now left. }
  destruct (JS.startsWith url "data:").
  - destruct (JS.search ImageRest.dataMatchHere url) as [m|] eqn:E.
    2:{ repeat split. discriminate. }
    apply search_inv in E. destruct E as [s' E]. unfold ImageRest.dataMatchHere in E.
    destruct (JS.expect "data:image/" s') as [s1|]; [|discriminate].
    destruct (JS.many1 ImageRest.isWord s1) as [[m' r]|] eqn:Em; [|discriminate].
    injection E as ->. apply many1_inv in Em. destruct Em as [H1 H2].
    repeat split; auto. discriminate.
  - set (extension := JS.toLowerCase _).
    destruct (existsb (String.eqb extension) ImageRest.validTypes) eqn:E.
    2:{ repeat split. now left. }
    apply existsb_exists in E. destruct E as [t [Ht E]]. apply String.eqb_eq in E. subst t.
    rewrite Forall_forall in Hv. destruct (Hv _ Ht) as [H1 H2].
    repeat split; auto. intros _. now right.
Qed.

(** ** ImageAnalyzer.getImageInfo and getAllImages *)

Lemma getImageInfo_infoOf (img : ImageRest.imgData) :
  ImageRest.getImageInfo img
  = if JS.truthy (ImageRest.src img) then Some (SpecRest.infoOf img) else None.
Proof.
  unfold ImageRest.getImageInfo, SpecRest.infoOf.
  destruct (JS.truthy (ImageRest.src img)); [|reflexivity]. cbn [negb].
  now destruct (ImageRest.alt img).
Qed.

Lemma visitImage_fold (imgs : list ImageRest.imgData) (acc : list ImageRest.imageInfo) :
  fold_left ImageRest.visitImage imgs acc
  = (acc ++ map SpecRest.infoOf (filter SpecRest.keptImage imgs))%list.
Proof.
  revert acc. induction imgs as [|img imgs IH]; intros acc; simpl.
  - now rewrite app_nil_r.
  - rewrite IH. unfold ImageRest.visitImage, SpecRest.keptImage.
    rewrite getImageInfo_infoOf.
    destruct (_ || _); [reflexivity|]. destruct (_ && _); [reflexivity|].
    cbn [negb andb]. destruct (JS.truthy (ImageRest.src img)) eqn:E; [|reflexivity].
    cbn [SpecRest.infoOf ImageRest.i_url]. rewrite E. cbn [map]. now rewrite <- app_assoc.
Qed.

(** X16: the images reported are the records of the images that are at
    least 10 by 10 as displayed and have an address other than a data URI of
    less than 100 characters, each as often as the page has it, the larger
    area first. *)
Theorem getAllImages_spec (imgOf : Dom.element -> ImageRest.imgData) (doc : Dom.document) :
  let imgs := map imgOf (Dom.querySelectorAll doc "img[src]") in
  Permutation (ImageRest.getAllImages imgOf doc)
              (map SpecRest.infoOf (filter SpecRest.keptImage imgs))
  /\ StronglySorted SpecRest.largerFirst (ImageRest.getAllImages imgOf doc).
Proof.
  intros imgs. subst imgs. unfold ImageRest.getAllImages. rewrite visitImage_fold.
  cbn [app]. split; [apply sort_perm|].
  eapply StronglySorted_cmp_weaken;
    [|apply (sort_sorted (fun a b => Z.sgn (ImageRest.area b - ImageRest.area a))
                         (fun _ => True))].
  - intros a b H. cbv beta in H. unfold SpecRest.largerFirst. apply Z.sgn_nonpos in H. lia.
  - intros a b _ _. rewrite !Z.sgn_nonpos. lia.
  - intros a b c _ _ _. rewrite !Z.sgn_nonpos. lia.
  - apply Forall_forall. auto.
Qed.

(** ** ImageAnalyzer.getBackgroundImages *)

Lemma keepUnique_fold (bgs out : list ImageRest.background) :
  NoDup (map ImageRest.b_url out) ->
  let st := fold_left ImageRest.keepUnique bgs (out, map ImageRest.b_url out) in
  snd st = map ImageRest.b_url (fst st)
  /\ NoDup (map ImageRest.b_url (fst st))
  /\ (forall u, In u (map ImageRest.b_url (fst st))
                <-> In u (map ImageRest.b_url out) \/ In u (map ImageRest.b_url bgs))
  /\ (forall bg, In bg (fst st) ->
                 In bg out
                 \/ exists pre post,
                      bgs = (pre ++ bg :: post)%list
                      /\ ~ In (ImageRest.b_url bg) (map ImageRest.b_url pre)
                      /\ ~ In (ImageRest.b_url bg) (map ImageRest.b_url out)).
Proof.
  revert out. induction bgs as [|bg bgs IH]; intros out Hn; cbv zeta; cbn [fold_left].
  - cbn. repeat split; auto; tauto.
  - destruct (existsb (String.eqb (ImageRest.b_url bg)) (map ImageRest.b_url out)) eqn:E.
    + assert (Ek : ImageRest.keepUnique (out, map ImageRest.b_url out) bg
                   = (out, map ImageRest.b_url out))
        by (unfold ImageRest.keepUnique; now rewrite E).
      rewrite Ek.
      apply seen_spec in E. destruct (IH out Hn) as (H1 & H2 & H3 & H4).
      split; [exact H1|]. split; [exact H2|]. split.
      * intros u. rewrite H3. cbn. intuition (subst; auto).
      * intros x Hx. destruct (H4 x Hx) as [H|(pre & post & -> & Hp & Ho)]; [now left|].
        right. exists (bg :: pre), post. split; [reflexivity|]. split; [|exact Ho].
        cbn. intros [H|H]; [|now apply Hp]. apply Ho. now rewrite <- H.
    + assert (Hnew : ~ In (ImageRest.b_url bg) (map ImageRest.b_url out)).
      { intros H. apply seen_spec in H. congruence. }
      assert (Es : ColorAnalyzer.setAdd (map ImageRest.b_url out) (ImageRest.b_url bg)
                   = map ImageRest.b_url (out ++ [bg])%list).
      { unfold ColorAnalyzer.setAdd. rewrite E, map_app. reflexivity. }
      assert (Ek : ImageRest.keepUnique (out, map ImageRest.b_url out) bg
                   = ((out ++ [bg])%list, map ImageRest.b_url (out ++ [bg])%list))
        by (unfold ImageRest.keepUnique; now rewrite E, Es).
      rewrite Ek.
      assert (Hn' : NoDup (map ImageRest.b_url (out ++ [bg])%list)).
      { rewrite <- Es. now apply setAdd_NoDup. }
      destruct (IH (out ++ [bg])%list Hn') as (H1 & H2 & H3 & H4).
      split; [exact H1|]. split; [exact H2|]. split.
      * intros u. rewrite H3, map_app, in_app_iff. cbn. tauto.
      * intros x Hx. destruct (H4 x Hx) as [H|(pre & post & -> & Hp & Ho)].
        -- apply in_app_iff in H. destruct H as [H|[<-|[]]]; [now left|].
           right. exists [], bgs. repeat split; auto.
        -- right. exists (bg :: pre), post. split; [reflexivity|].
           rewrite map_app, in_app_iff in Ho. cbn in Ho. split; [|tauto].
           cbn. intros [H|H]; [|now apply Hp]. apply Ho. right. now left.
Qed.

(** X17: the backgrounds reported have distinct addresses, and these are
    the addresses of the backgrounds collected from the page; each address
    is reported with the first element that uses it, and none is lost. *)
Theorem getBackgroundImages_unique
        (backgroundImageOf idOf : Dom.element -> string)
        (classNameOf : Dom.element -> option string)
        (newURL : string -> option string) (doc : Dom.document) :
  let collected :=
    fold_left (ImageRest.visitBackground backgroundImageOf idOf classNameOf newURL)
              (Dom.querySelectorAll doc "*") [] in
  let result :=
    ImageRest.getBackgroundImages backgroundImageOf idOf classNameOf newURL doc in
  NoDup (map ImageRest.b_url result)
  /\ (forall u, In u (map ImageRest.b_url result) <-> In u (map ImageRest.b_url collected))
  /\ Forall (fun bg => exists pre post,
                 collected = (pre ++ bg :: post)%list
                 /\ ~ In (ImageRest.b_url bg) (map ImageRest.b_url pre))
            result.
Proof.
  intros collected result. subst result. unfold ImageRest.getBackgroundImages.
  fold collected.
  destruct (keepUnique_fold collected [] (NoDup_nil _)) as (_ & H2 & H3 & H4).
  cbn [map] in *. split; [exact H2|]. split.
  - intros u. rewrite H3. cbn. tauto.
  - apply Forall_forall. intros bg Hb.
    destruct (H4 bg Hb) as [[]|(pre & post & E & Hp & _)]. eauto.
Qed.

Lemma optionalQuote_strip (q r : string) :
  SpecRest.quoteOpt q = true ->
  Spec.startsOutside TypographyAnalyzer.isQuote r = true ->
  JS.truthy r = true ->
  ImageRest.optionalQuote (q ++ r) = r.
Proof.
  unfold SpecRest.quoteOpt. rewrite !orb_true_iff, !String.eqb_eq.
  intros [[-> | ->] | ->] Hr Ht; try reflexivity.
  destruct r as [|c r]; [discriminate|]. cbn in *.
  unfold TypographyAnalyzer.isQuote in Hr. apply negb_true_iff in Hr. now rewrite Hr.
Qed.

Lemma urlMatchHere_layer (q1 u q2 rest : string) :
  SpecRest.quoteOpt q1 = true -> SpecRest.quoteOpt q2 = true ->
  JS.truthy u = true -> Spec.allOf ImageRest.isUrlChar u = true ->
  ImageRest.urlMatchHere ("url(" ++ q1 ++ u ++ q2 ++ ")" ++ rest) = Some u.
Proof.
  intros H1 H2 Ht Hu. unfold ImageRest.urlMatchHere.
  change (JS.expect "url(" ("url(" ++ ?x)) with (Some x). cbv beta iota.
  rewrite optionalQuote_strip; [|exact H1| |now destruct u].
  2:{ destruct u as [|c u]; [discriminate|]. cbn in *.
      apply andb_true_iff in Hu. destruct Hu as [Hc _].
      unfold ImageRest.isUrlChar in Hc. apply negb_true_iff, orb_false_iff in Hc.
      unfold TypographyAnalyzer.isQuote. now rewrite (proj1 Hc). }
  assert (Hq : Spec.startsOutside ImageRest.isUrlChar (q2 ++ ")" ++ rest) = true).
  { unfold SpecRest.quoteOpt in H2. rewrite !orb_true_iff, !String.eqb_eq in H2.
    destruct H2 as [[-> | ->] | ->]; reflexivity. }
  rewrite many1_app by auto. cbv beta iota.
  rewrite optionalQuote_strip; [reflexivity | exact H2 | reflexivity | reflexivity].
Qed.

(** X18: of a background image [url(Q u Q) ...], with or without quotes,
    the address [u] of the first layer is read and what follows is not: the
    element adds one background, with the address resolved and its own
    selector, unless [u] is a data URI or holds the word gradient. *)
Theorem visitBackground_first_layer
        (backgroundImageOf idOf : Dom.element -> string)
        (classNameOf : Dom.element -> option string)
        (newURL : string -> option string)
        (backgrounds : list ImageRest.background) (element : Dom.element)
        (q1 u q2 rest : string) :
  backgroundImageOf element = "url(" ++ q1 ++ u ++ q2 ++ ")" ++ rest ->
  SpecRest.quoteOpt q1 = true -> SpecRest.quoteOpt q2 = true ->
  JS.truthy u = true -> Spec.allOf ImageRest.isUrlChar u = true ->
  ImageRest.visitBackground backgroundImageOf idOf classNameOf newURL backgrounds element
  = if JS.startsWith u "data:" || JS.includes u "gradient" then backgrounds
    else (backgrounds
          ++ [ {| ImageRest.b_url := ImageRest.resolveUrl newURL u;
                  ImageRest.b_element :=
                    ImageRest.getElementSelector idOf classNameOf element |} ])%list.
Proof.
  intros E H1 H2 Ht Hu. unfold ImageRest.visitBackground. rewrite E.
  rewrite (search_here _ _ _ (urlMatchHere_layer q1 u q2 rest H1 H2 Ht Hu)).
  rewrite Ht. reflexivity.
Qed.

Lemma visitBackground_first_layer_witness :
  ImageRest.visitBackground FixtureRest.heroLayers FixtureRest.noId FixtureRest.heroClass
                            FixtureRest.fromExample [] FixtureRest.hero
  = [ {| ImageRest.b_url := "https://example.com/img/hero.png";
         ImageRest.b_element := "div.hero" |} ].
Proof.
  apply (visitBackground_first_layer
           FixtureRest.heroLayers FixtureRest.noId FixtureRest.heroClass
           FixtureRest.fromExample [] FixtureRest.hero
           (String JS.doubleQuote EmptyString) "img/hero.png"
           (String JS.doubleQuote EmptyString)
           (", url(" ++ JS.quoted "img/grain.png" ++ ")"));
    reflexivity.
Defined.

(** ** ImageAnalyzer.getSvgInfo *)

Lemma find_setAttr (l : list (string * string)) (k v k' : string) :
  find (fun kv => String.eqb (fst kv) k') (ImageAnalyzer.setAttr l k v)
  = if String.eqb k k' then Some (k, v)
    else find (fun kv => String.eqb (fst kv) k') l.
Proof.
  induction l as [|[k0 v0] l IH]; cbn.
  - now destruct (String.eqb k k').
  - destruct (String.eqb k0 k) eqn:E0; cbn.
    + apply String.eqb_eq in E0. subst k0. now destruct (String.eqb k k').
    + rewrite IH. destruct (String.eqb k0 k') eqn:E1; [|reflexivity].
      apply String.eqb_eq in E1. subst k0. now rewrite String.eqb_sym, E0.
Qed.

Lemma getAttribute_setAttribute (e : Dom.elemData) (k v k' : string) :
  ImageAnalyzer.getAttribute (ImageAnalyzer.setAttribute e k v) k'
  = if String.eqb k k' then Some v else ImageAnalyzer.getAttribute e k'.
Proof.
  unfold ImageAnalyzer.getAttribute, ImageAnalyzer.setAttribute. cbn [Dom.attributes].
  rewrite find_setAttr. now destruct (String.eqb k k').
Qed.

Lemma getAttribute_setDimension (e : Dom.elemData) (k k' : string)
      (d : ImageAnalyzer.dimension) :
  ImageAnalyzer.getAttribute (ImageAnalyzer.setDimension e k d) k'
  = if String.eqb k k' then
      match d with
      | ImageAnalyzer.DNum i => Some (JS.toStringRadix i 10)
      | ImageAnalyzer.DStr a => Some a
      | ImageAnalyzer.DNull => ImageAnalyzer.getAttribute e k'
      end
    else ImageAnalyzer.getAttribute e k'.
Proof.
  destruct d; cbn [ImageAnalyzer.setDimension]; rewrite ?getAttribute_setAttribute;
    now destruct (String.eqb k k').
Qed.

Lemma dimensionOf_cases (x : JS.number) (attr : option string) :
  match ImageAnalyzer.dimensionOf x attr with
  | ImageAnalyzer.DNum i => JS.Math_round x = i /\ i <> JS.JInt 0 /\ i <> JS.JNaN
  | ImageAnalyzer.DStr a => attr = Some a /\ JS.truthy a = true
  | ImageAnalyzer.DNull => attr = None \/ attr = Some EmptyString
  end.
Proof.
  unfold ImageAnalyzer.dimensionOf.
  destruct (JS.Math_round x) as [|neg|[|p|p]]; try (repeat split; discriminate);
    destruct attr as [[|c a]|]; cbn; auto.
Qed.

(** X19: what is serialized is a copy of the [svg] with the same tag and
    children that differs from it in three attributes at most: it always
    has a non-empty [xmlns], the one of the [svg] when that has one; its
    [width] and [height] are the reported ones when these are not null.  A
    reported size is the rounded side of the bounding box when that is
    neither 0 nor NaN, else the non-empty attribute of the [svg], else
    null. *)
Theorem getSvgInfo_clone (serializeToString : Dom.node -> string) (svg : Dom.element) :
  let info := ImageAnalyzer.getSvgInfo serializeToString svg in
  let written (d : ImageAnalyzer.dimension) (x : JS.number) (before after : option string) :=
    match d with
    | ImageAnalyzer.DNum i =>
        JS.Math_round x = i /\ i <> JS.JInt 0 /\ i <> JS.JNaN
        /\ after = Some (JS.toStringRadix i 10)
    | ImageAnalyzer.DStr a => before = Some a /\ JS.truthy a = true /\ after = Some a
    | ImageAnalyzer.DNull => (before = None \/ before = Some EmptyString) /\ after = before
    end in
  exists clone,
    ImageAnalyzer.content info = serializeToString (Dom.Elem clone (snd svg))
    /\ Dom.tagName clone = Dom.tagName (fst svg)
    /\ (exists v, ImageAnalyzer.getAttribute clone "xmlns" = Some v /\ JS.truthy v = true
                  /\ (forall v0, ImageAnalyzer.getAttribute (fst svg) "xmlns" = Some v0 ->
                                 JS.truthy v0 = true -> v = v0))
    /\ written (ImageAnalyzer.width info) (Dom.rectWidth (fst svg))
               (ImageAnalyzer.getAttribute (fst svg) "width")
               (ImageAnalyzer.getAttribute clone "width")
    /\ written (ImageAnalyzer.height info) (Dom.rectHeight (fst svg))
               (ImageAnalyzer.getAttribute (fst svg) "height")
               (ImageAnalyzer.getAttribute clone "height")
    /\ forall k, k <> "xmlns" -> k <> "width" -> k <> "height" ->
                 ImageAnalyzer.getAttribute clone k = ImageAnalyzer.getAttribute (fst svg) k.
Proof.
  intros info written. subst info. unfold ImageAnalyzer.getSvgInfo.
  cbn [ImageAnalyzer.content ImageAnalyzer.width ImageAnalyzer.height].
  set (e := fst svg).
  set (w := ImageAnalyzer.dimensionOf (Dom.rectWidth e) (ImageAnalyzer.getAttribute e "width")).
  set (h := ImageAnalyzer.dimensionOf (Dom.rectHeight e) (ImageAnalyzer.getAttribute e "height")).
  set (c1 := match ImageAnalyzer.getAttribute e "xmlns" with
             | Some v => if JS.truthy v then e
                         else ImageAnalyzer.setAttribute e "xmlns" "http://www.w3.org/2000/svg"
             | None => ImageAnalyzer.setAttribute e "xmlns" "http://www.w3.org/2000/svg"
             end).
  assert (Htag : forall x k d, Dom.tagName (ImageAnalyzer.setDimension x k d) = Dom.tagName x)
    by (intros x k []; reflexivity).
  assert (H1 : Dom.tagName c1 = Dom.tagName e
               /\ (exists v, ImageAnalyzer.getAttribute c1 "xmlns" = Some v
                             /\ JS.truthy v = true
                             /\ (forall v0, ImageAnalyzer.getAttribute e "xmlns" = Some v0 ->
                                            JS.truthy v0 = true -> v = v0))
               /\ forall k, k <> "xmlns" ->
                            ImageAnalyzer.getAttribute c1 k = ImageAnalyzer.getAttribute e k).
  { subst c1. destruct (ImageAnalyzer.getAttribute e "xmlns") as [v|] eqn:Ex.
    - destruct (JS.truthy v) eqn:Ev.
      + split; [reflexivity|]. split; [|reflexivity].
        exists v. repeat split; auto. intros v0 H _. congruence.
      + split; [reflexivity|]. split.
        * eexists. rewrite getAttribute_setAttribute. cbn. repeat split.
          intros v0 H Hv0. congruence.
        * intros k Hk. rewrite getAttribute_setAttribute.
          apply String.eqb_neq in Hk. now rewrite String.eqb_sym, Hk.
    - split; [reflexivity|]. split.
      + eexists. rewrite getAttribute_setAttribute. cbn. repeat split. discriminate.
      + intros k Hk. rewrite getAttribute_setAttribute.
        apply String.eqb_neq in Hk. now rewrite String.eqb_sym, Hk. }
  destruct H1 as (Ht & (v & Hv & Hvt & Hv0) & Hk).
  exists (ImageAnalyzer.setDimension (ImageAnalyzer.setDimension c1 "width" w) "height" h).
  split; [reflexivity|]. split; [now rewrite !Htag|]. split.
  { exists v. rewrite !getAttribute_setDimension. cbn. auto. }
  split.
  { rewrite !getAttribute_setDimension. cbn [String.eqb Ascii.eqb Bool.eqb].
    rewrite (Hk "width") by discriminate.
    pose proof (dimensionOf_cases (Dom.rectWidth e) (ImageAnalyzer.getAttribute e "width")) as Hd.
    fold w in Hd. subst written. cbv beta. destruct w; intuition. }
  split.
  { rewrite !getAttribute_setDimension. cbn [String.eqb Ascii.eqb Bool.eqb].
    pose proof (dimensionOf_cases (Dom.rectHeight e) (ImageAnalyzer.getAttribute e "height")) as Hd.
    fold h in Hd. subst written. cbv beta.
    destruct h; rewrite ?(Hk "height") by discriminate; intuition. }
  intros k K1 K2 K3. rewrite !getAttribute_setDimension.
  apply String.eqb_neq in K2, K3. rewrite (String.eqb_sym "height"), K3.
  rewrite (String.eqb_sym "width"), K2. now apply Hk.
Qed.

(** ** ColorAnalyzer.isNeutral on channel values *)

Lemma forall_byte_pairs (P : Z -> Z -> bool) :
  forallb (fun a => forallb (P a) Spec.allBytes) Spec.allBytes = true ->
  forall a b, 0 <= a <= 255 -> 0 <= b <= 255 -> P a b = true.
Proof.
  intros H a b Ha Hb.
  pose proof (forall_byte (fun a => forallb (P a) Spec.allBytes) H a Ha) as H1.
  cbv beta in H1. exact (forall_byte (P a) H1 b Hb).
Qed.

Lemma flt_bytes (a b : Z) :
  0 <= a <= 255 -> 0 <= b <= 255 -> JS.flt (JS.ofZ a) (JS.ofZ b) = (a <? b).
Proof.
  intros Ha Hb.
  pose proof (forall_byte_pairs
                (fun a b => Bool.eqb (JS.flt (JS.ofZ a) (JS.ofZ b)) (a <? b))
                ltac:(vm_compute; reflexivity) a b Ha Hb) as H.
  cbv beta in H. now apply Bool.eqb_prop in H.
Qed.

Lemma isNaN_byte (a : Z) : 0 <= a <= 255 -> JS.isNaN (JS.ofZ a) = false.
Proof.
  intros Ha.
  pose proof (forall_byte (fun a => negb (JS.isNaN (JS.ofZ a)))
                          ltac:(vm_compute; reflexivity) a Ha) as H.
  cbv beta in H. now apply negb_true_iff in H.
Qed.

Lemma max2_bytes (a b : Z) :
  0 <= a <= 255 -> 0 <= b <= 255 -> JS.max2 (JS.ofZ a) (JS.ofZ b) = JS.ofZ (Z.max a b).
Proof.
  intros Ha Hb. unfold JS.max2. rewrite !isNaN_byte, flt_bytes by assumption. cbn [orb].
  destruct (Z.ltb_spec a b); [now rewrite Z.max_r by lia | now rewrite Z.max_l by lia].
Qed.

Lemma min2_bytes (a b : Z) :
  0 <= a <= 255 -> 0 <= b <= 255 -> JS.min2 (JS.ofZ a) (JS.ofZ b) = JS.ofZ (Z.min a b).
Proof.
  intros Ha Hb. unfold JS.min2. rewrite !isNaN_byte, flt_bytes by assumption. cbn [orb].
  destruct (Z.ltb_spec b a); [now rewrite Z.min_r by lia | now rewrite Z.min_l by lia].
Qed.

Lemma lowSaturation_greyish (mx mn : Z) :
  0 <= mn <= 255 -> 0 <= mx <= 255 -> mn <= mx ->
  SpecRest.lowSaturation mx mn = (mx =? 0) || (10 * (mx - mn) <? mx).
Proof.
  intros Hn Hx Hle.
  pose proof (forall_byte_pairs
                (fun mx mn => if mn <=? mx
                              then Bool.eqb (SpecRest.lowSaturation mx mn)
                                            ((mx =? 0) || (10 * (mx - mn) <? mx))
                              else true)
                ltac:(vm_compute; reflexivity) mx mn Hx Hn) as H.
  cbv beta in H. apply Z.leb_le in Hle. rewrite Hle in H. now apply Bool.eqb_prop in H.
Qed.

Lemma parseInt_hexByte (v : Z) :
  0 <= v <= 255 -> JS.parseInt (Spec.hexByte v) 16 = JS.JInt v.
Proof.
  intros Hv.
  pose proof (forall_byte
                (fun v => match JS.parseInt (Spec.hexByte v) 16 with
                          | JS.JInt z => z =? v
                          | _ => false
                          end)
                ltac:(vm_compute; reflexivity) v Hv) as H.
  cbv beta in H. destruct (JS.parseInt (Spec.hexByte v) 16); try discriminate.
  apply Z.eqb_eq in H. now subst.
Qed.

(** X20: a colour #RRGGBB is neutral exactly when its largest channel is 0
    or ten times the spread of its channels is less than the largest one;
    the quotient of the code, taken in binary64 and compared with 0.1,
    decides the same as the integers for all channel values. *)
Theorem isNeutral_channels (r g b : Z) :
  0 <= r <= 255 -> 0 <= g <= 255 -> 0 <= b <= 255 ->
  ColorAnalyzer.isNeutral
    (Some ("#" ++ Spec.hexByte r ++ Spec.hexByte g ++ Spec.hexByte b))
  = SpecRest.greyish r g b.
Proof.
  intros Hr Hg Hb. unfold ColorAnalyzer.isNeutral.
  change (JS.truthy ("#" ++ ?x)) with true. cbn [negb].
  change (JS.slice ("#" ++ Spec.hexByte r ++ Spec.hexByte g ++ Spec.hexByte b) 1 3)
    with (Spec.hexByte r).
  change (JS.slice ("#" ++ Spec.hexByte r ++ Spec.hexByte g ++ Spec.hexByte b) 3 5)
    with (Spec.hexByte g).
  change (JS.slice ("#" ++ Spec.hexByte r ++ Spec.hexByte g ++ Spec.hexByte b) 5 7)
    with (Spec.hexByte b).
  rewrite !parseInt_hexByte by assumption. cbn [JS.toNumber].
  unfold JS.Math_max, JS.Math_min.
  rewrite (max2_bytes r g), (min2_bytes r g) by assumption.
  rewrite (max2_bytes (Z.max r g) b), (min2_bytes (Z.min r g) b) by lia.
  cbv zeta.
  change (JS.flt _ _) with (SpecRest.lowSaturation (Z.max (Z.max r g) b) (Z.min (Z.min r g) b)).
  unfold SpecRest.greyish. apply lowSaturation_greyish; lia.
Qed.

Lemma isNeutral_channels_witness :
  ColorAnalyzer.isNeutral (Some "#DCDCC8") = true
  /\ ColorAnalyzer.isNeutral (Some "#DCDCC6") = false.
Proof.
  split.
  - apply (isNeutral_channels 220 220 200); lia.
  - apply (isNeutral_channels 220 220 198); lia.
Defined.

(** ** ImageAnalyzer.detectLogo *)

Lemma firstReturn_cases {A B : Type} (body : A -> option B) (l : list A) :
  match ImageRest.firstReturn body l with
  | Some r => exists pre x post,
                l = (pre ++ x :: post)%list /\ body x = Some r
                /\ Forall (fun y => body y = None) pre
  | None => Forall (fun y => body y = None) l
  end.
Proof.
  induction l as [|x l IH]; cbn; [constructor|].
  destruct (body x) as [r|] eqn:E.
  - exists [], x, l. repeat split; auto.
  - destruct (ImageRest.firstReturn body l) as [r|].
    + destruct IH as (pre & y & post & -> & Hy & Hpre).
      exists (x :: pre), y, post. repeat split; auto.
    + now constructor.
Qed.

Section LogoFacts.

Variable imgOf : Dom.element -> ImageRest.imgData.
Variable doc : Dom.document.

Lemma tryImage_cases (selector : string) :
  match ImageRest.tryImage imgOf doc selector with
  | Some r => exists element,
                Dom.querySelector doc selector = Some element
                /\ r = Some (SpecRest.infoOf (imgOf element))
                /\ JS.truthy (ImageRest.src (imgOf element)) = true
                /\ SpecRest.imageHit imgOf doc selector = true
  | None => SpecRest.imageHit imgOf doc selector = false
  end.
Proof.
  unfold ImageRest.tryImage, SpecRest.imageHit.
  destruct (Dom.querySelector doc selector) as [el|]; [|reflexivity].
  destruct (JS.truthy (ImageRest.src (imgOf el))) eqn:E; [|reflexivity].
  exists el. rewrite getImageInfo_infoOf, E. auto.
Qed.

Lemma no_imageHit (l : list string) :
  Forall (fun y => ImageRest.tryImage imgOf doc y = None) l ->
  existsb (SpecRest.imageHit imgOf doc) l = false.
Proof.
  induction 1 as [|y l Hy Hl IH]; cbn; [reflexivity|].
  pose proof (tryImage_cases y) as H. rewrite Hy in H. now rewrite H, IH.
Qed.

Lemma no_elementHit (f : Dom.element -> ImageRest.svgLogo) (l : list string) :
  Forall (fun y => option_map f (Dom.querySelector doc y) = None) l ->
  existsb (SpecRest.elementHit doc) l = false.
Proof.
  induction 1 as [|y l Hy Hl IH]; cbn; [reflexivity|].
  unfold SpecRest.elementHit at 1. destruct (Dom.querySelector doc y); [discriminate|].
  exact IH.
Qed.

End LogoFacts.

(** X21: the logo is the image of the first of the twelve logo selectors
    that finds an image with an address; an element found without an
    address is passed over.  An [svg] is reported only when no selector
    finds such an image, and the first image of header or nav only when
    there is no such [svg] either; the result is null exactly when all
    three fail.  An image reported always has an address. *)
Theorem detectLogo_spec (imgOf : Dom.element -> ImageRest.imgData)
        (serializeToString : Dom.node -> string) (createObjectURL : string -> string)
        (doc : Dom.document) :
  let imageHit := SpecRest.imageHit imgOf doc in
  let svgHit := SpecRest.elementHit doc in
  let candidates := (ImageRest.logoSelectors ++ ["header img, nav img"])%list in
  match ImageRest.detectLogo imgOf serializeToString createObjectURL doc with
  | Some (ImageRest.LogoImage i) =>
      JS.truthy (ImageRest.i_url i) = true
      /\ (exists pre selector post element,
            candidates = (pre ++ selector :: post)%list
            /\ existsb imageHit pre = false
            /\ Dom.querySelector doc selector = Some element
            /\ i = SpecRest.infoOf (imgOf element))
      /\ (existsb imageHit ImageRest.logoSelectors = true
          \/ existsb svgHit ImageRest.svgLogoSelectors = false)
  | Some (ImageRest.LogoSvg l) =>
      existsb imageHit ImageRest.logoSelectors = false
      /\ exists pre selector post element,
           ImageRest.svgLogoSelectors = (pre ++ selector :: post)%list
           /\ existsb svgHit pre = false
           /\ Dom.querySelector doc selector = Some element
           /\ l = ImageRest.getSvgLogo serializeToString createObjectURL element
  | None =>
      existsb imageHit candidates = false
      /\ existsb svgHit ImageRest.svgLogoSelectors = false
  end.
Proof.
  intros imageHit svgHit candidates. subst imageHit svgHit candidates.
  unfold ImageRest.detectLogo.
  pose proof (firstReturn_cases (ImageRest.tryImage imgOf doc) ImageRest.logoSelectors) as H1.
  destruct (ImageRest.firstReturn (ImageRest.tryImage imgOf doc) ImageRest.logoSelectors)
    as [r|].
  - destruct H1 as (pre & sel & post & E & Hs & Hpre).
    pose proof (tryImage_cases imgOf doc sel) as Hc. rewrite Hs in Hc.
    destruct Hc as (el & Hq & -> & Ht & Hh). cbn [option_map].
    split; [exact Ht|]. split.
    + exists pre, sel, (post ++ ["header img, nav img"])%list, el.
      rewrite E, <- app_assoc. repeat split; auto. now apply no_imageHit.
    + left. rewrite E, existsb_app. cbn. now rewrite Hh, orb_true_r.
  - pose proof (no_imageHit imgOf doc _ H1) as N1.
    pose proof (firstReturn_cases (ImageRest.trySvg serializeToString createObjectURL doc)
                                  ImageRest.svgLogoSelectors) as H2.
    destruct (ImageRest.firstReturn (ImageRest.trySvg serializeToString createObjectURL doc)
                                    ImageRest.svgLogoSelectors) as [l|].
    + destruct H2 as (pre & sel & post & E & Hs & Hpre). split; [exact N1|].
      unfold ImageRest.trySvg in Hs, Hpre.
      destruct (Dom.querySelector doc sel) as [el|] eqn:Hq; [|discriminate].
      injection Hs as <-. exists pre, sel, post, el. repeat split; auto.
      now apply no_elementHit in Hpre.
    + unfold ImageRest.trySvg in H2. apply no_elementHit in H2.
      pose proof (tryImage_cases imgOf doc "header img, nav img") as Hc.
      destruct (ImageRest.tryImage imgOf doc "header img, nav img") as [r|].
      * destruct Hc as (el & Hq & -> & Ht & Hh). cbn [option_map].
        split; [exact Ht|]. split; [|now right].
        exists ImageRest.logoSelectors, "header img, nav img", [], el. repeat split; auto.
      * split; [|exact H2]. rewrite existsb_app, N1. cbn. now rewrite Hc.
Qed.

(** ** ColorAnalyzer.analyzeStyleSheets: weights count declarations *)

Lemma addTo_weightOf (c : ColorAnalyzer.colors) (k k' : ColorAnalyzer.category)
      (h src h' : string) (w : Z) :
  SpecRest.weightOf (ColorAnalyzer.get (ColorAnalyzer.addTo c k h src w) k') h'
  = SpecRest.weightOf (ColorAnalyzer.get c k') h'
    + (if ColorAnalyzer.category_eqb k k' && (JS.truthy h && String.eqb h h') then w else 0).
Proof.
  unfold ColorAnalyzer.addTo. rewrite get_put.
  destruct (ColorAnalyzer.category_eqb k k') eqn:E; cbn [andb]; [|lia].
  assert (k = k') by (destruct k, k'; try discriminate; reflexivity). subst k'.
  apply addColor_weightOf.
Qed.

Lemma countOf_app (k : ColorAnalyzer.category) (h : string)
      (l1 l2 : list (ColorAnalyzer.category * string)) :
  SpecRest.countOf k h (l1 ++ l2) = SpecRest.countOf k h l1 + SpecRest.countOf k h l2.
Proof. unfold SpecRest.countOf. rewrite filter_app, List.length_app. lia. Qed.

Section Declarations.

Variable canvasFillStyle : string -> option string.
Variable maxStack : nat.

Let toHex := ColorAnalyzer.toHex canvasFillStyle maxStack.

Lemma declaration_step (c : ColorAnalyzer.colors) (color selector : string)
      (k0 k : ColorAnalyzer.category) (h : string) :
  SpecRest.weightOf
    (ColorAnalyzer.get
       (if JS.truthy color && ColorAnalyzer.isValidColor color then
          if ColorAnalyzer.truthyOpt (toHex color)
          then ColorAnalyzer.addTo c k0 (ColorAnalyzer.orEmpty (toHex color)) selector 1
          else c
        else c) k) h
  = SpecRest.weightOf (ColorAnalyzer.get c k) h
    + SpecRest.countOf k h (SpecRest.declaration canvasFillStyle maxStack color k0).
Proof.
  unfold SpecRest.declaration, toHex.
  destruct (JS.truthy color && ColorAnalyzer.isValidColor color); [|cbn; lia].
  pose proof (toHexAt_hash canvasFillStyle maxStack color) as Hh.
  unfold ColorAnalyzer.toHex.
  destruct (ColorAnalyzer.toHexAt canvasFillStyle maxStack color) as [x|]; [|cbn; lia].
  specialize (Hh x eq_refl). destruct x as [|a x]; [discriminate|].
  cbn [ColorAnalyzer.truthyOpt ColorAnalyzer.orEmpty JS.truthy].
  rewrite addTo_weightOf. unfold SpecRest.countOf. cbn [filter fst snd JS.truthy andb].
  destruct (ColorAnalyzer.category_eqb k0 k); cbn [andb]; [|reflexivity].
  destruct (String.eqb (String a x) h); reflexivity.
Qed.

Lemma analyzeRule_weights (c : ColorAnalyzer.colors) (rule : Dom.cssRule)
      (k : ColorAnalyzer.category) (h : string) :
  SpecRest.weightOf
    (ColorAnalyzer.get (ColorAnalyzer.analyzeRule canvasFillStyle maxStack c rule) k) h
  = SpecRest.weightOf (ColorAnalyzer.get c k) h
    + SpecRest.countOf k h (SpecRest.declarations canvasFillStyle maxStack rule).
Proof.
  destruct rule as [selector st|]; [|cbn; lia].
  unfold ColorAnalyzer.analyzeRule, SpecRest.declarations. cbv zeta.
  fold toHex. rewrite !countOf_app, !declaration_step. lia.
Qed.

Lemma analyzeRules_weights (rules : list Dom.cssRule) (c : ColorAnalyzer.colors)
      (k : ColorAnalyzer.category) (h : string) :
  SpecRest.weightOf
    (ColorAnalyzer.get
       (fold_left (ColorAnalyzer.analyzeRule canvasFillStyle maxStack) rules c) k) h
  = SpecRest.weightOf (ColorAnalyzer.get c k) h
    + SpecRest.countOf k h
        (flat_map (SpecRest.declarations canvasFillStyle maxStack) rules).
Proof.
  revert c. induction rules as [|rule rules IH]; intros c; cbn [fold_left flat_map].
  - cbn. lia.
  - rewrite IH, analyzeRule_weights, countOf_app. lia.
Qed.

End Declarations.

(** X3: the style-sheet pass reads the style rules of the sheets that can
    be read and nothing else, and it weighs by counting: the weight it adds
    to a hex in a category is the number of colour declarations, among the
    background, text and border colours of these rules, that are valid,
    normalize to that hex and fall into that category. *)
Theorem stylesheet_weights (canvasFillStyle : string -> option string) (maxStack : nat)
        (doc : Dom.document) (c : ColorAnalyzer.colors)
        (k : ColorAnalyzer.category) (h : string) :
  SpecRest.weightOf
    (ColorAnalyzer.get (ColorAnalyzer.analyzeStyleSheets canvasFillStyle maxStack doc c) k) h
  = SpecRest.weightOf (ColorAnalyzer.get c k) h
    + SpecRest.countOf k h
        (flat_map (SpecRest.declarations canvasFillStyle maxStack) (SpecRest.styleRules doc)).
Proof. rewrite analyzeStyleSheets_rules. apply analyzeRules_weights. Qed.

(** ** ColorAnalyzer.analyzeKeyElements: the colours of the body *)

Lemma grows_refl (c : ColorAnalyzer.colors) : SpecRest.grows c c.
Proof. intros k h. lia. Qed.

Lemma grows_addTo (c0 c : ColorAnalyzer.colors) (k : ColorAnalyzer.category)
      (h src : string) (w : Z) :
  0 <= w -> SpecRest.grows c0 c -> SpecRest.grows c0 (ColorAnalyzer.addTo c k h src w).
Proof.
  intros Hw Hc k' h'. rewrite addTo_weightOf. specialize (Hc k' h').
  destruct (_ && _); lia.
Qed.

Ltac grows_branches :=
  repeat match goal with
         | |- SpecRest.grows _ (ColorAnalyzer.addTo _ _ _ _ _) => apply grows_addTo; [lia|]
         | |- SpecRest.grows _ (if ?b then _ else _) => destruct b
         | |- SpecRest.grows _ (match ?x with _ => _ end) => destruct x
         | |- SpecRest.grows _ (fold_left _ _ _) => apply fold_left_invariant; [intros|]
         end; auto using grows_refl.

Section BodyColours.

Variable canvasFillStyle : string -> option string.
Variable maxStack : nat.

Lemma analyzeStyleSheets_grows (doc : Dom.document) (c0 c : ColorAnalyzer.colors) :
  SpecRest.grows c0 c ->
  SpecRest.grows c0 (ColorAnalyzer.analyzeStyleSheets canvasFillStyle maxStack doc c).
Proof.
  intros Hc. unfold ColorAnalyzer.analyzeStyleSheets.
  apply fold_left_invariant; [|exact Hc]. clear. intros c [rules|] Hc; simpl; [|exact Hc].
  apply fold_left_invariant; [|exact Hc]. clear. intros c rule Hc.
  unfold ColorAnalyzer.analyzeRule. grows_branches.
Qed.

(** What follows the body in the key-element pass lowers no weight. *)
Lemma after_body_grows (doc : Dom.document) (c : ColorAnalyzer.colors) :
  SpecRest.grows (ColorAnalyzer.keyBody canvasFillStyle maxStack doc c)
                 (ColorAnalyzer.analyzeKeyElements canvasFillStyle maxStack doc c).
Proof.
  unfold ColorAnalyzer.analyzeKeyElements.
  set (c1 := ColorAnalyzer.keyBody canvasFillStyle maxStack doc c).
  assert (H2 : SpecRest.grows c1 (ColorAnalyzer.keyHtml canvasFillStyle maxStack doc c1)).
  { unfold ColorAnalyzer.keyHtml. grows_branches. }
  repeat (apply fold_left_invariant;
          [intros;
           unfold ColorAnalyzer.keyButton, ColorAnalyzer.keyHeading,
             ColorAnalyzer.keyContainer, ColorAnalyzer.keyInput; grows_branches|]).
  exact H2.
Qed.

Lemma keyBody_weights (doc : Dom.document) (c : ColorAnalyzer.colors) (body : Dom.element) :
  Dom.body doc = Some body ->
  SpecRest.grows ColorAnalyzer.emptyColors c ->
  let styles := Dom.getComputedStyle body in
  let c' := ColorAnalyzer.keyBody canvasFillStyle maxStack doc c in
  (forall h, ColorAnalyzer.toHex canvasFillStyle maxStack (Dom.color styles) = Some h ->
             1000 <= SpecRest.weightOf (ColorAnalyzer.get c' ColorAnalyzer.foreground) h)
  /\ (forall h, ColorAnalyzer.toHex canvasFillStyle maxStack (Dom.backgroundColor styles)
                = Some h ->
                (if String.eqb h "#FFFFFF" || String.eqb h "#000000" then 500 else 1000)
                <= SpecRest.weightOf (ColorAnalyzer.get c' ColorAnalyzer.background) h).
Proof.
  intros Hb Hc styles c'. subst c' styles. unfold ColorAnalyzer.keyBody. rewrite Hb.
  cbv zeta. split.
  - intros h Hh. rewrite Hh.
    pose proof (toHexAt_hash canvasFillStyle maxStack _ _ Hh) as Ht.
    assert (Htr : JS.truthy h = true) by (destruct h; [discriminate | reflexivity]).
    cbn [ColorAnalyzer.truthyOpt ColorAnalyzer.orEmpty]. rewrite Htr.
    rewrite addTo_weightOf, Htr, String.eqb_refl. cbn [ColorAnalyzer.category_eqb andb].
    match goal with
    | |- 1000 <= SpecRest.weightOf (ColorAnalyzer.get ?x _) _ + _ =>
        assert (G : SpecRest.grows ColorAnalyzer.emptyColors x) by grows_branches
    end.
    specialize (G ColorAnalyzer.foreground h).
    change (SpecRest.weightOf (ColorAnalyzer.get ColorAnalyzer.emptyColors _) h) with 0 in G.
    lia.
  - intros h Hh. rewrite Hh.
    pose proof (toHexAt_hash canvasFillStyle maxStack _ _ Hh) as Ht.
    assert (Htr : JS.truthy h = true) by (destruct h; [discriminate | reflexivity]).
    cbn [ColorAnalyzer.truthyOpt ColorAnalyzer.orEmpty]. rewrite Htr. cbn [andb].
    pose proof (Hc ColorAnalyzer.background h) as G.
    change (SpecRest.weightOf (ColorAnalyzer.get ColorAnalyzer.emptyColors _) h) with 0 in G.
    assert (F : forall x src w,
               SpecRest.weightOf
                 (ColorAnalyzer.get
                    (if ColorAnalyzer.truthyOpt
                          (ColorAnalyzer.toHex canvasFillStyle maxStack
                             (Dom.color (Dom.getComputedStyle body)))
                     then ColorAnalyzer.addTo x ColorAnalyzer.foreground
                            (ColorAnalyzer.orEmpty
                               (ColorAnalyzer.toHex canvasFillStyle maxStack
                                  (Dom.color (Dom.getComputedStyle body)))) src w
                     else x) ColorAnalyzer.background) h
               = SpecRest.weightOf (ColorAnalyzer.get x ColorAnalyzer.background) h).
    { intros x src w. destruct (ColorAnalyzer.truthyOpt _); [|reflexivity].
      rewrite addTo_weightOf. cbn [ColorAnalyzer.category_eqb andb]. lia. }
    rewrite F.
    destruct (String.eqb h "#FFFFFF") eqn:E1; cbn [negb andb orb].
    + rewrite addTo_weightOf, Htr, String.eqb_refl. cbn [ColorAnalyzer.category_eqb andb]. lia.
    + destruct (String.eqb h "#000000") eqn:E2; cbn [negb andb orb];
        rewrite addTo_weightOf, Htr, String.eqb_refl; cbn [ColorAnalyzer.category_eqb andb];
        lia.
Qed.

End BodyColours.

(** X22: when the page has a body, the text colour of the body, once
    normalized, is in the Foreground map with a weight of at least 1000, and
    its background colour is in the Background map with a weight of at least
    1000, or of at least 500 when it is white or black. *)
Theorem body_colours_weigh (canvasFillStyle : string -> option string) (maxStack : nat)
        (doc : Dom.document) (body : Dom.element) :
  Dom.body doc = Some body ->
  let styles := Dom.getComputedStyle body in
  let c := Spec.collected canvasFillStyle maxStack doc in
  (forall h, ColorAnalyzer.toHex canvasFillStyle maxStack (Dom.color styles) = Some h ->
             1000 <= SpecRest.weightOf (ColorAnalyzer.get c ColorAnalyzer.foreground) h)
  /\ (forall h, ColorAnalyzer.toHex canvasFillStyle maxStack (Dom.backgroundColor styles)
                = Some h ->
                (if String.eqb h "#FFFFFF" || String.eqb h "#000000" then 500 else 1000)
                <= SpecRest.weightOf (ColorAnalyzer.get c ColorAnalyzer.background) h).
Proof.
  intros Hb styles c. subst styles c. unfold Spec.collected.
  set (c1 := ColorAnalyzer.analyzeStyleSheets canvasFillStyle maxStack doc
               ColorAnalyzer.emptyColors).
  assert (G1 : SpecRest.grows ColorAnalyzer.emptyColors c1)
    by apply analyzeStyleSheets_grows, grows_refl.
  destruct (keyBody_weights canvasFillStyle maxStack doc c1 body Hb G1) as [Hf Hg].
  pose proof (after_body_grows canvasFillStyle maxStack doc c1) as G2.
  split; intros h Hh.
  - specialize (Hf h Hh). specialize (G2 ColorAnalyzer.foreground h). lia.
  - specialize (Hg h Hh). specialize (G2 ColorAnalyzer.background h).
    destruct (_ || _); lia.
Qed.

Lemma body_colours_weigh_witness :
  (1000 <=? SpecRest.weightOf
              (ColorAnalyzer.get (Spec.collected Fixture.noCanvas 0 Fixture.articleDocument)
                                 ColorAnalyzer.foreground) "#000000") = true
  /\ (500 <=? SpecRest.weightOf
               (ColorAnalyzer.get (Spec.collected Fixture.noCanvas 0 Fixture.articleDocument)
                                  ColorAnalyzer.background) "#000000") = true.
Proof.
  destruct (body_colours_weigh Fixture.noCanvas 0 Fixture.articleDocument Fixture.bodyEl
                               eq_refl) as [Hf Hb].
  split; apply Z.leb_le; [apply Hf | apply (Hb "#000000")]; reflexivity.
Defined.

(** ** ImageAnalyzer.getElementSelector *)

(** X23: for an element without an id whose class attribute is
    [cls rest], [cls] holding no space and [rest] being empty or starting
    with a space, the selector is the lower-case tag name followed by a
    point and [cls]; when [cls] is empty, as for a class attribute that
    starts with a space, the selector is the bare tag name.  Only the space
    separates classes. *)
Theorem getElementSelector_class (idOf : Dom.element -> string)
        (classNameOf : Dom.element -> option string) (element : Dom.element)
        (cls rest : string) :
  idOf element = EmptyString ->
  classNameOf element = Some (cls ++ rest) ->
  Spec.allOf (fun c => negb (Ascii.eqb c " ")) cls = true ->
  Spec.startsOutside (fun c => negb (Ascii.eqb c " ")) rest = true ->
  ImageRest.getElementSelector idOf classNameOf element
  = if JS.truthy cls
    then JS.toLowerCase (Dom.tagNameOf element) ++ "." ++ cls
    else JS.toLowerCase (Dom.tagNameOf element).
Proof.
  intros Hid Hc Hcls Hrest. unfold ImageRest.getElementSelector. rewrite Hid, Hc.
  cbn [JS.truthy]. unfold ImageRest.firstClass.
  rewrite (first_split " " cls rest Hcls Hrest).
  destruct (JS.truthy (cls ++ rest)) eqn:E; [reflexivity|].
  destruct cls; [reflexivity | discriminate].
Qed.

Lemma getElementSelector_class_witness :
  ImageRest.getElementSelector FixtureRest.noId FixtureRest.heroClass FixtureRest.hero
  = "div.hero"
  /\ ImageRest.getElementSelector FixtureRest.noId (fun _ => Some " hero") FixtureRest.hero
     = "div".
Proof.
  split.
  - apply (getElementSelector_class FixtureRest.noId FixtureRest.heroClass FixtureRest.hero
             "hero" " wide"); reflexivity.
  - apply (getElementSelector_class FixtureRest.noId (fun _ => Some " hero") FixtureRest.hero
             EmptyString " hero"); reflexivity.
Defined.

(** ** ColorAnalyzer.analyzeKeyElements: the Accent map *)

Section AccentWeights.

Variable canvasFillStyle : string -> option string.
Variable maxStack : nat.

Lemma keyButton_accent (c : ColorAnalyzer.colors) (btn : Dom.element) (h : string) :
  SpecRest.weightOf
    (ColorAnalyzer.get (ColorAnalyzer.keyButton canvasFillStyle maxStack c btn)
                       ColorAnalyzer.accent) h
  = SpecRest.weightOf (ColorAnalyzer.get c ColorAnalyzer.accent) h
    + (if SpecRest.paints canvasFillStyle maxStack h btn then 50 else 0).
Proof.
  unfold ColorAnalyzer.keyButton, SpecRest.paints. cbv zeta.
  match goal with
  | |- context [if ?b then ColorAnalyzer.addTo c ColorAnalyzer.primary ?x ?y ?z else c] =>
      set (c1 := if b then ColorAnalyzer.addTo c ColorAnalyzer.primary x y z else c)
  end.
  assert (E1 : ColorAnalyzer.get c1 ColorAnalyzer.accent
               = ColorAnalyzer.get c ColorAnalyzer.accent) by (subst c1; untouched).
  destruct (ColorAnalyzer.toHex canvasFillStyle maxStack
              (Dom.color (Dom.getComputedStyle btn))) as [x|] eqn:Ex.
  - cbn [ColorAnalyzer.truthyOpt ColorAnalyzer.orEmpty].
    rewrite (toHex_truthy _ _ _ _ Ex).
    destruct (ColorAnalyzer.isNeutral (Some x)); cbn [andb negb].
    + rewrite E1, andb_false_r. lia.
    + rewrite addTo_weightOf, E1, (toHex_truthy _ _ _ _ Ex), andb_true_r.
      cbn [ColorAnalyzer.category_eqb andb]. reflexivity.
  - cbn [ColorAnalyzer.truthyOpt andb]. rewrite E1. lia.
Qed.

Lemma keyButtons_accent (buttons : list Dom.element) (c : ColorAnalyzer.colors) (h : string) :
  SpecRest.weightOf
    (ColorAnalyzer.get
       (fold_left (ColorAnalyzer.keyButton canvasFillStyle maxStack) buttons c)
       ColorAnalyzer.accent) h
  = SpecRest.weightOf (ColorAnalyzer.get c ColorAnalyzer.accent) h
    + 50 * Z.of_nat (List.length (filter (SpecRest.paints canvasFillStyle maxStack h) buttons)).
Proof.
  revert c. induction buttons as [|btn buttons IH]; intros c; cbn [fold_left filter].
  - cbn. lia.
  - rewrite IH, keyButton_accent.
    destruct (SpecRest.paints canvasFillStyle maxStack h btn); cbn [List.length]; lia.
Qed.

Lemma linkColors_paints (links : list Dom.element) (h : string) :
  existsb (String.eqb h)
          (fold_left (ColorAnalyzer.keyLink canvasFillStyle maxStack) links [])
  = existsb (SpecRest.paints canvasFillStyle maxStack h) links.
Proof.
  destruct (keyLinks_spec canvasFillStyle maxStack links [] (NoDup_nil _)) as [_ H].
  apply eq_true_iff_eq. rewrite seen_spec, H, existsb_exists. split.
  - intros [[]|(link & Hl & Hx & Hn)]. exists link. split; [exact Hl|].
    unfold SpecRest.paints. now rewrite Hx, String.eqb_refl, Hn.
  - intros (link & Hl & Hp). right. exists link. split; [exact Hl|].
    unfold SpecRest.paints in Hp.
    destruct (ColorAnalyzer.toHex canvasFillStyle maxStack
                (Dom.color (Dom.getComputedStyle link))) as [x|]; [|discriminate].
    apply andb_true_iff in Hp. destruct Hp as [Hx Hn].
    apply String.eqb_eq in Hx. subst x. apply negb_true_iff in Hn. auto.
Qed.

End AccentWeights.

(** X7: through the key-element pass the Accent weight of a hex grows by
    50 for every button whose text colour normalizes to it and is not
    neutral, and by 80, once, when at least one link [a[href]] has such a
    colour, however many links share it; nothing else in the pass touches
    the Accent map. *)
Theorem link_colours_once (canvasFillStyle : string -> option string) (maxStack : nat)
        (doc : Dom.document) (c : ColorAnalyzer.colors) (h : string) :
  let paints := SpecRest.paints canvasFillStyle maxStack h in
  SpecRest.weightOf
    (ColorAnalyzer.get (ColorAnalyzer.analyzeKeyElements canvasFillStyle maxStack doc c)
                       ColorAnalyzer.accent) h
  = SpecRest.weightOf (ColorAnalyzer.get c ColorAnalyzer.accent) h
    + 50 * Z.of_nat (List.length
                       (filter paints (Dom.querySelectorAll doc ColorAnalyzer.buttonSelector)))
    + (if existsb paints (Dom.querySelectorAll doc "a[href]") then 80 else 0).
Proof.
  intros paints. subst paints. unfold ColorAnalyzer.analyzeKeyElements.
  rewrite fold_left_get_all by (intros; apply keyRest_get; auto).
  rewrite fold_left_get_all by (intros; apply keyRest_get; auto).
  rewrite fold_left_get_all by (intros; apply keyRest_get; auto).
  destruct (keyLinks_spec canvasFillStyle maxStack
              (Dom.querySelectorAll doc "a[href]") [] (NoDup_nil _)) as [Hn Hin].
  rewrite link_weights.
  - rewrite linkColors_paints, keyButtons_accent, keyHtml_get, keyBody_get by auto.
    reflexivity.
  - exact Hn.
  - intros x Hx. apply Hin in Hx. destruct Hx as [[]|(link & _ & Hx & _)].
    exact (toHex_truthy _ _ _ _ Hx).
Qed.
